(** * RAG pipeline: chunking, retrieval fusion, diversity selection,
      context assembly and citation resolution

    A shallow embedding of the retrieval core of the repository
    ([app/services/chunking.py], [app/services/retrieval/*.py],
    [app/services/rag/*.py], [app/utils/text_utils.py],
    [app/utils/prompts.py]) together with the properties stated about it.

    Conventions.
    - Python [int] is [Z]; lengths, ranks and loop indices that the code
      obtains from [len], [enumerate] or [range] are [nat].
    - Python [str] is [string]; a character is a code point below 256.
    - Python [float] scores are exact rationals ([Q]): the rounding of
      double-precision arithmetic is left out, the [OverflowError] of the
      conversion of a large [int] to [float] is not.  Products and
      quotients by the literals [1.2] and [1.3] followed by [int(...)] are
      the corresponding integer quotients.
    - [int(s)] raises on more than 4300 digits.  [str(n)] is only applied
      to positions of a list, which are below [sys.maxsize], and to page
      numbers, which are integers of the database.
    - A raised exception is [None] (or [Raised]); the [try/except] blocks
      of the source are written out.
    - A regular expression of the source is the scan that [re] makes of
      the text from left to right; [\w] and [\s] are the classes of the
      [re] module on code points below 256. *)

From Stdlib Require Import List String Ascii ZArith QArith Bool Arith Lia.
From Stdlib Require Import Permutation Sorted.
Import ListNotations.

Local Open Scope string_scope.
Local Open Scope list_scope.
Local Open Scope nat_scope.

(** ** Python built-ins used by the code *)

Module Py.

(** [l[i]]: negative indices count from the end, [IndexError] is [None]. *)
Definition index {A : Type} (l : list A) (i : Z) : option A :=
  let n := Z.of_nat (List.length l) in
  if ((0 <=? i) && (i <? n))%Z then nth_error l (Z.to_nat i)
  else if ((- n <=? i) && (i <? 0))%Z then nth_error l (Z.to_nat (n + i))
  else None.

(** [l[:k]]: a negative bound counts from the end, nothing is raised. *)
Definition slice_to {A : Type} (l : list A) (k : Z) : list A :=
  if (0 <=? k)%Z then firstn (Z.to_nat k) l
  else firstn (Z.to_nat (Z.of_nat (List.length l) + k)) l.

(** [str.isspace] on one character. *)
Definition isspace (c : ascii) : bool :=
  let n := nat_of_ascii c in
  ((9 <=? n) && (n <=? 13)) || ((28 <=? n) && (n <=? 32))
  || (n =? 133) || (n =? 160).

(** [c.isdigit()] as used by the pattern [\d]. *)
Definition isdigit (c : ascii) : bool :=
  let n := nat_of_ascii c in (48 <=? n) && (n <=? 57).

(** Truth value of a list: [if l], [if not l]. *)
Definition truthy {A : Type} (l : list A) : bool :=
  match l with [] => false | _ :: _ => true end.

Definition is_empty (s : string) : bool :=
  match s with EmptyString => true | String _ _ => false end.

Definition snoc (s : string) (c : ascii) : string := s ++ String c EmptyString.

(** [s.split()]: maximal runs of non-whitespace characters. *)
Fixpoint split_go (s cur : string) : list string :=
  match s with
  | EmptyString => if is_empty cur then [] else [cur]
  | String c s' =>
      if isspace c
      then (if is_empty cur then split_go s' EmptyString
            else cur :: split_go s' EmptyString)
      else split_go s' (snoc cur c)
  end.

Definition split (s : string) : list string := split_go s EmptyString.

(** [s.split(sep)] for a one-character separator: empty pieces are kept. *)
Fixpoint split_on_go (sep : ascii) (s cur : string) : list string :=
  match s with
  | EmptyString => [cur]
  | String c s' =>
      if Ascii.eqb c sep then cur :: split_on_go sep s' EmptyString
      else split_on_go sep s' (snoc cur c)
  end.

Definition split_on (sep : ascii) (s : string) : list string :=
  split_on_go sep s EmptyString.

(** [sep.join(parts)]. *)
Definition join (sep : string) (parts : list string) : string :=
  String.concat sep parts.

Fixpoint lstrip (s : string) : string :=
  match s with
  | EmptyString => EmptyString
  | String c s' => if isspace c then lstrip s' else s
  end.

Fixpoint rev_string (s acc : string) : string :=
  match s with
  | EmptyString => acc
  | String c s' => rev_string s' (String c acc)
  end.

Definition rstrip (s : string) : string :=
  rev_string (lstrip (rev_string s EmptyString)) EmptyString.

(** [s.strip()]. *)
Definition strip (s : string) : string := rstrip (lstrip s).

(** [c.lower()] on code points below 256. *)
Definition lower_char (c : ascii) : ascii :=
  let n := nat_of_ascii c in
  if ((65 <=? n) && (n <=? 90))
     || ((192 <=? n) && (n <=? 222) && negb (n =? 215))
  then ascii_of_nat (n + 32) else c.

Fixpoint lower (s : string) : string :=
  match s with
  | EmptyString => EmptyString
  | String c s' => String (lower_char c) (lower s')
  end.

(** [s[:n]]. *)
Definition str_take (n : nat) (s : string) : string := String.substring 0 n s.

(** [set(l)] kept as a duplicate-free list. *)
Fixpoint dedup (l : list string) : list string :=
  match l with
  | [] => []
  | x :: l' =>
      if existsb (String.eqb x) l' then dedup l' else x :: dedup l'
  end.

(** [len(a.intersection(b))] for two sets of words. *)
Definition inter_size (a b : list string) : nat :=
  List.length (filter (fun w => existsb (String.eqb w) a) (dedup b)).

(** [sorted(set(nums))]: ascending, without duplicates. *)
Fixpoint insert_uniq (x : Z) (l : list Z) : list Z :=
  match l with
  | [] => [x]
  | y :: l' =>
      if (x <? y)%Z then x :: l
      else if (x =? y)%Z then l
      else y :: insert_uniq x l'
  end.

Definition sorted_set (nums : list Z) : list Z :=
  fold_right insert_uniq [] nums.

(** The number that a string of decimal digits denotes. *)
Definition digits_value (m : string) : Z :=
  fold_left (fun acc c => (10 * acc + Z.of_nat (nat_of_ascii c - 48))%Z)
            (list_ascii_of_string m) 0%Z.

(** [sys.int_info.default_max_str_digits] *)
Definition int_max_str_digits : nat := 4300.

(** [int(m)] for a string of decimal digits; [None] is the [ValueError]
    raised for a string of more than 4300 digits. *)
Definition int_of_digits (m : string) : option Z :=
  if int_max_str_digits <? String.length m then None
  else Some (digits_value m).

(** The least positive [int] that the conversion to [float] refuses with
    [OverflowError]: half an ulp above the largest float,
    [2^1024 - 2^971]. *)
Definition float_overflow : Z := (2 ^ 1024 - 2 ^ 970)%Z.

(** [str(n)] for a natural number. *)
Fixpoint digits_go (fuel n : nat) (acc : string) : string :=
  match fuel with
  | O => acc
  | S fuel' =>
      let acc' := String (ascii_of_nat (48 + n mod 10)) acc in
      if n / 10 =? 0 then acc' else digits_go fuel' (n / 10) acc'
  end.

Definition str_of_nat (n : nat) : string := digits_go (S n) n EmptyString.

Definition str_of_Z (z : Z) : string :=
  if (z <? 0)%Z then String "-" (str_of_nat (Z.to_nat (- z)))
  else str_of_nat (Z.to_nat z).

(** [c.isprintable()] on code points below 256: the controls, the
    no-break space and the soft hyphen are not printable. *)
Definition isprintable (c : ascii) : bool :=
  let n := nat_of_ascii c in
  ((32 <=? n) && (n <=? 126)) || ((161 <=? n) && negb (n =? 173)).

(** [''.join(c for c in s if p(c))] *)
Fixpoint filter_chars (p : ascii -> bool) (s : string) : string :=
  match s with
  | EmptyString => EmptyString
  | String c s' =>
      if p c then String c (filter_chars p s') else filter_chars p s'
  end.

(** [[s.strip() for s in pieces if s.strip()]] *)
Fixpoint strip_nonblank (pieces : list string) : list string :=
  match pieces with
  | [] => []
  | s :: rest =>
      if is_empty (strip s) then strip_nonblank rest
      else strip s :: strip_nonblank rest
  end.

(** The class [\w] of the [re] module on code points below 256: the
    alphanumeric characters and the underscore. *)
Definition isword (c : ascii) : bool :=
  let n := nat_of_ascii c in
  ((48 <=? n) && (n <=? 57)) || ((65 <=? n) && (n <=? 90)) || (n =? 95)
  || ((97 <=? n) && (n <=? 122)) || (n =? 170)
  || ((178 <=? n) && (n <=? 179)) || (n =? 181)
  || ((185 <=? n) && (n <=? 186)) || ((188 <=? n) && (n <=? 190))
  || ((192 <=? n) && (n <=? 214)) || ((216 <=? n) && (n <=? 246))
  || (248 <=? n).

(** The classes [[A-Z]] and [[a-z]]. *)
Definition isupper_az (c : ascii) : bool :=
  let n := nat_of_ascii c in (65 <=? n) && (n <=? 90).

Definition islower_az (c : ascii) : bool :=
  let n := nat_of_ascii c in (97 <=? n) && (n <=? 122).

(** A [dict] with string keys, in insertion order. *)
Section Dict.

Context {V : Type}.

(** [d.get(key)] *)
Fixpoint dict_find (d : list (string * V)) (key : string) : option V :=
  match d with
  | [] => None
  | (k, v) :: d' => if String.eqb k key then Some v else dict_find d' key
  end.

(** [d[key] = v]: an existing key keeps its place. *)
Fixpoint dict_set (d : list (string * V)) (key : string) (v : V)
    : list (string * V) :=
  match d with
  | [] => [(key, v)]
  | (k, w) :: d' =>
      if String.eqb k key then (k, v) :: d' else (k, w) :: dict_set d' key v
  end.

End Dict.

(** [sorted(l, key=key, reverse=True)]: descending and stable. *)
Section Sorted.

Context {A : Type}.
Variable key : A -> Q.

Fixpoint insert_desc (x : A) (l : list A) : list A :=
  match l with
  | [] => [x]
  | y :: l' =>
      if Qle_bool (key y) (key x) then x :: l else y :: insert_desc x l'
  end.

Definition sorted_desc (l : list A) : list A := fold_right insert_desc [] l.

End Sorted.

End Py.

(** ** Data model ([app/models], [app/services/retrieval/base.py]) *)

Definition UUID := string.

Record Document := mkDocument {
  upload_id : UUID;
  filename : string
}.

Record Chunk := mkChunk {
  id : UUID;
  document_id : UUID;
  document : Document;
  page_number : option Z;
  content : string
}.

Record RetrievalResult := mkResult {
  chunk : Chunk;
  score : Q;
  method : string
}.

(** [app/schemas/query.py] *)
Record CitationResponse := mkCitation {
  cit_document_id : UUID;
  cit_document_name : string;
  cit_page : option Z;
  cit_chunk_id : UUID;
  cit_snippet : string;
  cit_relevance_score : Q
}.

(** How a call ends: a value, an exception, or the step budget of a
    [while] loop used up. *)
Inductive run (A : Type) : Type :=
| Returned (a : A)
| Raised
| OutOfFuel.
Arguments Returned {A} a.
Arguments Raised {A}.
Arguments OutOfFuel {A}.

(** ** [app/utils/text_utils.py] *)

Module TextUtils.

(** [int(len(text.split()) * 1.3)] *)
Definition estimate_tokens (text : string) : Z :=
  (Z.of_nat (List.length (Py.split text)) * 13 / 10)%Z.

Definition truncate_text (text : string) (max_tokens : Z) : string :=
  let estimated_tokens := estimate_tokens text in
  if (estimated_tokens <=? max_tokens)%Z then text
  else
    let words := Py.split text in
    (* int(max_tokens / 1.3) truncates toward zero *)
    let words_to_keep := (Z.quot (max_tokens * 10) 13)%Z in
    let truncated := Py.join " " (Py.slice_to words words_to_keep) in
    truncated ++ "...".

(** The pattern [\[Source (\d+)\]] tried at the head of [s]: the captured
    digits and the length of the match. *)
Fixpoint strip_prefix (p s : string) : option string :=
  match p, s with
  | EmptyString, _ => Some s
  | String a p', String b s' =>
      if Ascii.eqb a b then strip_prefix p' s' else None
  | String _ _, EmptyString => None
  end.

Fixpoint take_digits (s : string) : string * string :=
  match s with
  | EmptyString => (EmptyString, EmptyString)
  | String c s' =>
      if Py.isdigit c
      then let (ds, rest) := take_digits s' in (String c ds, rest)
      else (EmptyString, s)
  end.

Definition match_source (s : string) : option (string * nat) :=
  match strip_prefix "[Source " s with
  | None => None
  | Some rest =>
      let (ds, rest') := take_digits rest in
      if Py.is_empty ds then None
      else match rest' with
           | String "]" _ => Some (ds, 8 + String.length ds + 1)
           | _ => None
           end
  end.

(** [re.findall]: leftmost, non-overlapping matches; [skip] counts the
    characters of the current match still to be passed over. *)
Fixpoint findall_source (s : string) (skip : nat) : list string :=
  match s with
  | EmptyString => []
  | String _ s' =>
      match skip with
      | S k => findall_source s' k
      | O =>
          match match_source s with
          | Some (ds, len) => ds :: findall_source s' (len - 1)
          | None => findall_source s' 0
          end
      end
  end.

(** [[int(m) for m in matches]]; [None] is a raised [ValueError]. *)
Fixpoint ints_of (matches : list string) : option (list Z) :=
  match matches with
  | [] => Some []
  | m :: rest =>
      match Py.int_of_digits m with
      | None => None
      | Some n =>
          match ints_of rest with
          | None => None
          | Some nums => Some (n :: nums)
          end
      end
  end.

Definition extract_citations_from_text (text : string)
    : option (list Z) :=
  ints_of (findall_source text 0).

(** The loop of [extract_relevant_snippet] over the pieces between dots. *)
Fixpoint best_sentence_loop (answer_words : list string)
    (sentences : list string) (best_sentence : string) (max_overlap : nat)
    : string :=
  match sentences with
  | [] => best_sentence
  | sentence :: rest =>
      let sentence := Py.strip sentence in
      if Py.is_empty sentence
      then best_sentence_loop answer_words rest best_sentence max_overlap
      else
        let sentence_words := Py.dedup (Py.split (Py.lower sentence)) in
        let overlap := Py.inter_size answer_words sentence_words in
        if max_overlap <? overlap
        then best_sentence_loop answer_words rest sentence overlap
        else best_sentence_loop answer_words rest best_sentence max_overlap
  end.

Definition extract_relevant_snippet (chunk_content answer_text : string)
    (snippet_length : nat) : string :=
  let answer_words := Py.dedup (Py.split (Py.lower answer_text)) in
  let sentences := Py.split_on "." chunk_content in
  let best_sentence :=
    best_sentence_loop answer_words sentences EmptyString 0 in
  let best_sentence :=
    if Py.is_empty best_sentence
    then match sentences with
         | first :: _ => Py.strip first
         | [] => best_sentence
         end
    else best_sentence in
  if snippet_length <? String.length best_sentence
  then Py.str_take snippet_length best_sentence ++ "..."
  else best_sentence.

Definition sanitize_query (query : string) : string :=
  let query := Py.join " " (Py.split query) in
  let query :=
    Py.filter_chars (fun char => Py.isprintable char || Py.isspace char)
      query in
  Py.strip query.

(** The character class [[.!?]]. *)
Definition is_end_mark (c : ascii) : bool :=
  Ascii.eqb c "." || Ascii.eqb c "!" || Ascii.eqb c "?".

(** [re.split(r'[.!?]+', text)]: the pieces between the maximal runs of
    end marks, empty pieces included; [in_run] tells that the previous
    character was an end mark. *)
Fixpoint split_end_marks (s cur : string) (in_run : bool) : list string :=
  match s with
  | EmptyString => [cur]
  | String c s' =>
      if is_end_mark c
      then (if in_run then split_end_marks s' EmptyString true
            else cur :: split_end_marks s' EmptyString true)
      else split_end_marks s' (Py.snoc cur c) false
  end.

Definition split_into_sentences (text : string) : list string :=
  let sentences := split_end_marks text EmptyString false in
  Py.strip_nonblank sentences.

End TextUtils.

(** ** [app/services/rag/citation_manager.py] *)

Module CitationManager.

Definition make_citation (answer_text : string) (result : RetrievalResult)
    : CitationResponse :=
  let chunk := chunk result in
  let snippet :=
    TextUtils.extract_relevant_snippet (content chunk) answer_text 150 in
  mkCitation (document_id chunk) (filename (document chunk))
             (page_number chunk) (id chunk) snippet (score result).

(** The [for] loop of [extract_citations]; [None] is a raised exception. *)
Fixpoint citations_loop (answer_text : string)
    (chunks_used : list RetrievalResult) (nums : list Z)
    (formatted_citations : list CitationResponse)
    : option (list CitationResponse) :=
  match nums with
  | [] => Some formatted_citations
  | citation_num :: rest =>
      let chunk_index := (citation_num - 1)%Z in
      if (chunk_index <? Z.of_nat (List.length chunks_used))%Z
      then
        match Py.index chunks_used chunk_index with
        | None => None
        | Some result =>
            citations_loop answer_text chunks_used rest
              (formatted_citations ++ [make_citation answer_text result])
        end
      else citations_loop answer_text chunks_used rest formatted_citations
  end.

Definition extract_citations_try (answer_text : string)
    (chunks_used : list RetrievalResult) : option (list CitationResponse) :=
  match TextUtils.extract_citations_from_text answer_text with
  | None => None
  | Some citation_numbers =>
      citations_loop answer_text chunks_used
        (Py.sorted_set citation_numbers) []
  end.

(** [extract_citations]: any exception is logged and turned into []. *)
Definition extract_citations (answer_text : string)
    (chunks_used : list RetrievalResult) : list CitationResponse :=
  match extract_citations_try answer_text chunks_used with
  | Some formatted_citations => formatted_citations
  | None => []
  end.

End CitationManager.

(** ** [app/services/rag/mmr_selector.py] *)

Module MMRSelector.

Section Select.

(** [cosine_similarity] of [text_utils] takes square roots; it is kept
    abstract.  [None] is its [ValueError] on vectors of unequal length. *)
Variable cosine_similarity : list Q -> list Q -> option Q.

(** [self.lambda_param] *)
Variable lambda_param : Q.

(** The body is the single statement [return []]. *)
Definition _get_chunk_embedding (result : RetrievalResult) : list Q := [].

(** [max(remaining, key=lambda r: r.score)]: position of the first element
    of maximal score; [best] is the position found so far. *)
Fixpoint argmax_score (l : list RetrievalResult) (i best : nat) (best_s : Q)
    : nat :=
  match l with
  | [] => best
  | r :: l' =>
      if Qle_bool (score r) best_s then argmax_score l' (S i) best best_s
      else argmax_score l' (S i) i (score r)
  end.

Definition max_by_score (remaining : list RetrievalResult) : nat :=
  match remaining with
  | [] => 0
  | r :: l' => argmax_score l' 1 0 (score r)
  end.

(** [remaining.remove(best_result)], the element being known by position. *)
Fixpoint remove_at {A : Type} (i : nat) (l : list A) : list A :=
  match l, i with
  | [], _ => []
  | _ :: l', O => l'
  | x :: l', S i' => x :: remove_at i' l'
  end.

(** The inner [for selected_result in selected] loop. *)
Fixpoint max_similarity_loop (chunk_embedding : list Q)
    (selected : list RetrievalResult) (max_similarity : Q) : option Q :=
  match selected with
  | [] => Some max_similarity
  | selected_result :: rest =>
      let selected_embedding := _get_chunk_embedding selected_result in
      if Py.truthy selected_embedding
      then
        match cosine_similarity chunk_embedding selected_embedding with
        | None => None
        | Some similarity =>
            max_similarity_loop chunk_embedding rest
              (if Qle_bool similarity max_similarity
               then max_similarity else similarity)
        end
      else max_similarity_loop chunk_embedding rest max_similarity
  end.

(** The [for result in remaining] loop.  [best_score = None] is
    [-float('inf')]; [best_result] is a position in [remaining]. *)
Fixpoint candidates_loop (selected rest : list RetrievalResult) (i : nat)
    (best_score : option Q) (best_result : option nat)
    : option (option nat) :=
  match rest with
  | [] => Some best_result
  | result :: rest' =>
      let chunk_embedding := _get_chunk_embedding result in
      if negb (Py.truthy chunk_embedding)
      then candidates_loop selected rest' (S i) best_score best_result
      else
        let relevance := score result in
        match max_similarity_loop chunk_embedding selected 0 with
        | None => None
        | Some max_similarity =>
            let mmr_score :=
              (lambda_param * relevance
               - (1 - lambda_param) * max_similarity)%Q in
            let better :=
              match best_score with
              | None => true
              | Some b => negb (Qle_bool mmr_score b)
              end in
            if better
            then candidates_loop selected rest' (S i) (Some mmr_score) (Some i)
            else candidates_loop selected rest' (S i) best_score best_result
        end
  end.

(** [while len(selected) < top_k and remaining]. *)
Fixpoint select_loop (fuel : nat) (top_k : Z)
    (selected remaining : list RetrievalResult)
    : run (list RetrievalResult) :=
  match fuel with
  | O => OutOfFuel
  | S fuel' =>
      if (Z.of_nat (List.length selected) <? top_k)%Z && Py.truthy remaining
      then
        if negb (Py.truthy selected)
        then
          let b := max_by_score remaining in
          match nth_error remaining b with
          | None => Raised (* not reached: [b] is a position of the list *)
          | Some best_result =>
              select_loop fuel' top_k (selected ++ [best_result])
                          (remove_at b remaining)
          end
        else
          match candidates_loop selected remaining 0 None None with
          | None => Raised
          | Some (Some b) =>
              match nth_error remaining b with
              | None => Raised
              | Some best_result =>
                  select_loop fuel' top_k (selected ++ [best_result])
                              (remove_at b remaining)
              end
          | Some None => Returned selected
          end
      else Returned selected
  end.

(** [select]; the [query_embedding] argument is never read.  Every pass of
    the loop removes one element of [remaining], so [len(results) + 1]
    steps are enough. *)
Definition select (results : list RetrievalResult) (top_k : Z)
    : run (list RetrievalResult) :=
  if negb (Py.truthy results) then Returned []
  else if (Z.of_nat (List.length results) <=? top_k)%Z then Returned results
  else
    match select_loop (S (List.length results)) top_k [] results with
    | Returned selected => Returned selected
    | Raised => Returned (Py.slice_to results top_k)
    | OutOfFuel => OutOfFuel
    end.

End Select.

End MMRSelector.

(** ** [app/services/chunking.py] *)

Module Chunking.

(** Values of a metadata dictionary. *)
Inductive MetaVal : Type :=
| MInt (z : Z)
| MStr (s : string).

Definition Metadata := list (string * MetaVal).

(** [d.get(key, default)] *)
Definition dict_get (d : Metadata) (key : string) (default : MetaVal)
    : MetaVal :=
  match Py.dict_find d key with
  | Some v => v
  | None => default
  end.

Record ChunkData := mkChunkData {
  cd_content : string;
  chunk_index : Z;
  token_count : Z;
  start_char : Z;
  end_char : Z;
  cd_page_number : MetaVal;
  cd_metadata : Metadata
}.

(** One entry of [sentence_positions]. *)
Record SentInfo := mkSentInfo {
  si_text : string;
  si_start : Z;
  si_end : Z;
  si_tokens : Z
}.

Definition no_sentence : SentInfo := mkSentInfo EmptyString 0 0 0.

(** The local variables of the packing loop. *)
Record Packing := mkPacking {
  chunks : list ChunkData;
  current_chunk : list string;
  current_tokens : Z;
  current_start_char : Z;
  next_index : Z
}.

Section TokenChunker.

(** [count_tokens]: the length of the tiktoken encoding of the text. *)
Variable count_tokens : string -> nat.

(** [self.chunk_size], [self.chunk_overlap], [self.min_chunk_size]. *)
Variables chunk_size chunk_overlap min_chunk_size : Z.

Variable document_id : UUID.
Variable metadata : Metadata.

(** The checks of [__init__]: [false] is a [ChunkingError]. *)
Definition valid_parameters : bool :=
  negb (chunk_size <=? 0)%Z && negb (chunk_overlap <? 0)%Z
  && negb (chunk_size <=? chunk_overlap)%Z.

(** The first loop: positions of the sentences in the space-joined text.
    It returns [sentence_positions], [char_position] and [text_length]. *)
Fixpoint positions_loop (sentences : list string)
    (char_position text_length : Z) : list SentInfo * Z * Z :=
  match sentences with
  | [] => ([], char_position, text_length)
  | sentence :: rest =>
      let len := Z.of_nat (String.length sentence) in
      let info :=
        mkSentInfo sentence char_position (char_position + len)
                   (Z.of_nat (count_tokens sentence)) in
      let char_position := (char_position + len + 1)%Z in
      let text_length := (char_position - 1)%Z in
      let '(infos, cp, tl) := positions_loop rest char_position text_length in
      (info :: infos, cp, tl)
  end.

(** [int(self.chunk_size * 1.2)] *)
Definition allowance : Z := Z.quot (chunk_size * 12) 10.

Definition make_chunk (chunk_text : string) (index tokens first last : Z)
    : ChunkData :=
  mkChunkData chunk_text index (Z.min tokens allowance) first last
    (dict_get metadata "page_number" (MInt 1))
    (Py.dict_set metadata "document_id" (MStr document_id)).

(** The backward walk that collects the overlap.  [j1] is [j + 1], so
    [j1 = 0] is [j = -1]; the entries read are below the current sentence
    and therefore present. *)
Fixpoint overlap_walk (sentence_positions : list SentInfo) (j1 : nat)
    (overlap_tokens : Z) (overlap_sentences : list string)
    : nat * Z * list string :=
  match j1 with
  | O => (O, overlap_tokens, overlap_sentences)
  | S j =>
      if (overlap_tokens <=? chunk_overlap)%Z
      then
        let overlap_sent := nth j sentence_positions no_sentence in
        if (overlap_tokens + si_tokens overlap_sent <=? chunk_overlap)%Z
        then overlap_walk sentence_positions j
               (overlap_tokens + si_tokens overlap_sent)
               (si_text overlap_sent :: overlap_sentences)
        else overlap_walk sentence_positions j overlap_tokens
               overlap_sentences
      else (j1, overlap_tokens, overlap_sentences)
  end.

(** The body of [if current_tokens + sent_tokens > self.chunk_size and
    current_chunk]: close the chunk and seed the next one. *)
Definition close_chunk (sentence_positions : list SentInfo) (text_length : Z)
    (i : nat) (sent_info : SentInfo) (st : Packing) : Packing :=
  let chunk_text := Py.join " " (current_chunk st) in
  let chunk_end_char := Z.min (si_start sent_info) text_length in
  let closed :=
    make_chunk chunk_text (next_index st) (current_tokens st)
               (current_start_char st) chunk_end_char in
  let '(j1, overlap_tokens, overlap_sentences) :=
    overlap_walk sentence_positions i 0 [] in
  mkPacking (chunks st ++ [closed]) overlap_sentences overlap_tokens
    (match j1 with
     | O => 0%Z
     | S _ => si_start (nth j1 sentence_positions no_sentence)
     end)
    (next_index st + 1).

(** [while i < len(sentence_positions)]; [rest] is
    [sentence_positions[i:]]. *)
Fixpoint pack_loop (sentence_positions : list SentInfo) (text_length : Z)
    (rest : list SentInfo) (i : nat) (st : Packing) : Packing :=
  match rest with
  | [] => st
  | sent_info :: rest' =>
      let sent_tokens := si_tokens sent_info in
      let st :=
        if (chunk_size <? current_tokens st + sent_tokens)%Z
           && Py.truthy (current_chunk st)
        then close_chunk sentence_positions text_length i sent_info st
        else st in
      pack_loop sentence_positions text_length rest' (S i)
        (mkPacking (chunks st) (current_chunk st ++ [si_text sent_info])
                   (current_tokens st + sent_tokens)
                   (current_start_char st) (next_index st))
  end.

(** The final chunk. *)
Definition flush (char_position text_length : Z) (st : Packing)
    : list ChunkData :=
  if Py.truthy (current_chunk st)
  then
    let chunk_text := Py.join " " (current_chunk st) in
    if (min_chunk_size <=? current_tokens st)%Z
       || (List.length (chunks st) =? 0)
    then
      let final_end_char := Z.min (char_position - 1) text_length in
      chunks st ++
        [make_chunk chunk_text (next_index st) (current_tokens st)
                    (current_start_char st) final_end_char]
    else chunks st
  else chunks st.

Definition create_chunks_with_overlap (sentences : list string)
    : list ChunkData :=
  let '(sentence_positions, char_position, text_length) :=
    positions_loop sentences 0 0 in
  flush char_position text_length
    (pack_loop sentence_positions text_length sentence_positions 0
       (mkPacking [] [] 0 0 0)).

(** [estimate_chunk_count]; [None] is the [ZeroDivisionError] of [//]. *)
Definition estimate_chunk_count (text : string) : option Z :=
  if Py.is_empty text then Some 0%Z
  else
    let total_tokens := Z.of_nat (count_tokens text) in
    let effective_chunk_size := (chunk_size - chunk_overlap)%Z in
    let effective_chunk_size :=
      if (effective_chunk_size <=? 0)%Z then chunk_size
      else effective_chunk_size in
    if (effective_chunk_size =? 0)%Z then None
    else
      Some (Z.max 1
              ((total_tokens + effective_chunk_size - 1)
               / effective_chunk_size)).

End TokenChunker.

(** A page handed to [chunk_by_pages]. *)
Record Page := mkPage {
  page_text : string;
  page_no : Z
}.

Section Documents.

Variable count_tokens : string -> nat.
Variables chunk_size chunk_overlap min_chunk_size : Z.

(** [split_by_sentences]: the split on the sentence-boundary regular
    expression with its two fallbacks, a parameter of this section (its
    definition follows the section). *)
Variable split_by_sentences : string -> list string.

Variable document_id : UUID.

(** [chunk_text]: empty or blank text gives no chunk. *)
Definition chunk_text (text : string) (page_number : option Z)
    (metadata : Metadata) : list ChunkData :=
  if Py.is_empty text || Py.is_empty (Py.strip text) then []
  else
    let metadata :=
      match page_number with
      | Some p => Py.dict_set metadata "page_number" (MInt p)
      | None => metadata
      end in
    create_chunks_with_overlap count_tokens chunk_size chunk_overlap
      min_chunk_size document_id metadata (split_by_sentences text).

(** The first loop of [chunk_by_pages]. *)
Fixpoint pages_loop (pages : list Page) (metadata : Metadata)
    : list ChunkData :=
  match pages with
  | [] => []
  | page :: rest =>
      if Py.is_empty (Py.strip (page_text page))
      then pages_loop rest metadata
      else
        let page_metadata :=
          Py.dict_set metadata "page_number" (MInt (page_no page)) in
        chunk_text (page_text page) (Some (page_no page)) page_metadata
        ++ pages_loop rest metadata
  end.

(** [for i, chunk in enumerate(all_chunks): chunk.chunk_index = i] *)
Fixpoint reindex (i : Z) (all_chunks : list ChunkData) : list ChunkData :=
  match all_chunks with
  | [] => []
  | c :: rest =>
      mkChunkData (cd_content c) i (token_count c) (start_char c)
        (end_char c) (cd_page_number c) (cd_metadata c)
      :: reindex (i + 1) rest
  end.

Definition chunk_by_pages (pages : list Page) (metadata : Metadata)
    : list ChunkData :=
  reindex 0 (pages_loop pages metadata).

End Documents.

(** *** [split_by_sentences] *)

(** One of [.], [?], [!]: the look-behind [(?<=\.|\?|\!)]. *)
Definition is_terminator (c : ascii) : bool :=
  Ascii.eqb c "." || Ascii.eqb c "?" || Ascii.eqb c "!".

(** The three look-behinds of the pattern at a position, given the
    characters before it, the nearest first: the previous character is a
    terminator, the previous four are not [\w\.\w.] and the previous
    three are not [[A-Z][a-z]\.]. *)
Definition lookbehind_ok (before : list ascii) : bool :=
  match before with
  | [] => false
  | c1 :: rest =>
      is_terminator c1
      && negb (match rest with
               | c2 :: c3 :: c4 :: _ =>
                   Py.isword c4 && Ascii.eqb c3 "." && Py.isword c2
                   && negb (Ascii.eqb c1 "010")
               | _ => false
               end)
      && negb (match rest with
               | c2 :: c3 :: _ =>
                   Py.isupper_az c3 && Py.islower_az c2 && Ascii.eqb c1 "."
               | _ => false
               end)
  end.

(** The length of the whitespace at the start of [s]. *)
Fixpoint space_run (s : string) : nat :=
  match s with
  | EmptyString => 0
  | String c s' => if Py.isspace c then S (space_run s') else 0
  end.

(** [\s+(?=[A-Z])] at the start of [s]: the whole whitespace run, when it
    is not empty and a capital letter follows it. *)
Definition boundary (before : list ascii) (s : string) : option nat :=
  if lookbehind_ok before
  then
    match space_run s, Py.lstrip s with
    | S n, String c _ => if Py.isupper_az c then Some (S n) else None
    | _, _ => None
    end
  else None.

(** [re.split(pattern, text)]: the scan from left to right; [before] holds
    the characters already passed, [skip] what is left of the boundary
    being passed, [cur] the piece being read. *)
Fixpoint re_split (s : string) (before : list ascii) (skip : nat)
    (cur : string) : list string :=
  match s with
  | EmptyString => [cur]
  | String c s' =>
      match skip with
      | S k => re_split s' (c :: before) k cur
      | O =>
          match boundary before s with
          | Some (S k) => cur :: re_split s' (c :: before) k EmptyString
          | _ => re_split s' (c :: before) 0 (Py.snoc cur c)
          end
      end
  end.

Definition split_by_sentences (text : string) : list string :=
  let sentences := Py.strip_nonblank (re_split text [] 0 EmptyString) in
  if negb (Py.truthy sentences)
  then
    let sentences := Py.strip_nonblank (Py.split_on "010" text) in
    if negb (Py.truthy sentences) then [text] else sentences
  else sentences.

End Chunking.

(** ** [app/services/retrieval/keyword_retriever.py] *)

Module KeywordRetriever.

Section Retrieve.

(** [BM25Okapi(corpus).get_scores(query_tokens)] of the [rank_bm25]
    package: one score per document of the corpus. *)
Variable get_scores : list (list string) -> list string -> list Q.

(** [self.db.query(Chunk).join(Document)] with the optional filter on
    [Document.upload_id]; [db] is the table of chunks. *)
Definition candidates (db : list Chunk) (upload : option UUID) : list Chunk :=
  match upload with
  | Some u => filter (fun c => String.eqb (upload_id (document c)) u) db
  | None => db
  end.

Definition corpus_of (chunks : list Chunk) : list (list string) :=
  map (fun c => Py.split (content c)) chunks.

(** [sorted(range(len(scores)), key=lambda i: scores[i], reverse=True)
    [:top_k]] *)
Definition top_indices (scores : list Q) (top_k : Z) : list nat :=
  Py.slice_to
    (Py.sorted_desc (fun i => nth i scores 0%Q) (seq 0 (List.length scores)))
    top_k.

(** The [for idx in top_indices] loop; [chunks[idx]] may raise. *)
Fixpoint results_loop (chunks : list Chunk) (scores : list Q)
    (indices : list nat) (results : list RetrievalResult)
    : option (list RetrievalResult) :=
  match indices with
  | [] => Some results
  | idx :: rest =>
      if negb (Qle_bool (nth idx scores 0%Q) 0)
      then
        match nth_error chunks idx with
        | None => None
        | Some c =>
            results_loop chunks scores rest
              (results ++ [mkResult c (nth idx scores 0%Q) "keyword"])
        end
      else results_loop chunks scores rest results
  end.

(** [retrieve]; [None] is a re-raised exception. *)
Definition retrieve (db : list Chunk) (query : string) (top_k : Z)
    (upload : option UUID) : option (list RetrievalResult) :=
  let chunks := candidates db upload in
  match chunks with
  | [] => Some []
  | _ :: _ =>
      let corpus := corpus_of chunks in
      let query_tokens := Py.split query in
      let scores := get_scores corpus query_tokens in
      results_loop chunks scores (top_indices scores top_k) []
  end.

End Retrieve.

End KeywordRetriever.

(** ** [app/services/retrieval/hybrid_retriever.py] *)

Module HybridRetriever.

Section Fusion.

(** [self.rrf_k], from the settings. *)
Variable rrf_k : Z.

(** [1.0 / (self.rrf_k + rank + 1)]; [None] is the [OverflowError] of
    an [int] too large to convert to [float], or [ZeroDivisionError]. *)
Definition rrf_score (rank : nat) : option Q :=
  let d := (rrf_k + Z.of_nat rank + 1)%Z in
  if (Py.float_overflow <=? Z.abs d)%Z then None
  else if (d =? 0)%Z then None
  else Some (1 / inject_Z d)%Q.

Definition Scores := list (string * Q).
Definition ChunkMap := list (string * RetrievalResult).

(** [for rank, result in enumerate(semantic_results)] *)
Fixpoint semantic_loop (results : list RetrievalResult) (rank : nat)
    (combined_scores : Scores) (chunk_map : ChunkMap)
    : option (Scores * ChunkMap) :=
  match results with
  | [] => Some (combined_scores, chunk_map)
  | result :: rest =>
      let chunk_id := id (chunk result) in
      match rrf_score rank with
      | None => None
      | Some score =>
          semantic_loop rest (S rank)
            (Py.dict_set combined_scores chunk_id score)
            (Py.dict_set chunk_map chunk_id result)
      end
  end.

(** [for rank, result in enumerate(keyword_results)] *)
Fixpoint keyword_loop (results : list RetrievalResult) (rank : nat)
    (combined_scores : Scores) (chunk_map : ChunkMap)
    : option (Scores * ChunkMap) :=
  match results with
  | [] => Some (combined_scores, chunk_map)
  | result :: rest =>
      let chunk_id := id (chunk result) in
      match rrf_score rank with
      | None => None
      | Some score =>
          match Py.dict_find combined_scores chunk_id with
          | Some old =>
              keyword_loop rest (S rank)
                (Py.dict_set combined_scores chunk_id (old + score)%Q)
                chunk_map
          | None =>
              keyword_loop rest (S rank)
                (Py.dict_set combined_scores chunk_id score)
                (Py.dict_set chunk_map chunk_id result)
          end
      end
  end.

(** [for chunk_id, score in sorted_ids]; [chunk_map[chunk_id]] may raise
    [KeyError]. *)
Fixpoint final_loop (chunk_map : ChunkMap) (sorted_ids : Scores)
    : option (list RetrievalResult) :=
  match sorted_ids with
  | [] => Some []
  | (chunk_id, score) :: rest =>
      match Py.dict_find chunk_map chunk_id with
      | None => None
      | Some result =>
          match final_loop chunk_map rest with
          | None => None
          | Some results => Some (mkResult (chunk result) score "hybrid" :: results)
          end
      end
  end.

Definition _reciprocal_rank_fusion
    (semantic_results keyword_results : list RetrievalResult)
    : option (list RetrievalResult) :=
  match semantic_loop semantic_results 0 [] [] with
  | None => None
  | Some (combined_scores, chunk_map) =>
      match keyword_loop keyword_results 0 combined_scores chunk_map with
      | None => None
      | Some (combined_scores, chunk_map) =>
          let sorted_ids := Py.sorted_desc snd combined_scores in
          final_loop chunk_map sorted_ids
      end
  end.

(** [retrieve], given the two retrievers it calls with [top_k * 2]. *)
Definition retrieve
    (semantic keyword : string -> Z -> option UUID
                        -> option (list RetrievalResult))
    (query : string) (top_k : Z) (upload : option UUID)
    : option (list RetrievalResult) :=
  let retrieval_k := (top_k * 2)%Z in
  match semantic query retrieval_k upload with
  | None => None
  | Some semantic_results =>
      match keyword query retrieval_k upload with
      | None => None
      | Some keyword_results =>
          match _reciprocal_rank_fusion semantic_results keyword_results with
          | None => None
          | Some fused_results => Some (Py.slice_to fused_results top_k)
          end
      end
  end.

End Fusion.

End HybridRetriever.

(** ** [app/utils/prompts.py] *)

Module Prompts.

Definition nl : string := String "010"%char EmptyString.
Definition dq : ascii := "034"%char.

(** [format_chunk_for_context]; the chunk is read through its [document],
    [page_number] and [content] attributes only. *)
Definition format_chunk_for_context (document : Document)
    (page_number : option Z) (content : string) (index : Z) : string :=
  "[Source " ++ Py.str_of_Z index ++ "]" ++ nl
  ++ "Document: " ++ filename document ++ nl
  ++ "Page: "
  ++ (match page_number with
      | Some p => if (p =? 0)%Z then "N/A" else Py.str_of_Z p
      | None => "N/A"
      end) ++ nl
  ++ "Content: " ++ content ++ nl
  ++ "---" ++ nl.

Definition SYSTEM_PROMPT_HEAD : string :=
  "You are a helpful AI assistant that answers questions based on provided document excerpts." ++ nl ++ nl
  ++ "INSTRUCTIONS:" ++ nl
  ++ "1. Answer ONLY based on the provided context" ++ nl
  ++ "2. If the context doesn't contain enough information, say "
  ++ String dq "I don't have enough information to answer this question based on the provided documents."
  ++ String dq nl
  ++ "3. Always cite your sources using [Source X] format where X is the source number" ++ nl
  ++ "4. Be concise but comprehensive" ++ nl
  ++ "5. If multiple sources support the same point, cite all relevant sources" ++ nl
  ++ "6. Do not make up information not present in the context" ++ nl
  ++ "7. Structure your answer clearly with proper formatting" ++ nl ++ nl
  ++ "CONTEXT:" ++ nl.

Definition format_system_prompt (query context : string) : string :=
  SYSTEM_PROMPT_HEAD ++ context ++ nl ++ nl
  ++ "USER QUESTION: " ++ query ++ nl ++ nl
  ++ "Please provide a well-structured answer with proper citations.".

End Prompts.

(** ** [app/services/rag/query_service.py] *)

Module QueryService.

(** [app/schemas/query.py] *)
Record QueryRequest := mkRequest {
  query : string;
  req_upload_id : option UUID;
  top_k : Z;
  mmr_lambda : Q;
  temperature : option Q
}.

Record ChunkUsed := mkChunkUsed {
  chunk_id : UUID;
  relevance_score : Q;
  retrieval_method : string
}.

Record QueryMetadata := mkMetadata {
  retrieval_time_ms : Z;
  generation_time_ms : Z;
  total_time_ms : Z;
  chunks_retrieved : Z;
  chunks_used : Z;
  md_llm_provider : string;
  md_model : string
}.

Record QueryResponse := mkResponse {
  resp_query_id : UUID;
  resp_query : string;
  answer : string;
  citations : list CitationResponse;
  used_chunks : list ChunkUsed;
  resp_metadata : QueryMetadata;
  created_at : Z
}.

(** A row of the [queries] table ([app/models/query.py]). *)
Record QueryRow := mkRow {
  row_id : UUID;
  query_text : string;
  row_upload_id : option UUID;
  row_top_k : Z;
  row_mmr_lambda : Q;
  row_response : string;
  row_chunks_used : list string;
  latency_ms : Z;
  row_llm_provider : string
}.

(** [LLMResponse] of [app/services/llm/base.py]. *)
Record LLMResponse := mkLLMResponse {
  text : string;
  tokens_used : Z;
  model : string
}.

(** The settings read by the service. *)
Record Settings := mkSettings {
  llm_provider : string;
  rag_temperature : Q;
  rag_max_context_tokens : Z;
  rag_mmr_lambda : Q
}.

(** What one call reads from [uuid4], [time.time] and [datetime.utcnow]. *)
Record Clock := mkClock {
  clk_query_id : UUID;
  clk_retrieval_time : Z;
  clk_generation_time : Z;
  clk_total_time : Z;
  clk_created_at : Z
}.

(** The collaborators held by a [QueryService] instance.  [None] results
    are raised exceptions; [db_ok] tells whether the session commits. *)
Record Service := mkService {
  retriever : string -> Z -> option UUID -> option (list RetrievalResult);
  llm_generate : string -> Q -> option LLMResponse;
  llm_model_name : string;
  mmr_selector : Q;
  db_ok : bool
}.

(** [__init__] builds the selector from the settings. *)
Definition init (settings : Settings)
    (retriever : string -> Z -> option UUID -> option (list RetrievalResult))
    (llm_generate : string -> Q -> option LLMResponse)
    (llm_model_name : string) (db_ok : bool) : Service :=
  mkService retriever llm_generate llm_model_name (rag_mmr_lambda settings)
            db_ok.

(** The observable state: the calls made to the answer generator and the
    committed rows of the query log. *)
Record World := mkWorld {
  generate_calls : list (string * Q);
  queries : list QueryRow
}.

Section Process.

Variable settings : Settings.
Variable self : Service.

(** The [for i, result in enumerate(chunks)] loop of [_prepare_context]. *)
Fixpoint context_loop (max_tokens : Z) (chunks : list RetrievalResult)
    (i : nat) (context_parts : list string) (total_tokens : Z)
    : list string :=
  match chunks with
  | [] => context_parts
  | result :: rest =>
      let c := chunk result in
      let chunk_text :=
        Prompts.format_chunk_for_context (document c) (page_number c)
          (content c) (Z.of_nat i + 1) in
      let chunk_tokens := TextUtils.estimate_tokens chunk_text in
      if (max_tokens <? total_tokens + chunk_tokens)%Z
      then
        let remaining_tokens := (max_tokens - total_tokens)%Z in
        if (100 <? remaining_tokens)%Z
        then
          let truncated_content :=
            TextUtils.truncate_text (content c) remaining_tokens in
          context_parts ++
            [Prompts.format_chunk_for_context (document c) (page_number c)
               truncated_content (Z.of_nat i + 1)]
        else context_parts
      else
        context_loop max_tokens rest (S i) (context_parts ++ [chunk_text])
                     (total_tokens + chunk_tokens)
  end.

Definition _prepare_context (chunks : list RetrievalResult) : string :=
  Py.join Prompts.nl
    (context_loop (rag_max_context_tokens settings) chunks 0 [] 0).

Definition no_information : string :=
  "I don't have enough information to answer this question based on the provided documents.".

Definition _create_no_results_response (query_id : UUID)
    (request : QueryRequest) (retrieval_time created : Z) : QueryResponse :=
  mkResponse query_id (query request) no_information [] []
    (mkMetadata retrieval_time 0 retrieval_time 0 0
       (llm_provider settings) (llm_model_name self))
    created.

(** [_log_query]: a failure is logged and rolled back, never raised. *)
Definition _log_query (query_id : UUID) (request : QueryRequest)
    (response : QueryResponse) (latency : Z) (w : World) : World :=
  let query_log :=
    mkRow query_id (query request) (req_upload_id request) (top_k request)
      (mmr_lambda request) (answer response)
      (map chunk_id (used_chunks response)) latency
      (llm_provider settings) in
  if db_ok self
  then mkWorld (generate_calls w) (queries w ++ [query_log])
  else w.

Definition process_query (clock : Clock) (request : QueryRequest)
    (w : World) : run QueryResponse * World :=
  let query_id := clk_query_id clock in
  (* Step 1: retrieval *)
  match retriever self (query request) (top_k request)
          (req_upload_id request) with
  | None => (Raised, w)
  | Some retrieved_chunks =>
      let retrieval_time := clk_retrieval_time clock in
      if negb (Py.truthy retrieved_chunks)
      then
        (Returned (_create_no_results_response query_id request
                     retrieval_time (clk_created_at clock)), w)
      else
        (* Step 2: the first [top_k] results *)
        let selected_chunks := Py.slice_to retrieved_chunks (top_k request) in
        (* Step 3: context *)
        let context := _prepare_context selected_chunks in
        (* Step 4: answer *)
        let prompt := Prompts.format_system_prompt (query request) context in
        let temperature :=
          match temperature request with
          | Some t => t
          | None => rag_temperature settings
          end in
        let w := mkWorld (generate_calls w ++ [(prompt, temperature)])
                         (queries w) in
        match llm_generate self prompt temperature with
        | None => (Raised, w)
        | Some llm_answer =>
            let generation_time := clk_generation_time clock in
            (* Step 5: citations *)
            let citations :=
              CitationManager.extract_citations (text llm_answer)
                selected_chunks in
            (* Step 6: response *)
            let total_time := clk_total_time clock in
            let response :=
              mkResponse query_id (query request) (text llm_answer) citations
                (map (fun result =>
                        mkChunkUsed (id (chunk result)) (score result)
                                    (method result))
                     selected_chunks)
                (mkMetadata retrieval_time generation_time total_time
                   (Z.of_nat (List.length retrieved_chunks))
                   (Z.of_nat (List.length selected_chunks))
                   (llm_provider settings) (llm_model_name self))
                (clk_created_at clock) in
            (* Step 7: query log *)
            let w := _log_query query_id request response total_time w in
            (Returned response, w)
        end
  end.

End Process.

End QueryService.

(** ** Worked inputs *)

Module Examples.

Definition doc_a : Document := mkDocument "u1" "a.pdf".

Definition hit (cid : string) (s : Q) (body : string) : RetrievalResult :=
  mkResult (mkChunk cid "d1" doc_a (Some 1%Z) body) s "hybrid".

Definition hit_07 := hit "c1" (7 # 10) "Cats purr.".
Definition hit_09 := hit "c2" (9 # 10) "Dogs bark loudly.".
Definition hit_08 := hit "c3" (8 # 10) "Birds sing.".

(** A tokenizer for the worked examples: one token per word. *)
Definition word_tokens (text : string) : nat := List.length (Py.split text).

Definition long_text : string := Py.join " " (repeat "word" 100).
Definition long_hit := hit "c4" (6 # 10) long_text.

(** ["1" * n] *)
Definition ones (n : nat) : string :=
  String.concat EmptyString (repeat "1"%string n).

(** A scorer for the worked examples: the number of query tokens that
    occur in the document. *)
Definition overlap_scores (corpus : list (list string))
    (query_tokens : list string) : list Q :=
  map (fun doc =>
         inject_Z (Z.of_nat (List.length
           (filter (fun t => existsb (String.eqb t) doc) query_tokens))))
      corpus.

End Examples.

(** * Vocabulary of the properties *)

Module ChunkingSpec.

Import Chunking.

(** The chunk being filled and every closed chunk start at offset 0. *)
Definition starts_at_zero (st : Packing) : Prop :=
  current_start_char st = 0%Z
  /\ Forall (fun c => start_char c = 0%Z) (chunks st).

(** Sum of the token counts of a run of sentences. *)
Definition tokens_of (count_tokens : string -> nat) (l : list string) : Z :=
  fold_right Z.add 0%Z (map (fun s => Z.of_nat (count_tokens s)) l).

(** The same sum over entries of [sentence_positions]. *)
Definition info_tokens (l : list SentInfo) : Z :=
  fold_right Z.add 0%Z (map si_tokens l).

(** What the packing loop has done with the sentences consumed so far:
    [groups] are the closed chunks and [cur] is the chunk being filled. *)
Definition packed (done : list SentInfo) (st : Packing) : Prop :=
  exists (groups : list (list SentInfo)) (cur : list SentInfo),
    done = List.concat groups ++ cur
    /\ Forall (fun g => g <> []) groups
    /\ map cd_content (chunks st)
       = map (fun g => Py.join " " (map si_text g)) groups
    /\ current_chunk st = map si_text cur
    /\ current_tokens st = info_tokens cur.

End ChunkingSpec.

Module HybridSpec.

Import HybridRetriever.

(** The identifier under which a hit is fused. *)
Definition cid (r : RetrievalResult) : string := id (chunk r).

(** The rank of a segment in a list of hits, starting at 0. *)
Fixpoint rank_of (c : string) (l : list RetrievalResult) : option nat :=
  match l with
  | [] => None
  | r :: l' =>
      if String.eqb (cid r) c then Some 0 else option_map S (rank_of c l')
  end.

(** [1 / (rrfK + rank + 1)] for a list that contains the segment, nothing
    for a list that does not. *)
Definition contribution (rrf_k : Z) (c : string) (l : list RetrievalResult)
    : Q :=
  match rank_of c l with
  | Some rank => 1 / inject_Z (rrf_k + Z.of_nat rank + 1)
  | None => 0
  end.

(** [1 / (rrf_k + n + 1)] *)
Definition score_at (rrf_k : Z) (n : nat) : Q :=
  1 / inject_Z (rrf_k + Z.of_nat n + 1).

(** What the two dictionaries guarantee to the final loop. *)
Definition well_keyed (cs : Scores) (cm : ChunkMap) : Prop :=
  NoDup (map fst cs)
  /\ (forall c res, Py.dict_find cm c = Some res -> cid res = c)
  /\ (forall c, Py.dict_find cs c <> None -> Py.dict_find cm c <> None).

End HybridSpec.

Module QuerySpec.

Import QueryService.

(** A query-log row with its [mmr_lambda] column blanked. *)
Definition forget_lambda (row : QueryRow) : QueryRow :=
  mkRow (row_id row) (query_text row) (row_upload_id row) (row_top_k row) 0
        (row_response row) (row_chunks_used row) (latency_ms row)
        (row_llm_provider row).

(** The [ChunkUsed] entry built for a selected hit. *)
Definition to_used (result : RetrievalResult) : ChunkUsed :=
  mkChunkUsed (id (chunk result)) (score result) (method result).

End QuerySpec.

Module ContextSpec.

Import QueryService.

(** The formatted block of the hit at position [i] (source number
    [i + 1]). *)
Definition whole_block (i : nat) (result : RetrievalResult) : string :=
  let c := chunk result in
  Prompts.format_chunk_for_context (document c) (page_number c) (content c)
    (Z.of_nat i + 1).

(** The same block with its content truncated to [remaining] tokens. *)
Definition truncated_block (i : nat) (result : RetrievalResult)
    (remaining : Z) : string :=
  let c := chunk result in
  Prompts.format_chunk_for_context (document c) (page_number c)
    (TextUtils.truncate_text (content c) remaining) (Z.of_nat i + 1).

(** The whole blocks of consecutive hits, the first at position [i]. *)
Fixpoint whole_blocks (i : nat) (chunks : list RetrievalResult)
    : list string :=
  match chunks with
  | [] => []
  | result :: rest => whole_block i result :: whole_blocks (S i) rest
  end.

(** The running total kept by the loop for a list of blocks. *)
Definition tokens_sum (blocks : list string) : Z :=
  fold_right (fun b acc => (TextUtils.estimate_tokens b + acc)%Z) 0%Z blocks.

(** What the loop appends after the whole blocks when [next] overflows. *)
Definition overflow_tail (i : nat) (next : RetrievalResult) (remaining : Z)
    : list string :=
  if (100 <? remaining)%Z then [truncated_block i next remaining] else [].

End ContextSpec.

Module StringSpec.

(** Total length of the pieces of a list of strings. *)
Definition total_length (l : list string) : nat :=
  fold_right (fun s acc => String.length s + acc) 0 l.

(** No character of [s] is whitespace. *)
Fixpoint nospace (s : string) : bool :=
  match s with
  | EmptyString => true
  | String c s' => negb (Py.isspace c) && nospace s'
  end.

(** A word: what [str.split()] returns, a non-empty run of characters
    that are not whitespace. *)
Definition word (w : string) : Prop :=
  w <> EmptyString /\ nospace w = true.

(** Every character of [s] satisfies [p]. *)
Fixpoint all_chars (p : ascii -> bool) (s : string) : bool :=
  match s with
  | EmptyString => true
  | String c s' => p c && all_chars p s'
  end.

End StringSpec.

Module ListSpec.

(** [l1] is [l2] with some elements left out, the order kept. *)
Inductive subseq {A : Type} : list A -> list A -> Prop :=
| subseq_nil : subseq [] []
| subseq_take x l1 l2 : subseq l1 l2 -> subseq (x :: l1) (x :: l2)
| subseq_skip x l1 l2 : subseq l1 l2 -> subseq l1 (x :: l2).

End ListSpec.

Module CitationSpec.

Import CitationManager.

(** The citation of the hit that marker number [n] designates, if it
    designates one: the hit at position [n - 1]. *)
Definition resolve (answer_text : string)
    (chunks_used : list RetrievalResult) (n : Z) : list CitationResponse :=
  if (1 <=? n)%Z
  then match nth_error chunks_used (Z.to_nat (n - 1)) with
       | Some result => [make_citation answer_text result]
       | None => []
       end
  else [].

(** The label that the context gives to the hit at position [i]. *)
Definition source_label (i : nat) : string :=
  "[Source " ++ Py.str_of_Z (Z.of_nat i + 1) ++ "]".

End CitationSpec.

Module ChunkingMoreSpec.

Import Chunking.

(** The closed chunks are numbered from 0 and [next_index] is their
    number. *)
Definition numbered (st : Packing) : Prop :=
  next_index st = Z.of_nat (List.length (chunks st))
  /\ map chunk_index (chunks st)
     = map Z.of_nat (seq 0 (List.length (chunks st))).

End ChunkingMoreSpec.

Module SentenceSpec.

(** The characters of [s] that are not whitespace, in order. *)
Definition squeeze (s : string) : string :=
  Py.filter_chars (fun c => negb (Py.isspace c)) s.

(** A text without any character other than whitespace. *)
Definition blank (s : string) : Prop := Py.is_empty (Py.strip s) = true.

End SentenceSpec.

Module RankingSpec.

(** A list of scores in which no score is followed, at any distance, by a
    greater one. *)
Definition descending (scores : list Q) : Prop :=
  Sorted.StronglySorted (fun a b => (b <= a)%Q) scores.

End RankingSpec.

(** * Properties *)

(** ** Citation resolution *)

Module CitationProps.

Import CitationManager.

Lemma index_minus_one {A : Type} (l : list A) (x : A) :
  Py.index (l ++ [x]) (-1) = Some x.
Proof.
  unfold Py.index. rewrite length_app. cbn [List.length].
  replace (0 <=? -1)%Z with false by reflexivity. cbn [andb].
  destruct (Z.leb_spec (- Z.of_nat (List.length l + 1)) (-1)); [|lia].
  cbn [andb Z.ltb Z.compare].
  replace (Z.to_nat (Z.of_nat (List.length l + 1) + -1)) with (List.length l)
    by lia.
  rewrite nth_error_app2 by lia. now rewrite Nat.sub_diag.
Qed.

(** C1 (the code at the failing input): the marker [[Source 0]] passes the
    only bound check of [extract_citations] ([-1 < len(chunks_used)]) and
    is resolved, by negative indexing, to the last context hit. *)
Theorem source_zero_cites_last_hit :
  forall (before : list RetrievalResult) (last : RetrievalResult),
    extract_citations "See [Source 0]." (before ++ [last])
    = [make_citation "See [Source 0]." last].
Proof.
  intros before last. unfold extract_citations, extract_citations_try.
  replace (TextUtils.extract_citations_from_text "See [Source 0].")
    with (Some [0%Z]) by (vm_compute; reflexivity).
  cbn [Py.sorted_set fold_right Py.insert_uniq citations_loop].
  replace (0 - 1)%Z with (-1)%Z by reflexivity.
  rewrite index_minus_one.
  destruct (Z.ltb_spec (-1) (Z.of_nat (List.length (before ++ [last]))));
    [reflexivity | lia].
Qed.

(** Markers above the number of hits are dropped without error. *)
Lemma markers_above_range_dropped answer_text chunks_used nums :
  Forall (fun n => (Z.of_nat (List.length chunks_used) < n)%Z) nums ->
  forall formatted_citations,
    citations_loop answer_text chunks_used nums formatted_citations
    = Some formatted_citations.
Proof.
  induction 1 as [|n nums Hn _ IH]; intros acc; cbn [citations_loop].
  - reflexivity.
  - destruct (Z.ltb_spec (n - 1) (Z.of_nat (List.length chunks_used)));
      [lia | apply IH].
Qed.

Example marker_two_of_one_hit_dropped :
  extract_citations "A [Source 2] and [Source 1]." [Examples.hit_09]
  = [make_citation "A [Source 2] and [Source 1]." Examples.hit_09].
Proof. vm_compute. reflexivity. Qed.

End CitationProps.

(** ** Diversity selection *)

Module MMRProps.

Import MMRSelector.

Section Skipped.

Variable cosine_similarity : list Q -> list Q -> option Q.
Variable lambda_param : Q.

(** No candidate has an embedding, so a round after the first one selects
    nothing. *)
Lemma candidates_loop_keeps selected rest i best_score best_result :
  candidates_loop cosine_similarity lambda_param selected rest i
    best_score best_result = Some best_result.
Proof.
  revert i. induction rest as [|r rest IH]; intros i; cbn; auto.
Qed.

Lemma select_loop_after_first fuel top_k first others remaining :
  select_loop cosine_similarity lambda_param (S fuel) top_k
    (first :: others) remaining
  = Returned (first :: others).
Proof.
  cbn [select_loop].
  destruct ((Z.of_nat (List.length (first :: others)) <? top_k)%Z
            && Py.truthy remaining); [|reflexivity].
  cbn [Py.truthy negb]. now rewrite candidates_loop_keeps.
Qed.

Lemma argmax_score_in_range l :
  forall i best best_s,
    best < i -> argmax_score l i best best_s < i + List.length l.
Proof.
  induction l as [|r l IH]; intros i best best_s Hlt; cbn.
  - lia.
  - destruct (Qle_bool (score r) best_s).
    + specialize (IH (S i) best best_s). lia.
    + specialize (IH (S i) i (score r)). lia.
Qed.

Lemma max_by_score_in_range r rest :
  max_by_score (r :: rest) < List.length (r :: rest).
Proof.
  unfold max_by_score.
  pose proof (argmax_score_in_range rest 1 0 (score r)). cbn. lia.
Qed.

(** Whenever there are more hits than [top_k], [select] returns: the hit
    of highest score alone if [top_k] is positive, nothing otherwise. *)
Lemma select_loop_first fuel top_k r rest :
  (0 < top_k)%Z ->
  select_loop cosine_similarity lambda_param (S (S fuel)) top_k []
    (r :: rest)
  = Returned
      match nth_error (r :: rest) (max_by_score (r :: rest)) with
      | Some best_result => [best_result]
      | None => []
      end.
Proof.
  intros Hpos.
  destruct (nth_error (r :: rest) (max_by_score (r :: rest)))
    as [best_result|] eqn:Hbest.
  - rewrite <- (select_loop_after_first fuel top_k best_result []
                  (remove_at (max_by_score (r :: rest)) (r :: rest))).
    change (select_loop cosine_similarity lambda_param (S (S fuel)) top_k []
              (r :: rest))
      with (if (Z.of_nat (List.length (@nil RetrievalResult)) <? top_k)%Z
               && Py.truthy (r :: rest)
            then
              match nth_error (r :: rest) (max_by_score (r :: rest)) with
              | None => Raised
              | Some b =>
                  select_loop cosine_similarity lambda_param (S fuel) top_k
                    ([] ++ [b])
                    (remove_at (max_by_score (r :: rest)) (r :: rest))
              end
            else Returned []).
    rewrite Hbest. cbn [List.length Z.of_nat Py.truthy app].
    destruct (Z.ltb_spec 0 top_k); [reflexivity | lia].
  - apply nth_error_None in Hbest.
    pose proof (max_by_score_in_range r rest). lia.
Qed.

(** Whenever there are more hits than [top_k], [select] returns: the hit
    of highest score alone if [top_k] is positive, nothing otherwise. *)
Lemma select_more_hits_than_top_k results top_k :
  (top_k < Z.of_nat (List.length results))%Z ->
  select cosine_similarity lambda_param results top_k
  = Returned
      (if (0 <? top_k)%Z
       then match nth_error results (max_by_score results) with
            | Some best_result => [best_result]
            | None => []
            end
       else []).
Proof.
  intros Hmore. unfold select. destruct results as [|r rest].
  - cbn in Hmore |- *. destruct (Z.ltb_spec 0 top_k); [lia | reflexivity].
  - cbn [Py.truthy negb].
    destruct (Z.leb_spec (Z.of_nat (List.length (r :: rest))) top_k); [lia|].
    cbn [List.length].
    destruct (Z.ltb_spec 0 top_k) as [Hpos|Hnonpos].
    + now rewrite select_loop_first.
    + change (select_loop cosine_similarity lambda_param
                (S (S (List.length rest))) top_k [] (r :: rest))
        with (if (Z.of_nat (List.length (@nil RetrievalResult)) <? top_k)%Z
                 && Py.truthy (r :: rest)
              then
                match nth_error (r :: rest) (max_by_score (r :: rest)) with
                | None => Raised
                | Some b =>
                    select_loop cosine_similarity lambda_param
                      (S (List.length rest)) top_k ([] ++ [b])
                      (remove_at (max_by_score (r :: rest)) (r :: rest))
                end
              else Returned []).
      cbn [List.length Z.of_nat].
      destruct (Z.ltb_spec 0 top_k); [lia | reflexivity].
Qed.

End Skipped.

(** C2 (the code at the failing input): with [lambda = 1.0], three hits
    and [top_k = 2], [select] returns the best hit alone, not the two best
    in relevance order. *)
Theorem select_lambda_one_returns_single_hit :
  forall cosine_similarity : list Q -> list Q -> option Q,
    select cosine_similarity 1
      [Examples.hit_07; Examples.hit_09; Examples.hit_08] 2
    = Returned [Examples.hit_09].
Proof. intros cosine_similarity. reflexivity. Qed.

End MMRProps.

(** ** Chunking *)

Module ChunkingProps.

Import Chunking ChunkingSpec.

Section Offsets.

Variable count_tokens : string -> nat.
Variables chunk_size chunk_overlap min_chunk_size : Z.
Variable document_id : UUID.
Variable metadata : Metadata.

Hypothesis overlap_nonneg : (0 <= chunk_overlap)%Z.

(** The guard [overlap_tokens <= self.chunk_overlap] of the backward walk
    never fails, so the walk always ends at [j = -1]. *)
Lemma overlap_walk_reaches_start sps j1 overlap_tokens overlap_sentences :
  (overlap_tokens <= chunk_overlap)%Z ->
  fst (fst (overlap_walk chunk_overlap sps j1 overlap_tokens
              overlap_sentences)) = 0.
Proof.
  revert overlap_tokens overlap_sentences.
  induction j1 as [|j IH]; intros ot os Hle; cbn [overlap_walk]; auto.
  destruct (Z.leb_spec ot chunk_overlap); [|lia].
  destruct (Z.leb_spec (ot + si_tokens (nth j sps no_sentence)) chunk_overlap);
    apply IH; lia.
Qed.

Lemma close_chunk_starts_at_zero sps text_length i sent_info st :
  starts_at_zero st ->
  starts_at_zero
    (close_chunk chunk_size chunk_overlap document_id metadata sps
       text_length i sent_info st).
Proof.
  intros [Hcur Hall]. unfold close_chunk.
  pose proof (overlap_walk_reaches_start sps i 0 [] overlap_nonneg) as Hj.
  destruct (overlap_walk chunk_overlap sps i 0 []) as [[j1 ot] os].
  cbn in Hj. subst j1. split; cbn.
  - reflexivity.
  - apply Forall_app. split; [assumption|]. constructor; [|constructor].
    cbn. assumption.
Qed.

Lemma pack_loop_starts_at_zero sps text_length rest :
  forall i st,
    starts_at_zero st ->
    starts_at_zero
      (pack_loop chunk_size chunk_overlap document_id metadata sps
         text_length rest i st).
Proof.
  induction rest as [|sent_info rest IH]; intros i st Hst; cbn [pack_loop].
  - assumption.
  - apply IH.
    destruct ((chunk_size <? current_tokens st + si_tokens sent_info)%Z
              && Py.truthy (current_chunk st)).
    + destruct (close_chunk_starts_at_zero sps text_length i sent_info st Hst)
        as [Hc Ha].
      split; cbn; assumption.
    + destruct Hst as [Hc Ha]. split; cbn; assumption.
Qed.

Lemma flush_starts_at_zero char_position text_length st :
  starts_at_zero st ->
  Forall (fun c => start_char c = 0%Z)
    (flush chunk_size min_chunk_size document_id metadata char_position
       text_length st).
Proof.
  intros [Hc Ha]. unfold flush.
  destruct (Py.truthy (current_chunk st)); [|assumption].
  destruct ((min_chunk_size <=? current_tokens st)%Z
            || (List.length (chunks st) =? 0)); [|assumption].
  apply Forall_app. split; [assumption|].
  constructor; [cbn; assumption | constructor].
Qed.

(** Every chunk is given the start offset 0. *)
Lemma every_start_char_zero sentences :
  Forall (fun c => start_char c = 0%Z)
    (create_chunks_with_overlap count_tokens chunk_size chunk_overlap
       min_chunk_size document_id metadata sentences).
Proof.
  unfold create_chunks_with_overlap.
  destruct (positions_loop count_tokens sentences 0 0) as [[sps cp] tl].
  apply flush_starts_at_zero, pack_loop_starts_at_zero.
  split; cbn; [reflexivity | constructor].
Qed.

End Offsets.

(** C4: with [chunk_overlap = 0] the start offsets of consecutive chunks
    never decrease. *)
Theorem start_char_nondecreasing_without_overlap :
  forall (count_tokens : string -> nat) (chunk_size min_chunk_size : Z)
         (document_id : UUID) (metadata : Metadata)
         (sentences : list string) (i : nat) (s_i s_next : ChunkData),
    let chunks :=
      create_chunks_with_overlap count_tokens chunk_size 0 min_chunk_size
        document_id metadata sentences in
    nth_error chunks i = Some s_i ->
    nth_error chunks (S i) = Some s_next ->
    (start_char s_i <= start_char s_next)%Z.
Proof.
  intros count_tokens chunk_size min_chunk_size document_id metadata
    sentences i s_i s_next chunks Hi Hnext.
  pose proof (every_start_char_zero count_tokens chunk_size 0 min_chunk_size
                document_id metadata (Z.le_refl 0) sentences) as Hall.
  fold chunks in Hall. rewrite Forall_forall in Hall.
  rewrite (Hall s_i (nth_error_In _ _ Hi)).
  rewrite (Hall s_next (nth_error_In _ _ Hnext)). lia.
Qed.

Lemma start_char_nondecreasing_without_overlap_witness :
  let chunks :=
    create_chunks_with_overlap Examples.word_tokens 2 0 1 "doc" []
      ["One"; "Two"; "Ten"; "Four"; "Five"] in
  exists s_i s_next,
    nth_error chunks 1 = Some s_i /\ nth_error chunks 2 = Some s_next
    /\ cd_content s_i = "Ten Four" /\ cd_content s_next = "Five"
    /\ (start_char s_i <= start_char s_next)%Z.
Proof.
  eexists. eexists.
  split; [vm_compute; reflexivity|]. split; [vm_compute; reflexivity|].
  split; [vm_compute; reflexivity|]. split; [vm_compute; reflexivity|].
  apply (start_char_nondecreasing_without_overlap Examples.word_tokens 2 1 "doc" []
           ["One"; "Two"; "Ten"; "Four"; "Five"] 1);
    vm_compute; reflexivity.
Defined.

(** *** Coverage without overlap *)

Lemma string_app_assoc (a b c : string) :
  ((a ++ b) ++ c = a ++ (b ++ c))%string.
Proof. induction a as [|x a IH]; cbn; [reflexivity | now rewrite IH]. Qed.

Lemma join_app sep (l1 l2 : list string) :
  l1 <> [] -> l2 <> [] ->
  Py.join sep (l1 ++ l2)
  = (Py.join sep l1 ++ sep ++ Py.join sep l2)%string.
Proof.
  unfold Py.join. intros H1 H2.
  induction l1 as [|x [|y l1] IH]; [congruence | |].
  - destruct l2; [congruence | reflexivity].
  - change (String.concat sep ((x :: y :: l1) ++ l2))
      with (x ++ sep ++ String.concat sep ((y :: l1) ++ l2))%string.
    rewrite IH by discriminate.
    change (String.concat sep (x :: y :: l1))
      with (x ++ sep ++ String.concat sep (y :: l1))%string.
    now rewrite !string_app_assoc.
Qed.

(** Joining the joined groups is joining all their members. *)
Lemma join_groups sep (groups : list (list string)) :
  Forall (fun g => g <> []) groups ->
  Py.join sep (map (Py.join sep) groups) = Py.join sep (List.concat groups).
Proof.
  induction 1 as [|g groups Hg Hall IH]; [reflexivity|].
  destruct groups as [|g' groups].
  - cbn. now rewrite app_nil_r.
  - cbn [map List.concat].
    change (Py.join sep (Py.join sep g :: Py.join sep g' :: map (Py.join sep) groups))
      with (Py.join sep g ++ sep
            ++ Py.join sep (map (Py.join sep) (g' :: groups)))%string.
    rewrite IH. symmetry. apply join_app; [assumption|].
    inversion Hall as [|? ? Hg' _]; subst. cbn.
    destruct g'; [congruence | discriminate].
Qed.

Lemma app_eq_same_length {A : Type} (l1 l1' l2 l2' : list A) :
  List.length l1 = List.length l1' ->
  l1 ++ l2 = l1' ++ l2' -> l1 = l1' /\ l2 = l2'.
Proof.
  revert l1'. induction l1 as [|x l1 IH]; intros [|y l1'] Hlen Heq;
    cbn in *; try discriminate; [auto|].
  injection Heq as -> Heq. destruct (IH l1') as [-> ->]; auto.
Qed.

Section Coverage.

Variable count_tokens : string -> nat.
Variables chunk_size min_chunk_size : Z.
Variable document_id : UUID.
Variable metadata : Metadata.

Lemma info_tokens_app l1 l2 :
  info_tokens (l1 ++ l2) = (info_tokens l1 + info_tokens l2)%Z.
Proof.
  unfold info_tokens. induction l1 as [|x l1 IH]; cbn; [reflexivity|].
  cbn in IH. rewrite IH. lia.
Qed.

Lemma positions_loop_fields sentences :
  forall cp tl,
    let sps := fst (fst (positions_loop count_tokens sentences cp tl)) in
    map si_text sps = sentences
    /\ map si_tokens sps = map (fun s => Z.of_nat (count_tokens s)) sentences.
Proof.
  induction sentences as [|s rest IH]; intros cp tl; cbn; [auto|].
  specialize (IH (cp + Z.of_nat (String.length s) + 1)%Z
                 (cp + Z.of_nat (String.length s) + 1 - 1)%Z).
  destruct (positions_loop count_tokens rest
              (cp + Z.of_nat (String.length s) + 1)
              (cp + Z.of_nat (String.length s) + 1 - 1)) as [[infos c] t].
  cbn in *. destruct IH as [IH1 IH2]. now rewrite IH1, IH2.
Qed.

(** With no overlap allowed and no empty sentence, nothing is seeded. *)
Lemma overlap_walk_seeds_nothing sps j1 :
  j1 <= List.length sps ->
  Forall (fun s => (1 <= si_tokens s)%Z) sps ->
  overlap_walk 0 sps j1 0 [] = (0, 0%Z, []).
Proof.
  intros Hj Hpos. induction j1 as [|j IH]; [reflexivity|].
  cbn [overlap_walk]. cbn [Z.leb Z.compare].
  assert (Hin : In (nth j sps no_sentence) sps) by (apply nth_In; lia).
  rewrite Forall_forall in Hpos. specialize (Hpos _ Hin).
  destruct (Z.leb_spec (0 + si_tokens (nth j sps no_sentence)) 0); [lia|].
  apply IH. lia.
Qed.

Lemma pack_loop_packed sps text_length :
  Forall (fun s => (1 <= si_tokens s)%Z) sps ->
  forall rest done st,
    sps = done ++ rest ->
    packed done st ->
    packed sps
      (pack_loop chunk_size 0 document_id metadata sps text_length rest
         (List.length done) st).
Proof.
  intros Hpos. induction rest as [|sent_info rest IH]; intros done st Hsps Hst.
  - rewrite app_nil_r in Hsps. subst done. exact Hst.
  - cbn [pack_loop].
    replace (S (List.length done)) with (List.length (done ++ [sent_info]))
      by (rewrite length_app; cbn; lia).
    apply IH; [now rewrite <- app_assoc|].
    destruct Hst as (groups & cur & Hdone & Hne & Hcont & Hcur & Htok).
    destruct ((chunk_size <? current_tokens st + si_tokens sent_info)%Z
              && Py.truthy (current_chunk st)) eqn:Hclose.
    + apply andb_prop in Hclose. destruct Hclose as [_ Htruthy].
      unfold close_chunk.
      rewrite overlap_walk_seeds_nothing;
        [| subst sps; rewrite length_app; lia | assumption].
      exists (groups ++ [cur]), [sent_info]. cbn.
      repeat split.
      * rewrite concat_app. cbn. rewrite app_nil_r, Hdone.
        now rewrite <- app_assoc.
      * apply Forall_app. split; [assumption|].
        constructor; [|constructor].
        intros ->. rewrite Hcur in Htruthy. discriminate.
      * rewrite !map_app, Hcont, Hcur. reflexivity.
      * unfold info_tokens. cbn. lia.
    + exists groups, (cur ++ [sent_info]). cbn.
      repeat split.
      * rewrite Hdone. now rewrite <- app_assoc.
      * assumption.
      * assumption.
      * now rewrite Hcur, map_app.
      * rewrite Htok, info_tokens_app. unfold info_tokens. cbn. lia.
Qed.

End Coverage.

(** X29: with [chunk_overlap = 0] and no sentence of zero tokens, the
    chunk contents joined in index order are the sentences joined, except
    possibly for a final run of sentences, which is left out only when
    other chunks exist and its token count is below [min_chunk_size]. *)
Theorem contents_cover_all_but_a_short_tail :
  forall (count_tokens : string -> nat) (chunk_size min_chunk_size : Z)
         (document_id : UUID) (metadata : Metadata)
         (sentences : list string),
    Forall (fun s => 1 <= count_tokens s) sentences ->
    let chunks :=
      create_chunks_with_overlap count_tokens chunk_size 0 min_chunk_size
        document_id metadata sentences in
    exists kept dropped : list string,
      sentences = kept ++ dropped
      /\ Py.join " " (map cd_content chunks) = Py.join " " kept
      /\ (dropped = []
          \/ (chunks <> []
              /\ (tokens_of count_tokens dropped < min_chunk_size)%Z)).
Proof.
  intros count_tokens chunk_size min_chunk_size document_id metadata
    sentences Hpos chunks. subst chunks. unfold create_chunks_with_overlap.
  pose proof (positions_loop_fields count_tokens sentences 0 0) as Hfields.
  destruct (positions_loop count_tokens sentences 0 0) as [[sps cp] tl].
  cbn in Hfields. destruct Hfields as [Htext Htoks].
  assert (Hpos' : Forall (fun s => (1 <= si_tokens s)%Z) sps).
  { rewrite Forall_forall. intros x Hx.
    apply (in_map si_tokens) in Hx. rewrite Htoks in Hx.
    apply in_map_iff in Hx. destruct Hx as (s & <- & Hs).
    rewrite Forall_forall in Hpos. specialize (Hpos s Hs). lia. }
  pose proof (pack_loop_packed chunk_size document_id metadata sps tl Hpos'
                sps [] (mkPacking [] [] 0 0 0) eq_refl) as Hpacked.
  cbn [List.length] in Hpacked.
  destruct Hpacked as (groups & cur & Hdone & Hne & Hcont & Hcur & Htok).
  { exists [], []. cbn. repeat split; constructor. }
  set (st := pack_loop chunk_size 0 document_id metadata sps tl sps 0
               (mkPacking [] [] 0 0 0)) in *.
  assert (Hgroups : Py.join " " (map cd_content (chunks st))
                    = Py.join " " (map si_text (List.concat groups))).
  { rewrite Hcont, <- (map_map (map si_text) (Py.join " ")).
    rewrite join_groups.
    - now rewrite concat_map.
    - rewrite Forall_forall in *. intros g Hg.
      apply in_map_iff in Hg. destruct Hg as (g0 & <- & Hg0).
      specialize (Hne g0 Hg0). destruct g0; [congruence | discriminate]. }
  assert (Hcurtok : info_tokens cur = tokens_of count_tokens (map si_text cur)).
  { assert (Hall : map si_tokens sps
                   = map (fun s => Z.of_nat (count_tokens s)) (map si_text sps))
      by now rewrite Htext.
    rewrite Hdone, !map_app in Hall. apply app_eq_same_length in Hall.
    - unfold info_tokens, tokens_of. now rewrite (proj2 Hall).
    - now rewrite !length_map. }
  unfold flush.
  destruct cur as [|c cur'].
  - exists sentences, []. rewrite app_nil_r in Hdone. rewrite Hcur.
    cbn [map Py.truthy].
    repeat split; [now rewrite app_nil_r | | now left].
    now rewrite Hgroups, <- Hdone, Htext.
  - replace (Py.truthy (current_chunk st)) with true
      by now rewrite Hcur.
    destruct ((min_chunk_size <=? current_tokens st)%Z
              || (List.length (chunks st) =? 0)) eqn:Hkeep.
    + exists sentences, []. repeat split; [now rewrite app_nil_r | | now left].
      rewrite <- Htext, Hdone.
      destruct groups as [|g groups].
      * destruct (chunks st); [|discriminate]. cbn.
        now rewrite Hcur.
      * rewrite !map_app. cbn [map]. rewrite join_app.
        -- rewrite Hgroups. cbn [Py.join String.concat]. rewrite Hcur.
           cbn [cd_content make_chunk].
           symmetry. apply (join_app " " _ (map si_text (c :: cur'))).
           ++ inversion Hne as [|? ? Hg _]; subst. cbn.
              destruct g; [congruence | discriminate].
           ++ discriminate.
        -- rewrite Hcont. discriminate.
        -- discriminate.
    + apply orb_false_elim in Hkeep. destruct Hkeep as [Hmin Hlen].
      exists (map si_text (List.concat groups)), (map si_text (c :: cur')).
      repeat split.
      * now rewrite <- map_app, <- Hdone.
      * assumption.
      * right. split.
        -- destruct (chunks st); [discriminate | discriminate].
        -- rewrite <- Hcurtok, <- Htok.
           destruct (Z.leb_spec min_chunk_size (current_tokens st));
             [discriminate | assumption].
Qed.

Lemma contents_cover_all_but_a_short_tail_witness :
  exists kept dropped : list string,
    ["One"; "Two"; "Ten"] = kept ++ dropped
    /\ Py.join " "
         (map cd_content
            (create_chunks_with_overlap Examples.word_tokens 2 0 2 "doc" []
               ["One"; "Two"; "Ten"]))
       = Py.join " " kept
    /\ (dropped = []
        \/ (create_chunks_with_overlap Examples.word_tokens 2 0 2 "doc" []
              ["One"; "Two"; "Ten"] <> []
            /\ (tokens_of Examples.word_tokens dropped < 2)%Z)).
Proof.
  apply (contents_cover_all_but_a_short_tail Examples.word_tokens 2 2 "doc" []
           ["One"; "Two"; "Ten"]).
  repeat constructor.
Defined.

(** C5 (the code at the failing input): with [chunk_size = 2],
    [min_chunk_size = 2] and no overlap, the last of three one-token
    sentences is in no chunk: the words of the chunk contents are "One"
    and "Two", the words of the text are "One", "Two" and "Ten". *)
Lemma short_final_chunk_left_out :
  let sentences := ["One"; "Two"; "Ten"] in
  let chunks :=
    create_chunks_with_overlap Examples.word_tokens 2 0 2 "doc" [] sentences in
  Chunking.valid_parameters 2 0 = true
  /\ map cd_content chunks = ["One Two"]
  /\ Py.split (Py.join " " (map cd_content chunks)) = ["One"; "Two"]
  /\ Py.split (Py.join " " sentences) = ["One"; "Two"; "Ten"].
Proof. repeat split; vm_compute; reflexivity. Qed.

(** C3 (the code at two failing inputs).  First: the backward walk steps
    over a sentence that does not fit the overlap and still takes an
    earlier one, so the seed is not a contiguous suffix.  Second: the seed
    is the last sentence, which starts at offset 4, yet the new chunk is
    given the start offset 0. *)
Theorem overlap_seed_and_start_at_failing_inputs :
  map (fun c => (cd_content c, start_char c))
    (create_chunks_with_overlap Examples.word_tokens 6 2 0 "doc" []
       ["One"; "two three four five six"; "Ten"])
  = [("One two three four five six", 0%Z); ("One Ten", 0%Z)]
  /\ map (fun c => (cd_content c, start_char c))
       (create_chunks_with_overlap Examples.word_tokens 2 1 0 "doc" []
          ["One"; "Two"; "Ten"])
     = [("One Two", 0%Z); ("Two Ten", 0%Z)]
  /\ map si_start
       (fst (fst (positions_loop Examples.word_tokens ["One"; "Two"; "Ten"]
                    0 0)))
     = [0%Z; 4%Z; 8%Z].
Proof. repeat split; vm_compute; reflexivity. Qed.

End ChunkingProps.

(** ** Dictionaries and sorting *)

Module PyFacts.

Section DictFacts.

Context {V : Type}.
Implicit Types (d : list (string * V)) (k : string) (v : V).

Lemma dict_find_set_same d k v :
  Py.dict_find (Py.dict_set d k v) k = Some v.
Proof.
  induction d as [|[k' w] d IH]; cbn.
  - now rewrite String.eqb_refl.
  - destruct (String.eqb k' k) eqn:E; cbn; rewrite E; auto.
Qed.

Lemma dict_find_set_other d k k' v :
  k <> k' -> Py.dict_find (Py.dict_set d k v) k' = Py.dict_find d k'.
Proof.
  intros Hne. induction d as [|[k0 w] d IH]; cbn.
  - destruct (String.eqb_spec k k'); congruence.
  - destruct (String.eqb_spec k0 k) as [->|]; cbn.
    + destruct (String.eqb_spec k k'); congruence.
    + destruct (String.eqb_spec k0 k'); auto.
Qed.

Lemma dict_find_set d k k' v :
  Py.dict_find (Py.dict_set d k v) k'
  = if String.eqb k k' then Some v else Py.dict_find d k'.
Proof.
  destruct (String.eqb_spec k k') as [->|Hne].
  - apply dict_find_set_same.
  - now apply dict_find_set_other.
Qed.

Lemma dict_set_keys d k v c :
  In c (map fst (Py.dict_set d k v)) <-> c = k \/ In c (map fst d).
Proof.
  induction d as [|[k0 w] d IH]; cbn.
  - intuition.
  - destruct (String.eqb_spec k0 k) as [->|]; cbn; intuition.
Qed.

Lemma dict_set_nodup d k v :
  NoDup (map fst d) -> NoDup (map fst (Py.dict_set d k v)).
Proof.
  induction d as [|[k0 w] d IH]; cbn; intros Hnd.
  - constructor; [intros [] | constructor].
  - inversion Hnd as [|? ? Hnotin Hnd']; subst.
    destruct (String.eqb_spec k0 k) as [->|Hne]; cbn.
    + now constructor.
    + constructor; [|auto].
      rewrite dict_set_keys. intros [->|]; congruence.
Qed.

Lemma dict_find_in d k v :
  NoDup (map fst d) -> In (k, v) d -> Py.dict_find d k = Some v.
Proof.
  induction d as [|[k0 w] d IH]; cbn; intros Hnd Hin; [contradiction|].
  inversion Hnd as [|? ? Hnotin Hnd']; subst. destruct Hin as [Heq|Hin].
  - injection Heq as -> ->. now rewrite String.eqb_refl.
  - destruct (String.eqb_spec k0 k) as [->|]; [|auto].
    exfalso. apply Hnotin. now apply (in_map fst) in Hin.
Qed.

Lemma dict_find_keys d k :
  Py.dict_find d k <> None <-> In k (map fst d).
Proof.
  induction d as [|[k0 w] d IH]; cbn; [intuition|].
  destruct (String.eqb_spec k0 k) as [->|Hne].
  - split; [auto | discriminate].
  - rewrite IH. intuition.
Qed.

End DictFacts.

Section SortedFacts.

Context {A : Type}.
Variable key : A -> Q.

Lemma insert_desc_perm x l :
  Permutation.Permutation (Py.insert_desc key x l) (x :: l).
Proof.
  induction l as [|y l IH]; cbn; [reflexivity|].
  destruct (Qle_bool (key y) (key x)); [reflexivity|].
  rewrite IH. apply Permutation.perm_swap.
Qed.

(** Sorting only reorders. *)
Lemma sorted_desc_perm l : Permutation.Permutation (Py.sorted_desc key l) l.
Proof.
  induction l as [|x l IH]; cbn; [reflexivity|].
  rewrite insert_desc_perm. now constructor.
Qed.

End SortedFacts.

End PyFacts.

(** ** Reciprocal rank fusion *)

Module HybridProps.

Import HybridRetriever HybridSpec PyFacts.

Lemma rank_of_in c l : rank_of c l <> None <-> In c (map cid l).
Proof.
  induction l as [|r l IH]; cbn; [intuition|].
  destruct (String.eqb_spec (cid r) c) as [->|Hne].
  - split; [auto | discriminate].
  - destruct (rank_of c l) as [n|]; cbn.
    + split; [intros _; right; apply IH | ]; discriminate.
    + split; [congruence|].
      intros [Heq|Hin]; [congruence | now apply IH in Hin].
Qed.

Lemma rank_of_not_in c l : ~ In c (map cid l) -> rank_of c l = None.
Proof.
  intros Hnot. destruct (rank_of c l) eqn:E; [|reflexivity].
  exfalso. apply Hnot, rank_of_in. congruence.
Qed.

Section Loops.

Variable rrf_k : Z.
Hypothesis rrf_k_nonneg : (0 <= rrf_k)%Z.

Local Abbreviation score_at := (HybridSpec.score_at rrf_k).

Lemma rrf_score_defined rank :
  (rrf_k + Z.of_nat rank + 1 < Py.float_overflow)%Z ->
  rrf_score rrf_k rank = Some (score_at rank).
Proof.
  intros Hsmall. unfold rrf_score, score_at.
  destruct (Z.leb_spec Py.float_overflow
              (Z.abs (rrf_k + Z.of_nat rank + 1))); [lia|].
  destruct (Z.eqb_spec (rrf_k + Z.of_nat rank + 1) 0); [lia | reflexivity].
Qed.

Lemma well_keyed_set cs cm result s :
  well_keyed cs cm ->
  well_keyed (Py.dict_set cs (cid result) s)
             (Py.dict_set cm (cid result) result).
Proof.
  intros (Hnd & Hid & Hsub). repeat split.
  - now apply dict_set_nodup.
  - intros c res. rewrite dict_find_set.
    destruct (String.eqb_spec (cid result) c); [congruence | apply Hid].
  - intros c. rewrite !dict_find_set.
    destruct (String.eqb_spec (cid result) c); [discriminate | apply Hsub].
Qed.

Lemma well_keyed_update cs cm c s :
  Py.dict_find cs c <> None ->
  well_keyed cs cm -> well_keyed (Py.dict_set cs c s) cm.
Proof.
  intros Hin (Hnd & Hid & Hsub). repeat split.
  - now apply dict_set_nodup.
  - assumption.
  - intros c'. rewrite dict_find_set.
    destruct (String.eqb_spec c c') as [<-|]; [auto | apply Hsub].
Qed.

Lemma semantic_loop_scores results :
  NoDup (map cid results) ->
  forall rank cs cm,
    (rrf_k + Z.of_nat (rank + List.length results) < Py.float_overflow)%Z ->
    well_keyed cs cm ->
    exists cs' cm',
      semantic_loop rrf_k results rank cs cm = Some (cs', cm')
      /\ well_keyed cs' cm'
      /\ forall c,
           Py.dict_find cs' c
           = match rank_of c results with
             | Some r => Some (score_at (rank + r))
             | None => Py.dict_find cs c
             end.
Proof.
  induction results as [|result rest IH]; intros Hnd rank cs cm Hsmall Hwk.
  - exists cs, cm. cbn. auto.
  - inversion Hnd as [|? ? Hnotin Hnd']; subst.
    cbn [List.length] in Hsmall.
    cbn [semantic_loop]. rewrite rrf_score_defined by lia.
    destruct (IH Hnd' (S rank) (Py.dict_set cs (cid result) (score_at rank))
                (Py.dict_set cm (cid result) result))
      as (cs' & cm' & Hrun & Hwk' & Hfind);
      [lia | now apply well_keyed_set |].
    exists cs', cm'. fold (cid result). split; [exact Hrun|].
    split; [exact Hwk'|].
    intros c. rewrite Hfind. cbn [rank_of].
    destruct (String.eqb_spec (cid result) c) as [<-|Hne].
    + rewrite (rank_of_not_in _ _ Hnotin), dict_find_set_same.
      now rewrite Nat.add_0_r.
    + destruct (rank_of c rest); cbn.
      * now rewrite Nat.add_succ_r.
      * now apply dict_find_set_other.
Qed.

Lemma keyword_loop_scores results :
  NoDup (map cid results) ->
  forall rank cs cm,
    (rrf_k + Z.of_nat (rank + List.length results) < Py.float_overflow)%Z ->
    well_keyed cs cm ->
    exists cs' cm',
      keyword_loop rrf_k results rank cs cm = Some (cs', cm')
      /\ well_keyed cs' cm'
      /\ forall c,
           Py.dict_find cs' c
           = match rank_of c results with
             | Some r =>
                 Some (match Py.dict_find cs c with
                       | Some old => (old + score_at (rank + r))%Q
                       | None => score_at (rank + r)
                       end)
             | None => Py.dict_find cs c
             end.
Proof.
  induction results as [|result rest IH]; intros Hnd rank cs cm Hsmall Hwk.
  - exists cs, cm. cbn. auto.
  - inversion Hnd as [|? ? Hnotin Hnd']; subst.
    cbn [List.length] in Hsmall.
    cbn [keyword_loop]. rewrite rrf_score_defined by lia. fold (cid result).
    destruct (Py.dict_find cs (cid result)) as [old|] eqn:Hold.
    + destruct (IH Hnd' (S rank) (Py.dict_set cs (cid result)
                                    (old + score_at rank)%Q) cm)
        as (cs' & cm' & Hrun & Hwk' & Hfind); [lia | |].
      { apply well_keyed_update; [congruence | assumption]. }
      exists cs', cm'. split; [exact Hrun|]. split; [exact Hwk'|].
      intros c. rewrite Hfind. cbn [rank_of].
      destruct (String.eqb_spec (cid result) c) as [<-|Hne].
      * rewrite (rank_of_not_in _ _ Hnotin), dict_find_set_same, Hold.
        now rewrite Nat.add_0_r.
      * rewrite (dict_find_set_other cs _ c _ Hne).
        destruct (rank_of c rest); cbn; [|reflexivity].
        now rewrite Nat.add_succ_r.
    + destruct (IH Hnd' (S rank)
                  (Py.dict_set cs (cid result) (score_at rank))
                  (Py.dict_set cm (cid result) result))
        as (cs' & cm' & Hrun & Hwk' & Hfind);
        [lia | now apply well_keyed_set |].
      exists cs', cm'. split; [exact Hrun|]. split; [exact Hwk'|].
      intros c. rewrite Hfind. cbn [rank_of].
      destruct (String.eqb_spec (cid result) c) as [<-|Hne].
      * rewrite (rank_of_not_in _ _ Hnotin), dict_find_set_same, Hold.
        now rewrite Nat.add_0_r.
      * rewrite (dict_find_set_other cs _ c _ Hne).
        destruct (rank_of c rest); cbn; [|reflexivity].
        now rewrite Nat.add_succ_r.
Qed.

(** The final loop finds every identifier and keeps the scores. *)
Lemma final_loop_items cm items :
  (forall c, In c (map fst items) ->
             exists res, Py.dict_find cm c = Some res /\ cid res = c) ->
  exists results,
    final_loop cm items = Some results
    /\ map (fun r => (cid r, score r)) results = items.
Proof.
  induction items as [|[c s] items IH]; intros Hall.
  - exists []. auto.
  - destruct (Hall c (or_introl eq_refl)) as (res & Hres & Hcid).
    destruct IH as (results & Hrun & Hmap).
    { intros c' Hc'. apply Hall. now right. }
    exists (mkResult (chunk res) s "hybrid" :: results).
    cbn [final_loop]. rewrite Hres, Hrun. split; [reflexivity|].
    cbn. unfold cid in *. cbn. now rewrite Hcid, Hmap.
Qed.

End Loops.

(** C6 (as amended): for hit lists in neither of which a segment occurs
    twice, and [rrf_k >= 0] small enough for every [rrf_k + rank + 1] to
    be converted to a float, fusion returns one hit per distinct segment
    of the two lists, and the score of each is the sum, over the lists
    that contain the segment, of [1 / (rrf_k + rank + 1)]; a segment
    ranked first in both lists with [rrf_k = 60] gets [2/61]. *)
Theorem fused_score_is_sum_of_contributions :
  forall (rrf_k : Z) (semantic keyword : list RetrievalResult),
    (0 <= rrf_k)%Z ->
    (rrf_k + Z.of_nat (Nat.max (List.length semantic) (List.length keyword))
     < Py.float_overflow)%Z ->
    NoDup (map cid semantic) ->
    NoDup (map cid keyword) ->
    exists fused,
      _reciprocal_rank_fusion rrf_k semantic keyword = Some fused
      /\ NoDup (map cid fused)
      /\ (forall c, In c (map cid fused)
                    <-> In c (map cid semantic) \/ In c (map cid keyword))
      /\ (forall r, In r fused ->
            score r == contribution rrf_k (cid r) semantic
                       + contribution rrf_k (cid r) keyword)
      /\ (rrf_k = 60%Z ->
          forall r, In r fused ->
            rank_of (cid r) semantic = Some 0 ->
            rank_of (cid r) keyword = Some 0 ->
            score r == 2 # 61).
Proof.
  intros rrf_k semantic keyword Hk Hsmall Hnds Hndk.
  destruct (semantic_loop_scores rrf_k Hk semantic Hnds 0 [] [])
    as (cs1 & cm1 & Hrun1 & Hwk1 & Hfind1); [lia | |].
  { repeat split; [constructor | discriminate | auto]. }
  destruct (keyword_loop_scores rrf_k Hk keyword Hndk 0 cs1 cm1)
    as (cs2 & cm2 & Hrun2 & Hwk2 & Hfind2); [lia | exact Hwk1 |].
  destruct Hwk2 as (Hnd2 & Hid2 & Hsub2).
  pose proof (sorted_desc_perm snd cs2) as Hperm.
  destruct (final_loop_items cm2 (Py.sorted_desc snd cs2))
    as (fused & Hrun3 & Hitems).
  { intros c Hc.
    assert (Hin : In c (map fst cs2)).
    { eapply Permutation_in; [apply Permutation_map, Hperm | exact Hc]. }
    apply dict_find_keys, Hsub2 in Hin.
    destruct (Py.dict_find cm2 c) as [res|] eqn:Hres; [|congruence].
    exists res. split; [reflexivity | now apply Hid2]. }
  assert (Hids : map cid fused = map fst (Py.sorted_desc snd cs2)).
  { rewrite <- Hitems, map_map. reflexivity. }
  assert (Hscore : forall r, In r fused ->
                     Py.dict_find cs2 (cid r) = Some (score r)).
  { intros r Hr. apply dict_find_in; [assumption|].
    eapply Permutation_in; [exact Hperm|].
    rewrite <- Hitems. now apply (in_map (fun r => (cid r, score r))). }
  assert (Hsum : forall r, In r fused ->
                   score r == contribution rrf_k (cid r) semantic
                              + contribution rrf_k (cid r) keyword).
  { intros r Hr. specialize (Hscore r Hr).
    rewrite Hfind2, Hfind1 in Hscore. unfold contribution.
    destruct (rank_of (cid r) keyword) as [rk|];
      destruct (rank_of (cid r) semantic) as [rs|];
      cbn in Hscore; try discriminate;
      injection Hscore as <-; unfold score_at; cbn [Nat.add].
    - reflexivity.
    - now rewrite Qplus_0_l.
    - now rewrite Qplus_0_r. }
  exists fused. unfold _reciprocal_rank_fusion. rewrite Hrun1, Hrun2.
  split; [exact Hrun3|]. split; [|split; [|split]].
  - rewrite Hids.
    eapply Permutation_NoDup;
      [symmetry; apply Permutation_map, Hperm | exact Hnd2].
  - intros c. rewrite Hids.
    transitivity (In c (map fst cs2)).
    { split; apply Permutation_in;
        [apply Permutation_map, Hperm
        | symmetry; apply Permutation_map, Hperm]. }
    rewrite <- dict_find_keys, Hfind2, Hfind1.
    rewrite <- !rank_of_in.
    destruct (rank_of c keyword), (rank_of c semantic); cbn;
      intuition congruence.
  - exact Hsum.
  - intros -> r Hr Hs Hkw. rewrite (Hsum r Hr). unfold contribution.
    rewrite Hs, Hkw. reflexivity.
Qed.

Lemma fused_score_is_sum_of_contributions_witness :
  exists fused,
    _reciprocal_rank_fusion 60
      [Examples.hit_07; Examples.hit_09] [Examples.hit_07; Examples.hit_08]
    = Some fused
    /\ NoDup (map cid fused)
    /\ (forall c, In c (map cid fused)
                  <-> In c (map cid [Examples.hit_07; Examples.hit_09])
                      \/ In c (map cid [Examples.hit_07; Examples.hit_08]))
    /\ (forall r, In r fused ->
          score r == contribution 60 (cid r)
                       [Examples.hit_07; Examples.hit_09]
                     + contribution 60 (cid r)
                         [Examples.hit_07; Examples.hit_08])
    /\ (60%Z = 60%Z ->
        forall r, In r fused ->
          rank_of (cid r) [Examples.hit_07; Examples.hit_09] = Some 0 ->
          rank_of (cid r) [Examples.hit_07; Examples.hit_08] = Some 0 ->
          score r == 2 # 61).
Proof.
  apply (fused_score_is_sum_of_contributions 60
           [Examples.hit_07; Examples.hit_09]
           [Examples.hit_07; Examples.hit_08]).
  - lia.
  - vm_compute. reflexivity.
  - repeat constructor; cbn; intuition discriminate.
  - repeat constructor; cbn; intuition discriminate.
Defined.

(** C6 (counterexample): a hit that occurs twice in one list.  Twice in
    the semantic list, it keeps the contribution of its last rank only,
    [1/62]; twice in the keyword list, it gets the contributions of both
    ranks, [1/61 + 1/62].  Neither is the sum over the lists that contain
    it, [1/61]. *)
Lemma repeated_hit_is_not_scored_by_the_sum :
  let twice := [Examples.hit_07; Examples.hit_07] in
  option_map (map (fun r => (cid r, score r)))
    (_reciprocal_rank_fusion 60 twice [])
  = Some [("c1", (1 / 62)%Q)]
  /\ option_map (map (fun r => (cid r, score r)))
       (_reciprocal_rank_fusion 60 [] twice)
     = Some [("c1", (1 / 61 + 1 / 62)%Q)]
  /\ (contribution 60 "c1" twice + contribution 60 "c1" [] == 1 / 61)%Q
  /\ (contribution 60 "c1" [] + contribution 60 "c1" twice == 1 / 61)%Q
  /\ ~ (1 / 62 == 1 / 61)%Q
  /\ ~ (1 / 61 + 1 / 62 == 1 / 61)%Q.
Proof.
  repeat split; try (vm_compute; reflexivity); vm_compute; discriminate.
Qed.

(** The scenario of the specification, evaluated. *)
Example first_in_both_lists_scores_two_over_61 :
  option_map (map (fun r => (cid r, score r, method r)))
    (_reciprocal_rank_fusion 60
       [Examples.hit_07; Examples.hit_09] [Examples.hit_07; Examples.hit_08])
  = Some [("c1", (1 / 61 + 1 / 61)%Q, "hybrid");
          ("c2", (1 / 62)%Q, "hybrid"); ("c3", (1 / 62)%Q, "hybrid")].
Proof. vm_compute. reflexivity. Qed.

End HybridProps.

(** ** Keyword retrieval *)

Module KeywordProps.

Import KeywordRetriever PyFacts.

Lemma in_firstn {A : Type} (n : nat) (l : list A) (x : A) :
  In x (firstn n l) -> In x l.
Proof.
  revert n. induction l as [|y l IH]; intros [|n]; cbn; try contradiction.
  intros [->|Hin]; [now left | right; eauto].
Qed.

Lemma in_slice_to {A : Type} (l : list A) (k : Z) (x : A) :
  In x (Py.slice_to l k) -> In x l.
Proof. unfold Py.slice_to. destruct (0 <=? k)%Z; apply in_firstn. Qed.

(** The indices ranked by [retrieve] are positions of [scores]. *)
Lemma top_indices_in_range scores top_k idx :
  In idx (top_indices scores top_k) -> idx < List.length scores.
Proof.
  unfold top_indices. intros Hin. apply in_slice_to in Hin.
  eapply Permutation_in in Hin; [|apply sorted_desc_perm].
  apply in_seq in Hin. lia.
Qed.

Section Loop.

Variable chunks : list Chunk.
Variable scores : list Q.

Lemma results_loop_positive indices :
  forall results out,
    Forall (fun r => (0 < score r)%Q) results ->
    results_loop chunks scores indices results = Some out ->
    Forall (fun r => (0 < score r)%Q) out.
Proof.
  induction indices as [|idx rest IH]; intros results out Hpos Hrun;
    cbn [results_loop] in Hrun.
  - now injection Hrun as <-.
  - destruct (Qle_bool (nth idx scores 0%Q) 0) eqn:Hle; cbn [negb] in Hrun.
    + eauto.
    + destruct (nth_error chunks idx) as [c|]; [|discriminate].
      refine (IH _ _ _ Hrun).
      apply Forall_app. split; [assumption|].
      constructor; [|constructor]. cbn.
      apply Qnot_le_lt. intros H. apply Qle_bool_iff in H. congruence.
Qed.

Lemma results_loop_nothing_positive indices results :
  (forall idx, In idx indices -> (nth idx scores 0 <= 0)%Q) ->
  results_loop chunks scores indices results = Some results.
Proof.
  induction indices as [|idx rest IH]; intros Hall; cbn [results_loop].
  - reflexivity.
  - assert (Hle : Qle_bool (nth idx scores 0%Q) 0 = true)
      by (apply Qle_bool_iff, Hall; now left).
    rewrite Hle. cbn [negb]. apply IH. intros i Hi. apply Hall. now right.
Qed.

End Loop.

(** C8: when no candidate has a positive score the result is the empty
    list, and in any case every returned hit has a positive score. *)
Theorem no_positive_score_no_hit :
  forall (get_scores : list (list string) -> list string -> list Q)
         (db : list Chunk) (query : string) (top_k : Z)
         (upload : option UUID),
    let scores :=
      get_scores (corpus_of (candidates db upload)) (Py.split query) in
    ((forall s, In s scores -> (s <= 0)%Q) ->
     retrieve get_scores db query top_k upload = Some [])
    /\ (forall results,
          retrieve get_scores db query top_k upload = Some results ->
          Forall (fun r => (0 < score r)%Q) results).
Proof.
  intros get_scores db query top_k upload scores. unfold retrieve.
  fold scores. split.
  - intros Hall. destruct (candidates db upload); [reflexivity|].
    apply results_loop_nothing_positive. intros idx Hidx.
    apply Hall, nth_In. eapply top_indices_in_range, Hidx.
  - intros results. destruct (candidates db upload).
    + intros Hrun. injection Hrun as <-. constructor.
    + apply results_loop_positive. constructor.
Qed.

Lemma no_positive_score_no_hit_witness :
  let db := [chunk Examples.hit_07; chunk Examples.hit_09] in
  let scores :=
    Examples.overlap_scores (corpus_of (candidates db None))
      (Py.split "zebra stripes") in
  scores = [0%Q; 0%Q]
  /\ retrieve Examples.overlap_scores db "zebra stripes" 10 None = Some [].
Proof.
  split; [vm_compute; reflexivity|].
  apply (no_positive_score_no_hit Examples.overlap_scores
           [chunk Examples.hit_07; chunk Examples.hit_09]
           "zebra stripes" 10 None).
  vm_compute. intros s [<-|[<-|[]]]; discriminate.
Defined.

(** A query that matches one candidate returns that candidate only. *)
Example matching_query_returns_positive_hits :
  option_map (map (fun r => (id (chunk r), score r, method r)))
    (retrieve Examples.overlap_scores
       [chunk Examples.hit_07; chunk Examples.hit_09] "Dogs bark" 10 None)
  = Some [("c2", inject_Z 2, "keyword")].
Proof. vm_compute. reflexivity. Qed.

End KeywordProps.

(** ** Query processing *)

Module QueryProps.

Import QueryService QuerySpec.

(** C9: when retrieval returns no hit, [process_query] returns a complete
    response whose answer is the insufficient-information message, word
    for word, and whose citation and used-chunk lists are empty; the
    answer generator is not called and nothing is logged. *)
Theorem empty_retrieval_short_circuits :
  forall (settings : Settings) (self : Service) (clock : Clock)
         (request : QueryRequest) (w : World),
    retriever self (query request) (top_k request) (req_upload_id request)
    = Some [] ->
    exists response,
      process_query settings self clock request w = (Returned response, w)
      /\ answer response
         = "I don't have enough information to answer this question based on the provided documents."
      /\ citations response = []
      /\ used_chunks response = []
      /\ resp_query response = query request
      /\ chunks_retrieved (resp_metadata response) = 0%Z
      /\ chunks_used (resp_metadata response) = 0%Z
      /\ generation_time_ms (resp_metadata response) = 0%Z.
Proof.
  intros settings self clock request w Hempty.
  unfold process_query. rewrite Hempty. cbn [Py.truthy negb].
  eexists. split; [reflexivity|]. cbn. repeat split; reflexivity.
Qed.

Lemma empty_retrieval_short_circuits_witness :
  let settings := mkSettings "google" (1 # 10) 6000 (1 # 2) in
  let self :=
    init settings (fun _ _ _ => Some [])
      (fun _ _ => Some (mkLLMResponse "unused" 0 "m")) "gemini-pro" true in
  let request := mkRequest "What is a zebra?" None 10 (1 # 2) None in
  let w := mkWorld [] [] in
  exists response,
    process_query settings self (mkClock "q1" 3 0 3 0) request w
    = (Returned response, w)
    /\ answer response
       = "I don't have enough information to answer this question based on the provided documents."
    /\ citations response = []
    /\ used_chunks response = []
    /\ resp_query response = query request
    /\ chunks_retrieved (resp_metadata response) = 0%Z
    /\ chunks_used (resp_metadata response) = 0%Z
    /\ generation_time_ms (resp_metadata response) = 0%Z.
Proof.
  cbv zeta.
  apply (empty_retrieval_short_circuits
           (mkSettings "google" (1 # 10) 6000 (1 # 2))
           (init (mkSettings "google" (1 # 10) 6000 (1 # 2))
              (fun _ _ _ => Some [])
              (fun _ _ => Some (mkLLMResponse "unused" 0 "m"))
              "gemini-pro" true)
           (mkClock "q1" 3 0 3 0)
           (mkRequest "What is a zebra?" None 10 (1 # 2) None)
           (mkWorld [] [])).
  reflexivity.
Defined.

(** C10: two requests that differ only in [mmr_lambda], served by services
    that differ only in the [lambda_param] of their selector, get the same
    response and make the same generator calls (so the same prompt and
    context); the used chunks are the first [top_k] retrieved hits; the
    query logs agree once the [mmr_lambda] column is blanked, and every new
    row carries the [mmr_lambda] of its request. *)
Theorem mmr_lambda_only_reaches_the_log :
  forall (settings : Settings)
         (retrieve : string -> Z -> option UUID
                     -> option (list RetrievalResult))
         (generate : string -> Q -> option LLMResponse)
         (model_name : string) (commits : bool)
         (selector_lambda1 selector_lambda2 : Q)
         (clock : Clock) (q : string) (upload : option UUID) (k : Z)
         (temp : option Q) (lambda1 lambda2 : Q) (w : World),
    let self1 :=
      mkService retrieve generate model_name selector_lambda1 commits in
    let self2 :=
      mkService retrieve generate model_name selector_lambda2 commits in
    let out1 :=
      process_query settings self1 clock (mkRequest q upload k lambda1 temp)
        w in
    let out2 :=
      process_query settings self2 clock (mkRequest q upload k lambda2 temp)
        w in
    fst out1 = fst out2
    /\ generate_calls (snd out1) = generate_calls (snd out2)
    /\ map forget_lambda (queries (snd out1))
       = map forget_lambda (queries (snd out2))
    /\ (exists rows,
          queries (snd out1) = queries w ++ rows
          /\ Forall (fun row => row_mmr_lambda row = lambda1) rows)
    /\ (forall retrieved response,
          retrieve q k upload = Some retrieved ->
          fst out1 = Returned response ->
          used_chunks response = map to_used (Py.slice_to retrieved k)).
Proof.
  intros settings retrieve generate model_name commits sl1 sl2 clock q upload
    k temp lambda1 lambda2 w self1 self2 out1 out2.
  subst out1 out2 self1 self2. unfold process_query, _log_query.
  cbn [retriever llm_generate llm_model_name db_ok query top_k req_upload_id
       temperature mmr_lambda].
  destruct (retrieve q k upload) as [retrieved|].
  - destruct retrieved as [|r retrieved]; cbn [Py.truthy negb].
    + cbn. repeat split.
      * exists []. split; [now rewrite app_nil_r | constructor].
      * intros retrieved response Hsome Hret.
        injection Hsome as <-. injection Hret as <-. cbn.
        unfold Py.slice_to. now destruct (0 <=? k)%Z; rewrite firstn_nil.
    + destruct (generate _ _) as [llm_answer|].
      * destruct commits; cbn.
        -- repeat split.
           ++ now rewrite !map_app.
           ++ eexists. split; [reflexivity|]. now repeat constructor.
           ++ intros retrieved' response Hsome Hret.
              injection Hsome as <-. now injection Hret as <-.
        -- repeat split.
           ++ exists []. split; [now rewrite app_nil_r | constructor].
           ++ intros retrieved' response Hsome Hret.
              injection Hsome as <-. now injection Hret as <-.
      * cbn. repeat split.
        -- exists []. split; [now rewrite app_nil_r | constructor].
        -- intros ? ? _ Hret. discriminate.
  - cbn. repeat split.
    + exists []. split; [now rewrite app_nil_r | constructor].
    + intros ? ? Hsome. discriminate.
Qed.

End QueryProps.

(** ** Context assembly *)

Module ContextProps.

Import QueryService ContextSpec.

Lemma context_loop_parts max_tokens chunks :
  forall i parts total,
    exists n,
      n <= List.length chunks
      /\ (forall m, 1 <= m <= n ->
            (total + tokens_sum (whole_blocks i (firstn m chunks))
             <= max_tokens)%Z)
      /\ let whole := whole_blocks i (firstn n chunks) in
         let used := (total + tokens_sum whole)%Z in
         match nth_error chunks n with
         | None =>
             context_loop max_tokens chunks i parts total = parts ++ whole
         | Some next =>
             (max_tokens
              < used + TextUtils.estimate_tokens (whole_block (i + n) next))%Z
             /\ context_loop max_tokens chunks i parts total
                = parts ++ whole
                  ++ overflow_tail (i + n) next (max_tokens - used)
         end.
Proof.
  induction chunks as [|result rest IH]; intros i parts total.
  - exists 0. cbn. split; [lia|]. split; [intros m Hm; lia|].
    now rewrite app_nil_r.
  - cbn [context_loop]. fold (whole_block i result).
    destruct (Z.ltb_spec max_tokens
                (total + TextUtils.estimate_tokens (whole_block i result)))
      as [Hover|Hfit].
    + exists 0. cbn [List.length firstn whole_blocks tokens_sum fold_right
                       nth_error].
      split; [lia|]. split; [intros m Hm; lia|].
      rewrite Nat.add_0_r, Z.add_0_r. split; [exact Hover|].
      unfold overflow_tail, truncated_block.
      destruct (100 <? max_tokens - total)%Z; cbn [app];
        [reflexivity | now rewrite app_nil_r].
    + destruct (IH (S i) (parts ++ [whole_block i result])
                  (total + TextUtils.estimate_tokens (whole_block i result))%Z)
        as (n & Hn & Hwithin & Hrun).
      exists (S n). cbn [List.length firstn whole_blocks nth_error].
      split; [lia|]. split.
      * intros [|m] Hm; [lia|]. cbn [firstn whole_blocks tokens_sum fold_right].
        fold (tokens_sum (whole_blocks (S i) (firstn m rest))).
        destruct m as [|m].
        -- cbn [firstn whole_blocks tokens_sum fold_right]. lia.
        -- specialize (Hwithin (S m) ltac:(lia)). lia.
      * cbn zeta in Hrun |- *.
        cbn [tokens_sum fold_right].
        fold (tokens_sum (whole_blocks (S i) (firstn n rest))).
        rewrite Nat.add_succ_r.
        replace (total
                 + (TextUtils.estimate_tokens (whole_block i result)
                    + tokens_sum (whole_blocks (S i) (firstn n rest))))%Z
          with (total + TextUtils.estimate_tokens (whole_block i result)
                + tokens_sum (whole_blocks (S i) (firstn n rest)))%Z by lia.
        destruct (nth_error rest n) as [next|].
        -- destruct Hrun as [Hover Hrun]. split; [exact Hover|].
           rewrite Hrun, <- app_assoc. reflexivity.
        -- rewrite Hrun, <- app_assoc. reflexivity.
Qed.

(** X30: the context is made of the whole blocks of a prefix of the hits
    whose running total stays within the budget; when the next block would
    overflow, a block with truncated content follows exactly when more
    than 100 tokens remain, and nothing else is appended. *)
Theorem context_is_fitting_prefix_and_optional_truncation :
  forall (settings : Settings) (chunks : list RetrievalResult),
    let max_tokens := rag_max_context_tokens settings in
    exists n,
      n <= List.length chunks
      /\ (forall m, 1 <= m <= n ->
            (tokens_sum (whole_blocks 0 (firstn m chunks)) <= max_tokens)%Z)
      /\ let whole := whole_blocks 0 (firstn n chunks) in
         let used := tokens_sum whole in
         match nth_error chunks n with
         | None => _prepare_context settings chunks = Py.join Prompts.nl whole
         | Some next =>
             (max_tokens
              < used + TextUtils.estimate_tokens (whole_block n next))%Z
             /\ _prepare_context settings chunks
                = Py.join Prompts.nl
                    (whole
                     ++ if (100 <? max_tokens - used)%Z
                        then [truncated_block n next (max_tokens - used)]
                        else [])
         end.
Proof.
  intros settings chunks max_tokens.
  destruct (context_loop_parts max_tokens chunks 0 [] 0)
    as (n & Hn & Hwithin & Hrun).
  exists n. split; [exact Hn|]. split; [exact Hwithin|].
  cbn zeta in Hrun |- *. unfold _prepare_context. fold max_tokens.
  cbn [Nat.add app] in Hrun. rewrite Z.add_0_l in Hrun.
  destruct (nth_error chunks n) as [next|].
  - destruct Hrun as [Hover Hrun]. split; [exact Hover|].
    now rewrite Hrun.
  - now rewrite Hrun.
Qed.

(** C7 (the code at the failing input): one hit of 100 words and a budget
    of 101 tokens.  The whole block is estimated at 140 tokens; the
    content is cut to 77 words for the 101 tokens that remain, and the
    block built from it, with its header and trailer lines, is estimated
    at 110 tokens. *)
Lemma truncated_block_exceeds_budget :
  let settings := mkSettings "google" (1 # 10) 101 (1 # 2) in
  let context := _prepare_context settings [Examples.long_hit] in
  TextUtils.estimate_tokens (whole_block 0 Examples.long_hit) = 140%Z
  /\ context = truncated_block 0 Examples.long_hit 101
  /\ TextUtils.estimate_tokens context = 110%Z
  /\ (rag_max_context_tokens settings
      < TextUtils.estimate_tokens context)%Z.
Proof. repeat split; vm_compute; reflexivity. Qed.

End ContextProps.

(** * Further properties of the modelled code *)

(** ** Strings *)

Module StringFacts.

Import StringSpec.

Lemma string_length_app (a b : string) :
  String.length (a ++ b) = String.length a + String.length b.
Proof. induction a as [|c a IH]; cbn; [reflexivity | now rewrite IH]. Qed.

(** [len(sep.join(l))] *)
Lemma length_join sep (l : list string) :
  String.length (Py.join sep l)
  = total_length l + String.length sep * (List.length l - 1).
Proof.
  unfold Py.join. induction l as [|x [|y l] IH].
  - cbn. lia.
  - cbn. lia.
  - change (String.concat sep (x :: y :: l))
      with (x ++ sep ++ String.concat sep (y :: l))%string.
    rewrite !string_length_app, IH. cbn [total_length fold_right List.length].
    nia.
Qed.

Lemma sapp_empty_r (a : string) : (a ++ EmptyString)%string = a.
Proof. induction a as [|c a IH]; cbn; [reflexivity | now rewrite IH]. Qed.

Lemma sapp_assoc (a b c : string) :
  ((a ++ b) ++ c = a ++ (b ++ c))%string.
Proof. induction a as [|x a IH]; cbn; [reflexivity | now rewrite IH]. Qed.

Lemma is_empty_true (a : string) : Py.is_empty a = true <-> a = EmptyString.
Proof. destruct a; cbn; split; congruence. Qed.

Lemma is_empty_app (a b : string) :
  Py.is_empty (a ++ b) = Py.is_empty a && Py.is_empty b.
Proof. destruct a; reflexivity. Qed.

Lemma all_chars_app p (a b : string) :
  all_chars p (a ++ b) = all_chars p a && all_chars p b.
Proof.
  induction a as [|c a IH]; cbn; [reflexivity|].
  now rewrite IH, andb_assoc.
Qed.

Lemma nospace_app (a b : string) :
  nospace (a ++ b) = nospace a && nospace b.
Proof.
  induction a as [|c a IH]; cbn; [reflexivity|].
  now rewrite IH, andb_assoc.
Qed.

(** *** [str.split()] *)

Lemma split_go_nospace (w rest cur : string) :
  nospace w = true ->
  Py.split_go (w ++ rest) cur = Py.split_go rest (cur ++ w).
Proof.
  revert cur. induction w as [|c w IH]; intros cur Hw; cbn in *.
  - now rewrite sapp_empty_r.
  - apply andb_prop in Hw. destruct Hw as [Hc Hw].
    destruct (Py.isspace c); [discriminate|].
    rewrite IH by assumption. unfold Py.snoc.
    now rewrite sapp_assoc.
Qed.

Lemma split_go_space (c : ascii) (rest cur : string) :
  Py.isspace c = true ->
  Py.split_go (String c rest) cur
  = (if Py.is_empty cur then [] else [cur]) ++ Py.split rest.
Proof.
  intros Hc. cbn. rewrite Hc. unfold Py.split.
  destruct (Py.is_empty cur); reflexivity.
Qed.

(** Splitting at a whitespace character splits the list of words. *)
Lemma split_go_app_space (a : string) (c : ascii) (b cur : string) :
  Py.isspace c = true ->
  Py.split_go (a ++ String c b) cur = Py.split_go a cur ++ Py.split b.
Proof.
  intros Hc. revert cur. induction a as [|x a IH]; intros cur.
  - cbn [append]. rewrite split_go_space by assumption. cbn.
    destruct (Py.is_empty cur); reflexivity.
  - cbn. destruct (Py.isspace x).
    + destruct (Py.is_empty cur); rewrite IH; reflexivity.
    + apply IH.
Qed.

Lemma split_app_space (a : string) (c : ascii) (b : string) :
  Py.isspace c = true ->
  Py.split (a ++ String c b) = Py.split a ++ Py.split b.
Proof. intros Hc. unfold Py.split at 1 2. now apply split_go_app_space. Qed.

(** Every piece returned by [split] is a word. *)
Lemma split_go_words (s cur : string) :
  nospace cur = true -> Forall word (Py.split_go s cur).
Proof.
  revert cur. induction s as [|c s IH]; intros cur Hcur; cbn.
  - destruct cur; cbn; constructor; [|constructor].
    split; [discriminate | assumption].
  - destruct (Py.isspace c) eqn:Hc.
    + destruct cur as [|x cur]; cbn; [now apply IH|].
      constructor; [split; [discriminate | assumption] | now apply IH].
    + apply IH. unfold Py.snoc. rewrite nospace_app, Hcur. cbn.
      now rewrite Hc.
Qed.

Lemma split_words (s : string) : Forall word (Py.split s).
Proof. now apply split_go_words. Qed.

(** Round trip: joining words by a space and splitting gives them back. *)
Lemma split_join_words (ws : list string) :
  Forall word ws -> Py.split (Py.join " " ws) = ws.
Proof.
  unfold Py.split, Py.join.
  induction 1 as [|w ws [Hne Hw] Hws IH]; [reflexivity|].
  destruct ws as [|w' ws].
  - cbn [String.concat]. rewrite <- (sapp_empty_r w) at 1.
    rewrite split_go_nospace by assumption. cbn.
    destruct w; [congruence | reflexivity].
  - change (String.concat " " (w :: w' :: ws))
      with (w ++ String " " (String.concat " " (w' :: ws)))%string.
    rewrite split_go_nospace by assumption. cbn [append].
    rewrite split_go_space by reflexivity. unfold Py.split. rewrite IH.
    destruct w; [congruence | reflexivity].
Qed.

(** The same with a suffix glued to the last word. *)
Lemma split_join_words_suffix (ws : list string) (suffix : string) :
  Forall word ws -> word suffix ->
  List.length (Py.split (Py.join " " ws ++ suffix))
  = Nat.max 1 (List.length ws).
Proof.
  intros Hws [Hsne Hs]. unfold Py.split, Py.join.
  induction Hws as [|w ws [Hne Hw] Hws IH].
  - cbn [String.concat append List.length].
    rewrite <- (sapp_empty_r suffix).
    rewrite split_go_nospace by assumption. cbn.
    destruct suffix; [congruence | reflexivity].
  - destruct ws as [|w' ws].
    + cbn [String.concat List.length].
      rewrite <- (sapp_empty_r (w ++ suffix)).
      rewrite split_go_nospace by (rewrite nospace_app, Hw, Hs; reflexivity).
      cbn. destruct w; [congruence | reflexivity].
    + change (String.concat " " (w :: w' :: ws))
        with (w ++ String " " (String.concat " " (w' :: ws)))%string.
      rewrite sapp_assoc, split_go_nospace by assumption.
      cbn [append]. rewrite split_go_space by reflexivity.
      unfold Py.split. rewrite length_app, IH.
      destruct w; [congruence|]. cbn. lia.
Qed.

(** *** [str.strip()] *)

Lemma lstrip_head (s : string) :
  Py.lstrip s = EmptyString
  \/ exists c t, Py.lstrip s = String c t /\ Py.isspace c = false.
Proof.
  induction s as [|c s IH]; cbn; [now left|].
  destruct (Py.isspace c) eqn:Hc; [exact IH|].
  right. now exists c, s.
Qed.

Lemma lstrip_nonspace_head (c : ascii) (t : string) :
  Py.isspace c = false -> Py.lstrip (String c t) = String c t.
Proof. intros Hc. cbn. now rewrite Hc. Qed.

Lemma lstrip_idem (s : string) : Py.lstrip (Py.lstrip s) = Py.lstrip s.
Proof.
  destruct (lstrip_head s) as [->|(c & t & -> & Hc)]; [reflexivity|].
  now apply lstrip_nonspace_head.
Qed.

Lemma lstrip_snoc_nonspace (u : string) (c : ascii) :
  Py.isspace c = false ->
  Py.lstrip (u ++ String c EmptyString)
  = (Py.lstrip u ++ String c EmptyString)%string.
Proof.
  intros Hc. induction u as [|x u IH]; cbn.
  - now rewrite Hc.
  - destruct (Py.isspace x); [exact IH | reflexivity].
Qed.

Lemma rev_string_acc (s acc : string) :
  Py.rev_string s acc = (Py.rev_string s EmptyString ++ acc)%string.
Proof.
  revert acc. induction s as [|c s IH]; intros acc; cbn; [reflexivity|].
  rewrite IH, (IH (String c EmptyString)), sapp_assoc. reflexivity.
Qed.

Lemma rev_string_app (a b : string) :
  Py.rev_string (a ++ b) EmptyString
  = (Py.rev_string b EmptyString ++ Py.rev_string a EmptyString)%string.
Proof.
  induction a as [|c a IH]; cbn.
  - now rewrite sapp_empty_r.
  - rewrite rev_string_acc, IH, sapp_assoc.
    now rewrite <- (rev_string_acc a (String c EmptyString)).
Qed.

Lemma rev_string_involutive (s : string) :
  Py.rev_string (Py.rev_string s EmptyString) EmptyString = s.
Proof.
  induction s as [|c s IH]; cbn; [reflexivity|].
  rewrite (rev_string_acc s (String c EmptyString)), rev_string_app, IH.
  reflexivity.
Qed.

Lemma rstrip_idem (s : string) : Py.rstrip (Py.rstrip s) = Py.rstrip s.
Proof.
  unfold Py.rstrip. now rewrite rev_string_involutive, lstrip_idem.
Qed.

Lemma lstrip_rstrip_lstrip (s : string) :
  Py.lstrip (Py.rstrip (Py.lstrip s)) = Py.rstrip (Py.lstrip s).
Proof.
  destruct (lstrip_head s) as [->|(c & t & -> & Hc)]; [reflexivity|].
  unfold Py.rstrip. cbn [Py.rev_string].
  rewrite (rev_string_acc t (String c EmptyString)).
  rewrite lstrip_snoc_nonspace by assumption.
  rewrite rev_string_app. cbn [Py.rev_string append].
  now apply lstrip_nonspace_head.
Qed.

(** A stripped string is left unchanged by [strip]. *)
Lemma strip_idem (s : string) : Py.strip (Py.strip s) = Py.strip s.
Proof.
  unfold Py.strip. now rewrite lstrip_rstrip_lstrip, rstrip_idem.
Qed.

Lemma all_chars_lstrip p (s : string) :
  all_chars p s = true -> all_chars p (Py.lstrip s) = true.
Proof.
  induction s as [|c s IH]; cbn; [auto|]. intros H.
  apply andb_prop in H. destruct H as [Hc Hs].
  destruct (Py.isspace c); [auto | cbn; now rewrite Hc, Hs].
Qed.

Lemma all_chars_rev p (s : string) :
  all_chars p (Py.rev_string s EmptyString) = all_chars p s.
Proof.
  induction s as [|c s IH]; cbn; [reflexivity|].
  rewrite (rev_string_acc s (String c EmptyString)), all_chars_app, IH. cbn.
  now rewrite andb_true_r, andb_comm.
Qed.

(** [strip] only removes characters. *)
Lemma all_chars_strip p (s : string) :
  all_chars p s = true -> all_chars p (Py.strip s) = true.
Proof.
  intros H. unfold Py.strip, Py.rstrip.
  rewrite all_chars_rev. apply all_chars_lstrip.
  rewrite all_chars_rev. now apply all_chars_lstrip.
Qed.

Lemma all_chars_filter p q (s : string) :
  all_chars p s = true -> all_chars p (Py.filter_chars q s) = true.
Proof.
  induction s as [|c s IH]; cbn; [auto|]. intros H.
  apply andb_prop in H. destruct H as [Hc Hs].
  destruct (q c); [cbn; now rewrite Hc, IH | auto].
Qed.

Lemma all_chars_filtered q (s : string) :
  all_chars q (Py.filter_chars q s) = true.
Proof.
  induction s as [|c s IH]; cbn; [reflexivity|].
  destruct (q c) eqn:Hc; [cbn; now rewrite Hc | assumption].
Qed.

Lemma all_chars_and p q (s : string) :
  all_chars p s = true -> all_chars q s = true ->
  all_chars (fun c => p c && q c) s = true.
Proof.
  induction s as [|c s IH]; cbn; [auto|]. intros Hp Hq.
  apply andb_prop in Hp. apply andb_prop in Hq.
  destruct Hp as [-> Hp], Hq as [-> Hq]. cbn. auto.
Qed.

Lemma all_chars_impl (p q : ascii -> bool) (s : string) :
  (forall c, p c = true -> q c = true) ->
  all_chars p s = true -> all_chars q s = true.
Proof.
  intros Himp. induction s as [|c s IH]; cbn; [auto|]. intros H.
  apply andb_prop in H. destruct H as [Hc Hs].
  now rewrite (Himp c Hc), IH.
Qed.

Lemma strip_nonblank_stripped (pieces : list string) :
  Forall (fun s => s <> EmptyString /\ Py.strip s = s)
    (Py.strip_nonblank pieces).
Proof.
  induction pieces as [|x pieces IH]; cbn; [constructor|].
  destruct (Py.is_empty (Py.strip x)) eqn:Hx; [assumption|].
  constructor; [|assumption]. split; [|apply strip_idem].
  intros H. rewrite H in Hx. discriminate.
Qed.

Lemma strip_nonblank_chars p (pieces : list string) :
  Forall (fun s => all_chars p s = true) pieces ->
  Forall (fun s => all_chars p s = true) (Py.strip_nonblank pieces).
Proof.
  induction 1 as [|x pieces Hx _ IH]; cbn; [constructor|].
  destruct (Py.is_empty (Py.strip x)); [assumption|].
  constructor; [now apply all_chars_strip | assumption].
Qed.

Lemma length_substring_le (n : nat) (s : string) :
  String.length (String.substring 0 n s) <= n.
Proof.
  revert s. induction n as [|n IH]; intros [|c s]; cbn; try lia.
  specialize (IH s). lia.
Qed.

End StringFacts.

(** ** Text utilities *)

Module TextUtilsMore.

Import TextUtils StringSpec StringFacts.

Lemma nospace_all_chars (w : string) :
  nospace w = all_chars (fun c => negb (Py.isspace c)) w.
Proof. induction w as [|c w IH]; cbn; [reflexivity | now rewrite IH]. Qed.

(** X10: for a budget of at least one token, the text returned by
    [truncate_text] is estimated within the budget. *)
Theorem truncated_text_fits_budget :
  forall (text : string) (max_tokens : Z),
    (1 <= max_tokens)%Z ->
    (estimate_tokens (truncate_text text max_tokens) <= max_tokens)%Z.
Proof.
  intros text max_tokens Hmax. unfold truncate_text.
  destruct (Z.leb_spec (estimate_tokens text) max_tokens) as [Hfit|Hover];
    [assumption|].
  unfold Py.slice_to.
  assert (Hk : (0 <= Z.quot (max_tokens * 10) 13)%Z)
    by (apply Z.quot_pos; lia).
  destruct (Z.leb_spec 0 (Z.quot (max_tokens * 10) 13)); [|lia].
  set (k := Z.quot (max_tokens * 10) 13) in *.
  unfold estimate_tokens at 1.
  rewrite split_join_words_suffix.
  - assert (Hlen : List.length (firstn (Z.to_nat k) (Py.split text))
                   <= Z.to_nat k) by apply firstn_le_length.
    assert (H13 : (13 * k <= max_tokens * 10)%Z).
    { unfold k. apply Z.mul_quot_le; lia. }
    apply Z.lt_succ_r, Z.div_lt_upper_bound; lia.
  - pose proof (split_words text) as Hall.
    rewrite Forall_forall in *. intros w Hw. apply Hall.
    eapply KeywordProps.in_firstn; eassumption.
  - split; [discriminate | reflexivity].
Qed.

Lemma truncated_text_fits_budget_witness :
  (estimate_tokens (truncate_text Examples.long_text 101) <= 101)%Z.
Proof.
  apply (truncated_text_fits_budget Examples.long_text 101). lia.
Defined.

(** X11: a snippet is never longer than [snippet_length] characters plus
    the three dots of the ellipsis. *)
Theorem snippet_length_bounded :
  forall (chunk_content answer_text : string) (snippet_length : nat),
    String.length
      (extract_relevant_snippet chunk_content answer_text snippet_length)
    <= snippet_length + 3.
Proof.
  intros chunk_content answer_text snippet_length.
  unfold extract_relevant_snippet. cbv zeta.
  match goal with
  | |- context [if ?n <? String.length ?b then _ else _] =>
      destruct (Nat.ltb_spec n (String.length b))
  end.
  - rewrite string_length_app. unfold Py.str_take. cbn [String.length].
    pose proof (length_substring_le snippet_length
                  (if Py.is_empty
                        (best_sentence_loop
                           (Py.dedup (Py.split (Py.lower answer_text)))
                           (Py.split_on "." chunk_content) EmptyString 0)
                   then match Py.split_on "." chunk_content with
                        | first :: _ => Py.strip first
                        | [] =>
                            best_sentence_loop
                              (Py.dedup (Py.split (Py.lower answer_text)))
                              (Py.split_on "." chunk_content) EmptyString 0
                        end
                   else best_sentence_loop
                          (Py.dedup (Py.split (Py.lower answer_text)))
                          (Py.split_on "." chunk_content) EmptyString 0)).
    lia.
  - lia.
Qed.

(** *** [sanitize_query] *)

Lemma join_words_chars (ws : list string) :
  Forall word ws ->
  all_chars (fun c => negb (Py.isspace c) || Ascii.eqb c " ")
    (Py.join " " ws) = true.
Proof.
  unfold Py.join. induction 1 as [|w ws [_ Hw] _ IH]; [reflexivity|].
  assert (Hw' : all_chars (fun c => negb (Py.isspace c) || Ascii.eqb c " ")
                  w = true).
  { rewrite nospace_all_chars in Hw.
    eapply all_chars_impl; [|exact Hw]. cbn. now intros c ->. }
  destruct ws as [|w' ws]; [exact Hw'|].
  change (String.concat " " (w :: w' :: ws))
    with (w ++ String " " (String.concat " " (w' :: ws)))%string.
  rewrite all_chars_app, Hw'. cbn [all_chars andb]. rewrite IH.
  reflexivity.
Qed.

(** X12: the result of [sanitize_query] holds printable characters only
    and has no whitespace at either end. *)
Theorem sanitized_query_printable_and_stripped :
  forall query : string,
    all_chars Py.isprintable (sanitize_query query) = true
    /\ Py.strip (sanitize_query query) = sanitize_query query.
Proof.
  intros query. unfold sanitize_query. cbv zeta.
  split; [|apply strip_idem].
  apply all_chars_strip.
  eapply all_chars_impl;
    [| apply all_chars_and;
       [ apply all_chars_filter, join_words_chars, split_words
       | apply (all_chars_filtered
                  (fun char => Py.isprintable char || Py.isspace char)) ]].
  cbn. intros c H. apply andb_prop in H. destruct H as [H1 H2].
  destruct (Py.isspace c); cbn in H1, H2.
  - apply Ascii.eqb_eq in H1. now subst c.
  - now rewrite orb_false_r in H2.
Qed.

Lemma split_go_chars p (s cur : string) :
  all_chars p s = true -> all_chars p cur = true ->
  Forall (fun w => all_chars p w = true) (Py.split_go s cur).
Proof.
  revert cur. induction s as [|c s IH]; intros cur Hs Hcur; cbn in *.
  - destruct (Py.is_empty cur); now repeat constructor.
  - apply andb_prop in Hs. destruct Hs as [Hc Hs].
    destruct (Py.isspace c).
    + destruct (Py.is_empty cur); [now apply IH|].
      constructor; [assumption | now apply IH].
    + apply IH; [assumption|]. unfold Py.snoc.
      rewrite all_chars_app, Hcur. cbn. now rewrite Hc.
Qed.

Lemma join_chars p (ws : list string) :
  p " "%char = true ->
  Forall (fun w => all_chars p w = true) ws ->
  all_chars p (Py.join " " ws) = true.
Proof.
  intros Hsp. unfold Py.join.
  induction 1 as [|w ws Hw _ IH]; [reflexivity|].
  destruct ws as [|w' ws]; [exact Hw|].
  change (String.concat " " (w :: w' :: ws))
    with (w ++ String " " (String.concat " " (w' :: ws)))%string.
  rewrite all_chars_app, Hw. cbn [all_chars andb]. now rewrite Hsp, IH.
Qed.

Lemma filter_chars_all p (s : string) :
  all_chars p s = true -> Py.filter_chars p s = s.
Proof.
  induction s as [|c s IH]; cbn; [reflexivity|]. intros H.
  apply andb_prop in H. destruct H as [-> Hs]. now rewrite IH.
Qed.

Lemma word_last (w : string) :
  word w ->
  exists u c, w = (u ++ String c EmptyString)%string
              /\ Py.isspace c = false.
Proof.
  intros [Hne Hw]. induction w as [|x w IH]; [congruence|].
  cbn in Hw. apply andb_prop in Hw. destruct Hw as [Hx Hw].
  destruct w as [|y w].
  - exists EmptyString, x. split; [reflexivity|].
    now destruct (Py.isspace x).
  - destruct IH as (u & c & Hu & Hc); [discriminate | assumption |].
    exists (String x u), c. cbn. now rewrite Hu.
Qed.

Lemma rstrip_snoc_nonspace (u : string) (c : ascii) :
  Py.isspace c = false ->
  Py.rstrip (u ++ String c EmptyString) = (u ++ String c EmptyString)%string.
Proof.
  intros Hc. unfold Py.rstrip. rewrite rev_string_app. cbn [Py.rev_string].
  cbn [append]. rewrite lstrip_nonspace_head by assumption.
  cbn [Py.rev_string].
  rewrite (rev_string_acc _ (String c EmptyString)).
  now rewrite rev_string_involutive.
Qed.

(** Words joined by single spaces have no whitespace at either end. *)
Lemma strip_join_words (ws : list string) :
  Forall word ws -> Py.strip (Py.join " " ws) = Py.join " " ws.
Proof.
  intros Hws. unfold Py.strip.
  assert (Hl : Py.lstrip (Py.join " " ws) = Py.join " " ws).
  { unfold Py.join. destruct Hws as [|w ws [Hne Hw] Hws]; [reflexivity|].
    destruct w as [|x w]; [congruence|].
    cbn in Hw. apply andb_prop in Hw. destruct Hw as [Hx _].
    destruct ws; cbn; destruct (Py.isspace x); (discriminate || reflexivity). }
  rewrite Hl.
  assert (Hr : Py.join " " ws = EmptyString
               \/ exists u c,
                    Py.join " " ws = (u ++ String c EmptyString)%string
                    /\ Py.isspace c = false).
  { clear Hl. unfold Py.join.
    induction Hws as [|w ws Hw Hws IH]; [now left|].
    right. destruct ws as [|w' ws].
    - now apply word_last.
    - destruct IH as [Hempty|(u & c & Hu & Hc)].
      + exfalso. destruct (Forall_inv Hws) as [Hne _].
        destruct w' as [|x w']; [congruence|].
        destruct ws; discriminate Hempty.
      + change (String.concat " " (w :: w' :: ws))
          with (w ++ String " " (String.concat " " (w' :: ws)))%string.
        rewrite Hu. exists (w ++ String " " u)%string, c.
        split; [|assumption]. now rewrite sapp_assoc. }
  destruct Hr as [->|(u & c & -> & Hc)]; [reflexivity|].
  now apply rstrip_snoc_nonspace.
Qed.

(** X14: on a query made of printable characters and whitespace,
    [sanitize_query] returns the words of the query joined by single
    spaces. *)
Theorem sanitize_query_normalises_whitespace :
  forall query : string,
    all_chars (fun c => Py.isprintable c || Py.isspace c) query = true ->
    sanitize_query query = Py.join " " (Py.split query).
Proof.
  intros query Hq. unfold sanitize_query. cbv zeta.
  rewrite filter_chars_all.
  - apply strip_join_words, split_words.
  - apply join_chars; [reflexivity|].
    now apply split_go_chars.
Qed.

Lemma sanitize_query_normalises_whitespace_witness :
  sanitize_query "  What   is a  zebra? "
  = Py.join " " (Py.split "  What   is a  zebra? ").
Proof.
  apply (sanitize_query_normalises_whitespace "  What   is a  zebra? ").
  vm_compute. reflexivity.
Defined.

(** *** [split_into_sentences] *)

Lemma split_end_marks_clean (s cur : string) (in_run : bool) :
  all_chars (fun c => negb (is_end_mark c)) cur = true ->
  Forall (fun p => all_chars (fun c => negb (is_end_mark c)) p = true)
    (split_end_marks s cur in_run).
Proof.
  revert cur in_run.
  induction s as [|c s IH]; intros cur in_run Hcur; cbn [split_end_marks].
  - now repeat constructor.
  - destruct (is_end_mark c) eqn:Hc.
    + destruct in_run; [now apply IH|].
      constructor; [assumption | now apply IH].
    + apply IH. unfold Py.snoc. rewrite all_chars_app, Hcur. cbn.
      now rewrite Hc.
Qed.

(** X13: every sentence returned by [split_into_sentences] is non-empty,
    has no whitespace at either end and contains none of [.], [!],
    [?]. *)
Theorem simple_sentences_are_clean :
  forall text : string,
    Forall (fun sentence =>
              sentence <> EmptyString
              /\ Py.strip sentence = sentence
              /\ all_chars (fun c => negb (is_end_mark c)) sentence = true)
      (split_into_sentences text).
Proof.
  intros text. unfold split_into_sentences. cbv zeta.
  pose proof (strip_nonblank_stripped
                (split_end_marks text EmptyString false)) as H1.
  pose proof (strip_nonblank_chars (fun c => negb (is_end_mark c))
                (split_end_marks text EmptyString false)
                (split_end_marks_clean text EmptyString false eq_refl))
    as H2.
  rewrite Forall_forall in *. intros x Hx.
  destruct (H1 x Hx). specialize (H2 x Hx). auto.
Qed.

End TextUtilsMore.

(** ** Lists *)

Module ListFacts.

Import ListSpec.

Lemma truthy_snoc {A : Type} (l : list A) (x : A) :
  Py.truthy (l ++ [x]) = true.
Proof. destruct l; reflexivity. Qed.

Lemma truthy_length {A : Type} (l : list A) :
  Py.truthy l = true <-> 0 < List.length l.
Proof. destruct l; cbn; split; (lia || congruence). Qed.

Lemma subseq_refl {A : Type} (l : list A) : subseq l l.
Proof. induction l; constructor; assumption. Qed.

Lemma subseq_app {A : Type} (a b c d : list A) :
  subseq a b -> subseq c d -> subseq (a ++ c) (b ++ d).
Proof. induction 1; cbn; intros; try constructor; auto. Qed.

Lemma subseq_in {A : Type} (a b : list A) (x : A) :
  subseq a b -> In x a -> In x b.
Proof.
  induction 1; cbn; intros Hin; [contradiction | | right; auto].
  destruct Hin; [now left | right; auto].
Qed.

Lemma firstn_succ_nth {A : Type} (l : list A) (j : nat) (d : A) :
  j < List.length l -> firstn (S j) l = firstn j l ++ [nth j l d].
Proof.
  revert j. induction l as [|x l IH]; intros [|j] Hj; cbn in *;
    try lia; [reflexivity|].
  f_equal. apply IH. lia.
Qed.

End ListFacts.

(** ** Chunking: invariants of the packing loop *)

Module ChunkingMore.

Import Chunking ChunkingSpec ChunkingMoreSpec ChunkingProps.
Import StringSpec StringFacts ListSpec ListFacts.

Section Packing.

Variable count_tokens : string -> nat.
Variables chunk_size chunk_overlap min_chunk_size : Z.
Variable document_id : UUID.
Variable metadata : Metadata.

Local Abbreviation pack :=
  (pack_loop chunk_size chunk_overlap document_id metadata).
Local Abbreviation close :=
  (close_chunk chunk_size chunk_overlap document_id metadata).
Local Abbreviation create :=
  (create_chunks_with_overlap count_tokens chunk_size chunk_overlap
     min_chunk_size document_id metadata).

(** An invariant of the packing loop is established by its two kinds of
    pass: the sentence is appended, with or without closing a chunk
    first.  [done] are the entries already consumed. *)
Lemma pack_loop_invariant (P : list SentInfo -> Packing -> Prop) sps tl :
  (forall done s rest st,
      sps = done ++ s :: rest -> P done st ->
      (chunk_size <? current_tokens st + si_tokens s)%Z
      && Py.truthy (current_chunk st) = false ->
      P (done ++ [s])
        (mkPacking (chunks st) (current_chunk st ++ [si_text s])
           (current_tokens st + si_tokens s) (current_start_char st)
           (next_index st))) ->
  (forall done s rest st,
      sps = done ++ s :: rest -> P done st ->
      (chunk_size <? current_tokens st + si_tokens s)%Z = true ->
      Py.truthy (current_chunk st) = true ->
      let st' := close sps tl (List.length done) s st in
      P (done ++ [s])
        (mkPacking (chunks st') (current_chunk st' ++ [si_text s])
           (current_tokens st' + si_tokens s) (current_start_char st')
           (next_index st'))) ->
  forall rest done st,
    sps = done ++ rest -> P done st ->
    P sps (pack sps tl rest (List.length done) st).
Proof.
  intros Hkeep Hclose.
  induction rest as [|s rest IH]; intros done st Hsps Hst.
  - rewrite app_nil_r in Hsps. now subst.
  - cbn [pack_loop].
    replace (S (List.length done)) with (List.length (done ++ [s]))
      by (rewrite length_app; cbn; lia).
    apply IH; [now rewrite <- app_assoc|].
    destruct ((chunk_size <? current_tokens st + si_tokens s)%Z
              && Py.truthy (current_chunk st)) eqn:Hcond.
    + apply andb_prop in Hcond. destruct Hcond as [Hover Htruthy].
      now apply (Hclose done s rest st).
    + now apply (Hkeep done s rest st).
Qed.

(** *** Chunk indices *)

Lemma numbered_snoc l c :
  map chunk_index l = map Z.of_nat (seq 0 (List.length l)) ->
  chunk_index c = Z.of_nat (List.length l) ->
  map chunk_index (l ++ [c])
  = map Z.of_nat (seq 0 (List.length (l ++ [c]))).
Proof.
  intros Hl Hc. rewrite length_app. cbn [List.length].
  rewrite Nat.add_1_r, seq_S, !map_app, Hl. cbn. now rewrite Hc.
Qed.

Lemma pack_loop_numbered sps tl :
  numbered (pack sps tl sps 0 (mkPacking [] [] 0 0 0)).
Proof.
  apply (pack_loop_invariant (fun _ st => numbered st) sps tl)
    with (done := []); [ | | reflexivity | split; reflexivity].
  - intros done s rest st _ [Hnext Hmap] _. split; assumption.
  - intros done s rest st _ [Hnext Hmap] _ _. cbn zeta.
    unfold close_chunk.
    destruct (overlap_walk chunk_overlap sps (List.length done) 0 [])
      as [[j1 ot] os]. unfold numbered. cbn.
    split.
    + rewrite length_app. cbn. lia.
    + apply numbered_snoc; [assumption | exact Hnext].
Qed.

(** *** Positions of the sentences *)

Lemma positions_loop_offsets sentences :
  forall cp tl,
    let '(sps, cp', tl') := positions_loop count_tokens sentences cp tl in
    cp' = (cp + Z.of_nat (total_length sentences + List.length sentences))%Z
    /\ (sentences <> [] -> tl' = (cp' - 1)%Z)
    /\ (sentences = [] -> tl' = tl)
    /\ (forall done s rest,
          sps = done ++ s :: rest ->
          si_start s
          = (cp + Z.of_nat (total_length (map si_text done)
                            + List.length done))%Z).
Proof.
  induction sentences as [|x rest IH]; intros cp tl; cbn [positions_loop].
  - cbn. split; [lia|]. split; [congruence|]. split; [reflexivity|].
    intros [|? ?] ? ? H; discriminate.
  - specialize (IH (cp + Z.of_nat (String.length x) + 1)%Z
                   (cp + Z.of_nat (String.length x) + 1 - 1)%Z).
    destruct (positions_loop count_tokens rest
                (cp + Z.of_nat (String.length x) + 1)
                (cp + Z.of_nat (String.length x) + 1 - 1))
      as [[infos cp'] tl'].
    destruct IH as (Hcp & Htl & Htl0 & Hstart).
    change (total_length (x :: rest))
      with (String.length x + total_length rest).
    split; [|split; [|split]].
    + cbn [List.length]. lia.
    + intros _. destruct rest as [|y rest].
      * rewrite (Htl0 eq_refl), Hcp. cbn. lia.
      * apply Htl. discriminate.
    + discriminate.
    + intros [|d done] s rest' Heq.
      * injection Heq as <- _. cbn. lia.
      * injection Heq as <- Heq. rewrite (Hstart _ _ _ Heq).
        cbn [map List.length si_text].
        change (total_length (x :: map si_text done))
          with (String.length x + total_length (map si_text done)).
        lia.
Qed.

Lemma positions_loop_length sentences cp tl :
  List.length (fst (fst (positions_loop count_tokens sentences cp tl)))
  = List.length sentences.
Proof.
  destruct (positions_loop_fields count_tokens sentences cp tl) as [H _].
  now rewrite <- H at 2; rewrite length_map.
Qed.

(** *** Number of chunks *)

Lemma pack_loop_counted sps tl :
  let st := pack sps tl sps 0 (mkPacking [] [] 0 0 0) in
  List.length (chunks st)
  + (if Py.truthy (current_chunk st) then 1 else 0) <= List.length sps
  /\ (sps <> [] -> Py.truthy (current_chunk st) = true).
Proof.
  apply (pack_loop_invariant
           (fun done st =>
              List.length (chunks st)
              + (if Py.truthy (current_chunk st) then 1 else 0)
              <= List.length done
              /\ (done <> [] -> Py.truthy (current_chunk st) = true))
           sps tl) with (done := []);
    [ | | reflexivity | cbn; split; [lia | congruence]].
  - intros done s rest st _ [Hlen _] _. cbn.
    rewrite truthy_snoc, length_app. cbn.
    split; [|reflexivity]. destruct (Py.truthy (current_chunk st)); lia.
  - intros done s rest st _ [Hlen _] _ Htruthy. cbn zeta.
    rewrite Htruthy in Hlen. unfold close_chunk.
    destruct (overlap_walk chunk_overlap sps (List.length done) 0 [])
      as [[j1 ot] os]. cbn.
    rewrite truthy_snoc, !length_app. cbn. split; [lia | reflexivity].
Qed.

(** *** Token counts *)

Lemma overlap_walk_tokens_nonneg sps :
  Forall (fun s => (0 <= si_tokens s)%Z) sps ->
  forall j1 ot os,
    (0 <= ot)%Z ->
    (0 <= snd (fst (overlap_walk chunk_overlap sps j1 ot os)))%Z.
Proof.
  intros Hpos. induction j1 as [|j IH]; intros ot os Hot;
    cbn [overlap_walk]; [assumption|].
  destruct (ot <=? chunk_overlap)%Z; [|assumption].
  destruct (ot + si_tokens (nth j sps no_sentence) <=? chunk_overlap)%Z;
    [|now apply IH].
  apply IH.
  destruct (Nat.lt_ge_cases j (List.length sps)) as [Hj|Hj].
  - rewrite Forall_forall in Hpos.
    specialize (Hpos _ (nth_In sps no_sentence Hj)). lia.
  - rewrite nth_overflow by assumption. cbn. lia.
Qed.

Lemma pack_loop_token_counts sps tl :
  (1 <= chunk_size)%Z ->
  Forall (fun s => (1 <= si_tokens s)%Z) sps ->
  let st := pack sps tl sps 0 (mkPacking [] [] 0 0 0) in
  Forall (fun c => (1 <= token_count c <= allowance chunk_size)%Z)
    (chunks st)
  /\ (0 <= current_tokens st)%Z
  /\ (Py.truthy (current_chunk st) = true -> (1 <= current_tokens st)%Z).
Proof.
  intros Hsize Hpos.
  assert (Hallow : (1 <= allowance chunk_size)%Z).
  { unfold allowance. apply Z.quot_le_lower_bound; lia. }
  assert (Hnonneg : Forall (fun s => (0 <= si_tokens s)%Z) sps).
  { eapply Forall_impl; [|exact Hpos]. cbn. intros; lia. }
  apply (pack_loop_invariant
           (fun _ st =>
              Forall (fun c => (1 <= token_count c <= allowance chunk_size)%Z)
                (chunks st)
              /\ (0 <= current_tokens st)%Z
              /\ (Py.truthy (current_chunk st) = true
                  -> (1 <= current_tokens st)%Z))
           sps tl) with (done := []);
    [ | | reflexivity | cbn; repeat split; [constructor | lia | congruence]].
  - intros done s rest st Hsps (Hall & H0 & H1) _. cbn.
    assert (Hs : (1 <= si_tokens s)%Z).
    { rewrite Forall_forall in Hpos. apply Hpos. subst sps.
      apply in_or_app. right. now left. }
    repeat split; [assumption | lia | intros _; lia].
  - intros done s rest st Hsps (Hall & H0 & H1) _ Htruthy. cbn zeta.
    assert (Hs : (1 <= si_tokens s)%Z).
    { rewrite Forall_forall in Hpos. apply Hpos. subst sps.
      apply in_or_app. right. now left. }
    specialize (H1 Htruthy).
    pose proof (overlap_walk_tokens_nonneg sps Hnonneg (List.length done)
                  0 [] (Z.le_refl 0)) as Hot.
    unfold close_chunk.
    destruct (overlap_walk chunk_overlap sps (List.length done) 0 [])
      as [[j1 ot] os]. cbn in Hot |- *.
    repeat split; [|lia | intros _; lia].
    apply Forall_app. split; [assumption|].
    constructor; [|constructor]. cbn. lia.
Qed.

(** *** A text that fits in one chunk *)

Lemma info_tokens_nonneg l :
  Forall (fun s => (0 <= si_tokens s)%Z) l -> (0 <= info_tokens l)%Z.
Proof.
  unfold info_tokens. induction 1 as [|x l Hx _ IH]; cbn in *; lia.
Qed.

Lemma pack_loop_never_closes sps tl :
  Forall (fun s => (0 <= si_tokens s)%Z) sps ->
  (info_tokens sps <= chunk_size)%Z ->
  pack sps tl sps 0 (mkPacking [] [] 0 0 0)
  = mkPacking [] (map si_text sps) (info_tokens sps) 0 0.
Proof.
  intros Hpos Hfit.
  apply (pack_loop_invariant
           (fun done st =>
              st = mkPacking [] (map si_text done) (info_tokens done) 0 0)
           sps tl) with (done := []); [ | | reflexivity | reflexivity].
  - intros done s rest st _ -> _. cbn.
    now rewrite map_app, info_tokens_app; unfold info_tokens; cbn;
      rewrite Z.add_0_r.
  - intros done s rest st Hsps -> Hover _. cbn in Hover. exfalso.
    subst sps. rewrite !info_tokens_app in Hfit.
    apply Forall_app in Hpos. destruct Hpos as [_ Hpos].
    inversion Hpos as [|? ? Hs Hrest]; subst.
    pose proof (info_tokens_nonneg rest Hrest).
    unfold info_tokens in Hfit at 2. cbn in Hfit.
    fold (info_tokens rest) in Hfit.
    destruct (Z.ltb_spec chunk_size (info_tokens done + si_tokens s));
      [lia | discriminate].
Qed.

(** *** End offsets *)

Lemma pack_loop_end_chars sps tl :
  (1 <= tl)%Z ->
  (forall done s rest,
      sps = done ++ s :: rest -> done <> [] -> (1 <= si_start s)%Z) ->
  let st := pack sps tl sps 0 (mkPacking [] [] 0 0 0) in
  Forall (fun c => (0 < end_char c <= tl)%Z) (chunks st).
Proof.
  intros Htl Hstart.
  apply (pack_loop_invariant
           (fun done st =>
              Forall (fun c => (0 < end_char c <= tl)%Z) (chunks st)
              /\ (done = [] -> current_chunk st = []))
           sps tl) with (done := []);
    [ | | reflexivity | split; [constructor | reflexivity]].
  - intros done s rest st _ [Hall _] _. cbn. split; [assumption|].
    intros H. now apply app_eq_nil in H.
  - intros done s rest st Hsps [Hall Hempty] _ Htruthy. cbn zeta.
    assert (Hdone : done <> []).
    { intros ->. rewrite (Hempty eq_refl) in Htruthy. discriminate. }
    specialize (Hstart done s rest Hsps Hdone).
    unfold close_chunk.
    destruct (overlap_walk chunk_overlap sps (List.length done) 0 [])
      as [[j1 ot] os]. cbn.
    split; [|intros H; now apply app_eq_nil in H].
    apply Forall_app. split; [assumption|].
    constructor; [|constructor]. cbn. lia.
Qed.

(** *** The overlap *)

Lemma overlap_walk_selects sps :
  forall j1 ot os,
    j1 <= List.length sps ->
    (ot <= chunk_overlap)%Z ->
    exists sel,
      subseq sel (firstn j1 sps)
      /\ overlap_walk chunk_overlap sps j1 ot os
         = (0, (info_tokens sel + ot)%Z, map si_text sel ++ os)
      /\ (info_tokens sel + ot <= chunk_overlap)%Z.
Proof.
  induction j1 as [|j IH]; intros ot os Hj Hot.
  - exists []. cbn. repeat split; [constructor | assumption].
  - cbn [overlap_walk].
    destruct (Z.leb_spec ot chunk_overlap); [|lia].
    rewrite (firstn_succ_nth sps j no_sentence) by lia.
    set (x := nth j sps no_sentence).
    destruct (Z.leb_spec (ot + si_tokens x) chunk_overlap) as [Hfit|Hnot].
    + destruct (IH (ot + si_tokens x)%Z (si_text x :: os)) as
        (sel & Hsub & Hrun & Hle); [lia | assumption |].
      exists (sel ++ [x]). split; [|split].
      * apply subseq_app; [assumption | apply subseq_refl].
      * rewrite Hrun, map_app, info_tokens_app, <- app_assoc.
        unfold info_tokens at 3. cbn. f_equal. f_equal. lia.
      * rewrite info_tokens_app. unfold info_tokens at 2. cbn. lia.
    + destruct (IH ot os) as (sel & Hsub & Hrun & Hle); [lia | assumption |].
      exists sel. split; [|split; assumption].
      rewrite <- (app_nil_r sel). apply subseq_app; [assumption|].
      repeat constructor.
Qed.

End Packing.

(** X4: when the sentences together have no more than [chunk_size]
    tokens, they are emitted as one chunk holding all of them, whatever
    [min_chunk_size] and [chunk_overlap] are. *)
Theorem sentences_that_fit_make_one_chunk :
  forall (count_tokens : string -> nat)
         (chunk_size chunk_overlap min_chunk_size : Z)
         (document_id : UUID) (metadata : Metadata)
         (sentences : list string),
    sentences <> [] ->
    (tokens_of count_tokens sentences <= chunk_size)%Z ->
    create_chunks_with_overlap count_tokens chunk_size chunk_overlap
      min_chunk_size document_id metadata sentences
    = [make_chunk chunk_size document_id metadata
         (Py.join " " sentences) 0 (tokens_of count_tokens sentences) 0
         (Z.of_nat (String.length (Py.join " " sentences)))].
Proof.
  intros count_tokens chunk_size chunk_overlap min_chunk_size document_id
    metadata sentences Hne Hfit.
  unfold create_chunks_with_overlap.
  pose proof (positions_loop_fields count_tokens sentences 0 0) as Hfields.
  pose proof (positions_loop_offsets count_tokens sentences 0 0) as Hoff.
  destruct (positions_loop count_tokens sentences 0 0) as [[sps cp] tl].
  cbn in Hfields. destruct Hfields as [Htext Htoks].
  destruct Hoff as (Hcp & Htl & _ & _). specialize (Htl Hne).
  assert (Hinfo : info_tokens sps = tokens_of count_tokens sentences).
  { unfold info_tokens, tokens_of. now rewrite Htoks. }
  assert (Hpos : Forall (fun s => (0 <= si_tokens s)%Z) sps).
  { rewrite Forall_forall. intros x Hx.
    apply (in_map si_tokens) in Hx. rewrite Htoks in Hx.
    apply in_map_iff in Hx. destruct Hx as (s & <- & _). lia. }
  rewrite pack_loop_never_closes by (assumption || (rewrite Hinfo; assumption)).
  unfold flush. cbn [chunks current_chunk current_tokens current_start_char
                     next_index List.length Nat.eqb].
  rewrite Htext, Hinfo, orb_true_r.
  destruct sentences as [|x rest]; [congruence|]. cbn [Py.truthy app].
  do 2 f_equal.
  rewrite length_join. cbn [String.length List.length].
  change (total_length (x :: rest))
    with (String.length x + total_length rest) in *.
  cbn [List.length] in Hcp. lia.
Qed.

Lemma sentences_that_fit_make_one_chunk_witness :
  create_chunks_with_overlap Examples.word_tokens 10 2 100 "doc" []
    ["One"; "Two"; "Ten"]
  = [make_chunk 10 "doc" [] (Py.join " " ["One"; "Two"; "Ten"]) 0
       (tokens_of Examples.word_tokens ["One"; "Two"; "Ten"]) 0
       (Z.of_nat (String.length (Py.join " " ["One"; "Two"; "Ten"])))].
Proof.
  apply (sentences_that_fit_make_one_chunk Examples.word_tokens 10 2 100
           "doc" [] ["One"; "Two"; "Ten"]).
  - discriminate.
  - vm_compute. discriminate.
Defined.

(** X5: for sentences that are non-empty strings (and
    [chunk_overlap >= 0]), every chunk has [start_char = 0] and an
    [end_char] that is positive and at most the length of the sentences
    joined by single spaces. *)
Theorem chunk_offsets_within_joined_text :
  forall (count_tokens : string -> nat)
         (chunk_size chunk_overlap min_chunk_size : Z)
         (document_id : UUID) (metadata : Metadata)
         (sentences : list string),
    (0 <= chunk_overlap)%Z ->
    Forall (fun s => s <> EmptyString) sentences ->
    Forall (fun c =>
              start_char c = 0%Z
              /\ (start_char c < end_char c
                  <= Z.of_nat (String.length (Py.join " " sentences)))%Z)
      (create_chunks_with_overlap count_tokens chunk_size chunk_overlap
         min_chunk_size document_id metadata sentences).
Proof.
  intros count_tokens chunk_size chunk_overlap min_chunk_size document_id
    metadata sentences Hov Hne.
  pose proof (every_start_char_zero count_tokens chunk_size chunk_overlap
                min_chunk_size document_id metadata Hov sentences) as Hzero.
  assert (Hends :
            Forall (fun c =>
                      (0 < end_char c
                       <= Z.of_nat (String.length (Py.join " " sentences)))%Z)
              (create_chunks_with_overlap count_tokens chunk_size
                 chunk_overlap min_chunk_size document_id metadata
                 sentences)).
  { unfold create_chunks_with_overlap.
    pose proof (positions_loop_fields count_tokens sentences 0 0) as Hfields.
    pose proof (positions_loop_offsets count_tokens sentences 0 0) as Hoff.
    destruct (positions_loop count_tokens sentences 0 0) as [[sps cp] tl].
    cbn in Hfields. destruct Hfields as [Htext _].
    destruct Hoff as (Hcp & Htl & Htl0 & Hstart).
    destruct sentences as [|x rest].
    { destruct sps; [|discriminate]. cbn. constructor. }
    specialize (Htl ltac:(discriminate)).
    assert (Hlen : tl = Z.of_nat (String.length (Py.join " " (x :: rest)))).
    { rewrite length_join. cbn [String.length List.length] in *. lia. }
    assert (Htotal : List.length (x :: rest) <= total_length (x :: rest)).
    { clear -Hne. induction Hne as [|y l Hy _ IH]; [cbn; lia|].
      change (total_length (y :: l))
        with (String.length y + total_length l).
      destruct y; [congruence|]. cbn [String.length List.length]. lia. }
    assert (Htl1 : (1 <= tl)%Z).
    { cbn [List.length] in *. lia. }
    pose proof (pack_loop_end_chars chunk_size chunk_overlap document_id
                  metadata sps tl Htl1) as Hall.
    rewrite <- Hlen. unfold flush.
    assert (Hall' : Forall (fun c => (0 < end_char c <= tl)%Z)
                      (chunks (pack_loop chunk_size chunk_overlap document_id
                                 metadata sps tl sps 0
                                 (mkPacking [] [] 0 0 0)))).
    { apply Hall. intros done s rest' Heq Hdone.
      rewrite (Hstart _ _ _ Heq). destruct done; [congruence|].
      cbn [List.length]. lia. }
    destruct (Py.truthy (current_chunk _)); [|assumption].
    destruct ((min_chunk_size <=? _)%Z || _); [|assumption].
    apply Forall_app. split; [assumption|].
    constructor; [|constructor]. cbn. lia. }
  rewrite Forall_forall in *. intros c Hc.
  specialize (Hzero c Hc). specialize (Hends c Hc).
  split; [assumption | lia].
Qed.

Lemma chunk_offsets_within_joined_text_witness :
  Forall (fun c =>
            start_char c = 0%Z
            /\ (start_char c < end_char c
                <= Z.of_nat (String.length
                               (Py.join " " ["One"; "Two"; "Ten"])))%Z)
    (create_chunks_with_overlap Examples.word_tokens 2 1 0 "doc" []
       ["One"; "Two"; "Ten"]).
Proof.
  apply (chunk_offsets_within_joined_text Examples.word_tokens 2 1 0 "doc"
           [] ["One"; "Two"; "Ten"]).
  - lia.
  - repeat constructor; discriminate.
Defined.

(** X6: when a chunk is closed before sentence [i], the next chunk is
    seeded with sentences taken, in their original order, from those
    before [i], and their token counts add up to at most
    [chunk_overlap]. *)
Theorem overlap_seed_within_limit :
  forall (chunk_size chunk_overlap : Z) (document_id : UUID)
         (metadata : Metadata) (sps : list SentInfo) (text_length : Z)
         (i : nat) (sent_info : SentInfo) (st : Packing),
    (0 <= chunk_overlap)%Z ->
    i <= List.length sps ->
    let st' :=
      close_chunk chunk_size chunk_overlap document_id metadata sps
        text_length i sent_info st in
    exists seed,
      subseq seed (firstn i sps)
      /\ current_chunk st' = map si_text seed
      /\ current_tokens st' = info_tokens seed
      /\ (current_tokens st' <= chunk_overlap)%Z.
Proof.
  intros chunk_size chunk_overlap document_id metadata sps text_length i
    sent_info st Hov Hi st'. subst st'. unfold close_chunk.
  destruct (overlap_walk_selects chunk_overlap sps i 0 [] Hi Hov)
    as (sel & Hsub & Hrun & Hle).
  rewrite Hrun. cbn. exists sel.
  rewrite app_nil_r, Z.add_0_r in *. auto.
Qed.

Lemma overlap_seed_within_limit_witness :
  let sps :=
    fst (fst (positions_loop Examples.word_tokens
                ["One"; "two three four five six"; "Ten"] 0 0)) in
  let st' :=
    close_chunk 6 2 "doc" [] sps 31 2 (nth 2 sps no_sentence)
      (mkPacking [] ["One"; "two three four five six"] 6 0 0) in
  current_chunk st' = ["One"]
  /\ exists seed,
       subseq seed (firstn 2 sps)
       /\ current_chunk st' = map si_text seed
       /\ current_tokens st' = info_tokens seed
       /\ (current_tokens st' <= 2)%Z.
Proof.
  split; [vm_compute; reflexivity|].
  apply (overlap_seed_within_limit 6 2 "doc" []
           (fst (fst (positions_loop Examples.word_tokens
                        ["One"; "two three four five six"; "Ten"] 0 0)))
           31 2).
  - lia.
  - vm_compute. lia.
Defined.

Lemma create_chunks_counted
    (count_tokens : string -> nat)
    (chunk_size chunk_overlap min_chunk_size : Z)
    (document_id : UUID) (metadata : Metadata) (sentences : list string) :
  List.length
    (create_chunks_with_overlap count_tokens chunk_size chunk_overlap
       min_chunk_size document_id metadata sentences)
  <= List.length sentences
  /\ (sentences <> [] ->
      create_chunks_with_overlap count_tokens chunk_size chunk_overlap
        min_chunk_size document_id metadata sentences <> []).
Proof.
  unfold create_chunks_with_overlap.
  pose proof (positions_loop_length count_tokens sentences 0 0) as Hlen.
  destruct (positions_loop count_tokens sentences 0 0) as [[sps cp] tl].
  cbn in Hlen.
  destruct (pack_loop_counted chunk_size chunk_overlap document_id metadata
              sps tl) as [Hcount Htruthy].
  cbn zeta in Hcount, Htruthy. unfold flush.
  set (st := pack_loop chunk_size chunk_overlap document_id metadata sps tl
               sps 0 (mkPacking [] [] 0 0 0)) in *.
  split.
  - destruct (Py.truthy (current_chunk st)).
    + destruct ((min_chunk_size <=? current_tokens st)%Z
                || (List.length (chunks st) =? 0)).
      * rewrite length_app. cbn. lia.
      * lia.
    + lia.
  - intros Hne. rewrite Htruthy.
    + destruct ((min_chunk_size <=? current_tokens st)%Z
                || (List.length (chunks st) =? 0)) eqn:Hkeep.
      * destruct (chunks st); discriminate.
      * apply orb_false_elim in Hkeep. destruct Hkeep as [_ Hzero].
        destruct (chunks st); [discriminate Hzero | discriminate].
    + intros ->. destruct sentences; [congruence | discriminate].
Qed.

(** X2: a non-empty list of sentences gives at least one chunk, and never
    more chunks than sentences. *)
Theorem chunk_count_between_one_and_sentences :
  forall (count_tokens : string -> nat)
         (chunk_size chunk_overlap min_chunk_size : Z)
         (document_id : UUID) (metadata : Metadata)
         (sentences : list string),
    let chunks :=
      create_chunks_with_overlap count_tokens chunk_size chunk_overlap
        min_chunk_size document_id metadata sentences in
    List.length chunks <= List.length sentences
    /\ (sentences <> [] -> chunks <> []).
Proof. intros. apply create_chunks_counted. Qed.

(** X3: with [chunk_size >= 1] and no sentence of zero tokens, the
    [token_count] recorded on every chunk lies between 1 and
    [int(chunk_size * 1.2)]. *)
Theorem token_count_between_one_and_allowance :
  forall (count_tokens : string -> nat)
         (chunk_size chunk_overlap min_chunk_size : Z)
         (document_id : UUID) (metadata : Metadata)
         (sentences : list string),
    (1 <= chunk_size)%Z ->
    Forall (fun s => 1 <= count_tokens s) sentences ->
    Forall (fun c => (1 <= token_count c <= allowance chunk_size)%Z)
      (create_chunks_with_overlap count_tokens chunk_size chunk_overlap
         min_chunk_size document_id metadata sentences).
Proof.
  intros count_tokens chunk_size chunk_overlap min_chunk_size document_id
    metadata sentences Hsize Hpos.
  unfold create_chunks_with_overlap.
  pose proof (positions_loop_fields count_tokens sentences 0 0) as Hfields.
  destruct (positions_loop count_tokens sentences 0 0) as [[sps cp] tl].
  cbn in Hfields. destruct Hfields as [_ Htoks].
  assert (Hpos' : Forall (fun s => (1 <= si_tokens s)%Z) sps).
  { rewrite Forall_forall. intros x Hx.
    apply (in_map si_tokens) in Hx. rewrite Htoks in Hx.
    apply in_map_iff in Hx. destruct Hx as (s & <- & Hs).
    rewrite Forall_forall in Hpos. specialize (Hpos s Hs). lia. }
  destruct (pack_loop_token_counts chunk_size chunk_overlap document_id
              metadata sps tl Hsize Hpos') as (Hall & H0 & H1).
  cbn zeta in Hall, H0, H1. unfold flush.
  destruct (Py.truthy (current_chunk _)) eqn:Htruthy; [|assumption].
  destruct ((min_chunk_size <=? _)%Z || _); [|assumption].
  apply Forall_app. split; [assumption|].
  constructor; [|constructor]. cbn. specialize (H1 eq_refl).
  assert ((1 <= allowance chunk_size)%Z)
    by (unfold allowance; apply Z.quot_le_lower_bound; lia).
  lia.
Qed.

Lemma token_count_between_one_and_allowance_witness :
  Forall (fun c => (1 <= token_count c <= allowance 2)%Z)
    (create_chunks_with_overlap Examples.word_tokens 2 1 0 "doc" []
       ["One"; "Two"; "Ten"]).
Proof.
  apply (token_count_between_one_and_allowance Examples.word_tokens 2 1 0
           "doc" [] ["One"; "Two"; "Ten"]).
  - lia.
  - repeat constructor.
Defined.

(** X1: the chunks of [create_chunks_with_overlap] carry the indices
    0, 1, ..., N-1 in the order of emission. *)
Theorem chunk_indices_count_from_zero :
  forall (count_tokens : string -> nat)
         (chunk_size chunk_overlap min_chunk_size : Z)
         (document_id : UUID) (metadata : Metadata)
         (sentences : list string),
    let chunks :=
      create_chunks_with_overlap count_tokens chunk_size chunk_overlap
        min_chunk_size document_id metadata sentences in
    map chunk_index chunks = map Z.of_nat (seq 0 (List.length chunks)).
Proof.
  intros count_tokens chunk_size chunk_overlap min_chunk_size document_id
    metadata sentences chunks. subst chunks.
  unfold create_chunks_with_overlap.
  destruct (positions_loop count_tokens sentences 0 0) as [[sps cp] tl].
  destruct (pack_loop_numbered chunk_size chunk_overlap document_id metadata
              sps tl) as [Hnext Hmap].
  unfold flush.
  destruct (Py.truthy (current_chunk _)); [|exact Hmap].
  destruct ((min_chunk_size <=? _)%Z || _); [|exact Hmap].
  apply numbered_snoc; [exact Hmap | exact Hnext].
Qed.

(** *** Page numbers and document identifiers *)

Section Pages.

Variable count_tokens : string -> nat.
Variables chunk_size chunk_overlap min_chunk_size : Z.
Variable split_by_sentences : string -> list string.
Variable document_id : UUID.

Lemma created_chunks_tagged metadata sentences :
  Forall (fun c =>
            cd_page_number c = dict_get metadata "page_number" (MInt 1)
            /\ cd_metadata c
               = Py.dict_set metadata "document_id" (MStr document_id))
    (create_chunks_with_overlap count_tokens chunk_size chunk_overlap
       min_chunk_size document_id metadata sentences).
Proof.
  unfold create_chunks_with_overlap.
  destruct (positions_loop count_tokens sentences 0 0) as [[sps cp] tl].
  assert (Hall :
            Forall (fun c =>
                      cd_page_number c
                      = dict_get metadata "page_number" (MInt 1)
                      /\ cd_metadata c
                         = Py.dict_set metadata "document_id"
                             (MStr document_id))
              (chunks (pack_loop chunk_size chunk_overlap document_id
                         metadata sps tl sps 0 (mkPacking [] [] 0 0 0)))).
  { apply (pack_loop_invariant chunk_size chunk_overlap document_id metadata
             (fun _ st =>
                Forall (fun c =>
                          cd_page_number c
                          = dict_get metadata "page_number" (MInt 1)
                          /\ cd_metadata c
                             = Py.dict_set metadata "document_id"
                                 (MStr document_id))
                  (chunks st))
             sps tl) with (done := []); [ | | reflexivity | constructor].
    - intros done s rest st _ Hall _. exact Hall.
    - intros done s rest st _ Hall _ _. cbn zeta. unfold close_chunk.
      destruct (overlap_walk chunk_overlap sps (List.length done) 0 [])
        as [[j1 ot] os]. cbn.
      apply Forall_app. split; [assumption|].
      repeat constructor. }
  unfold flush.
  destruct (Py.truthy (current_chunk _)); [|assumption].
  destruct ((min_chunk_size <=? _)%Z || _); [|assumption].
  apply Forall_app. split; [assumption|]. repeat constructor.
Qed.

Lemma page_number_recorded (metadata : Metadata) (p : Z) :
  let page_metadata := Py.dict_set metadata "page_number" (MInt p) in
  let used := Py.dict_set page_metadata "page_number" (MInt p) in
  dict_get used "page_number" (MInt 1) = MInt p
  /\ dict_get (Py.dict_set used "document_id" (MStr document_id))
       "page_number" (MInt 1) = MInt p
  /\ dict_get (Py.dict_set used "document_id" (MStr document_id))
       "document_id" (MInt 1) = MStr document_id.
Proof.
  cbn zeta. unfold dict_get.
  rewrite PyFacts.dict_find_set_same.
  rewrite PyFacts.dict_find_set_other by discriminate.
  rewrite !PyFacts.dict_find_set_same. auto.
Qed.

Lemma pages_loop_tagged pages metadata :
  Forall (fun c =>
            exists page,
              In page pages
              /\ Py.is_empty (Py.strip (page_text page)) = false
              /\ cd_page_number c = MInt (page_no page)
              /\ dict_get (cd_metadata c) "page_number" (MInt 1)
                 = MInt (page_no page)
              /\ dict_get (cd_metadata c) "document_id" (MInt 1)
                 = MStr document_id)
    (pages_loop count_tokens chunk_size chunk_overlap min_chunk_size
       split_by_sentences document_id pages metadata).
Proof.
  induction pages as [|page rest IH]; cbn [pages_loop]; [constructor|].
  assert (Hrest :
            Forall (fun c =>
                      exists page0,
                        In page0 (page :: rest)
                        /\ Py.is_empty (Py.strip (page_text page0)) = false
                        /\ cd_page_number c = MInt (page_no page0)
                        /\ dict_get (cd_metadata c) "page_number" (MInt 1)
                           = MInt (page_no page0)
                        /\ dict_get (cd_metadata c) "document_id" (MInt 1)
                           = MStr document_id)
              (pages_loop count_tokens chunk_size chunk_overlap
                 min_chunk_size split_by_sentences document_id rest
                 metadata)).
  { eapply Forall_impl; [|exact IH]. cbn.
    intros c (page0 & Hin & H). exists page0. split; [now right | exact H]. }
  destruct (Py.is_empty (Py.strip (page_text page))) eqn:Hblank;
    [exact Hrest|].
  apply Forall_app. split; [|exact Hrest].
  unfold chunk_text.
  destruct (Py.is_empty (page_text page) || _); [constructor|].
  eapply Forall_impl; [|apply created_chunks_tagged]. cbn.
  intros c [Hpage Hmeta]. exists page.
  destruct (page_number_recorded metadata (page_no page)) as (H1 & H2 & H3).
  cbn zeta in H1, H2, H3.
  split; [now left|]. split; [exact Hblank|].
  rewrite Hpage, Hmeta. auto.
Qed.

Lemma reindex_fields i l :
  map cd_content (reindex i l) = map cd_content l
  /\ map cd_page_number (reindex i l) = map cd_page_number l
  /\ map cd_metadata (reindex i l) = map cd_metadata l
  /\ map chunk_index (reindex i l)
     = map (fun k => (i + Z.of_nat k)%Z) (seq 0 (List.length l)).
Proof.
  revert i. induction l as [|c l IH]; intros i; cbn; [auto|].
  destruct (IH (i + 1)%Z) as (H1 & H2 & H3 & H4).
  rewrite H1, H2, H3, H4, Z.add_0_r, <- seq_shift, map_map.
  repeat split. f_equal. apply map_ext. intros k. lia.
Qed.

End Pages.

(** X7: the chunks of [chunk_by_pages] are numbered 0, 1, ..., N-1 across
    all pages, and re-numbering changes neither their contents nor their
    order. *)
Theorem pages_chunks_renumbered :
  forall (count_tokens : string -> nat)
         (chunk_size chunk_overlap min_chunk_size : Z)
         (split_by_sentences : string -> list string)
         (document_id : UUID) (pages : list Page) (metadata : Metadata),
    let chunks :=
      chunk_by_pages count_tokens chunk_size chunk_overlap min_chunk_size
        split_by_sentences document_id pages metadata in
    map chunk_index chunks = map Z.of_nat (seq 0 (List.length chunks))
    /\ map cd_content chunks
       = map cd_content
           (pages_loop count_tokens chunk_size chunk_overlap min_chunk_size
              split_by_sentences document_id pages metadata).
Proof.
  intros count_tokens chunk_size chunk_overlap min_chunk_size
    split_by_sentences document_id pages metadata out.
  subst out. unfold chunk_by_pages.
  destruct (reindex_fields 0
              (pages_loop count_tokens chunk_size chunk_overlap
                 min_chunk_size split_by_sentences document_id pages
                 metadata)) as (Hcontent & _ & _ & Hindex).
  split; [|exact Hcontent].
  rewrite Hindex. rewrite <- (length_map chunk_index (reindex 0 _)), Hindex.
  now rewrite length_map, length_seq.
Qed.

(** X8: every chunk of [chunk_by_pages] comes from a page whose text is
    not blank, carries that page's number, and records the page number and
    the document identifier in its metadata. *)
Theorem pages_chunks_keep_page_numbers :
  forall (count_tokens : string -> nat)
         (chunk_size chunk_overlap min_chunk_size : Z)
         (split_by_sentences : string -> list string)
         (document_id : UUID) (pages : list Page) (metadata : Metadata),
    Forall (fun c =>
              exists page,
                In page pages
                /\ Py.is_empty (Py.strip (page_text page)) = false
                /\ cd_page_number c = MInt (page_no page)
                /\ dict_get (cd_metadata c) "page_number" (MInt 1)
                   = MInt (page_no page)
                /\ dict_get (cd_metadata c) "document_id" (MInt 1)
                   = MStr document_id)
      (chunk_by_pages count_tokens chunk_size chunk_overlap min_chunk_size
         split_by_sentences document_id pages metadata).
Proof.
  intros count_tokens chunk_size chunk_overlap min_chunk_size
    split_by_sentences document_id pages metadata.
  unfold chunk_by_pages.
  pose proof (pages_loop_tagged count_tokens chunk_size chunk_overlap
                min_chunk_size split_by_sentences document_id pages metadata)
    as Hall.
  destruct (reindex_fields 0
              (pages_loop count_tokens chunk_size chunk_overlap
                 min_chunk_size split_by_sentences document_id pages
                 metadata)) as (_ & Hpage & Hmeta & _).
  revert Hall Hpage Hmeta.
  generalize (pages_loop count_tokens chunk_size chunk_overlap
                min_chunk_size split_by_sentences document_id pages metadata).
  generalize 0%Z.
  intros i l. revert i. induction l as [|c l IH]; intros i Hall Hp Hm;
    cbn [reindex]; [constructor|].
  inversion Hall as [|? ? Hc Hl]; subst.
  constructor.
  - cbn. exact Hc.
  - apply IH; [assumption | |]; cbn in Hp, Hm; congruence.
Qed.

(** X9: for parameters accepted by the constructor and a non-empty text,
    [estimate_chunk_count] returns the least [n >= 1] such that [n] chunks
    of [chunk_size - chunk_overlap] tokens hold all the tokens. *)
Theorem estimate_is_least_covering_count :
  forall (count_tokens : string -> nat) (chunk_size chunk_overlap : Z)
         (text : string),
    valid_parameters chunk_size chunk_overlap = true ->
    text <> EmptyString ->
    let tokens := Z.of_nat (count_tokens text) in
    let step := (chunk_size - chunk_overlap)%Z in
    exists n,
      estimate_chunk_count count_tokens chunk_size chunk_overlap text
      = Some n
      /\ (1 <= n)%Z
      /\ (tokens <= n * step)%Z
      /\ (n = 1%Z \/ ((n - 1) * step < tokens)%Z).
Proof.
  intros count_tokens chunk_size chunk_overlap text Hvalid Htext tokens step.
  unfold valid_parameters in Hvalid.
  apply andb_prop in Hvalid. destruct Hvalid as [Hvalid H3].
  apply andb_prop in Hvalid. destruct Hvalid as [H1 H2].
  destruct (Z.leb_spec chunk_size 0); [discriminate|].
  destruct (Z.ltb_spec chunk_overlap 0); [discriminate|].
  destruct (Z.leb_spec chunk_size chunk_overlap); [discriminate|].
  unfold estimate_chunk_count.
  destruct text as [|c text]; [congruence|]. cbn [Py.is_empty].
  fold tokens. fold step.
  destruct (Z.leb_spec step 0); [unfold step in *; lia|].
  destruct (Z.eqb_spec step 0); [lia|].
  eexists. split; [reflexivity|].
  pose proof (Z.mul_div_le (tokens + step - 1) step ltac:(lia)).
  pose proof (Z.mul_succ_div_gt (tokens + step - 1) step ltac:(lia)).
  set (q := ((tokens + step - 1) / step)%Z) in *.
  destruct (Z.max_spec 1 q) as [[Hlt ->]|[Hle ->]].
  - repeat split; [lia | nia | right; nia].
  - repeat split; [lia | nia | now left].
Qed.

Lemma estimate_is_least_covering_count_witness :
  exists n,
    estimate_chunk_count Examples.word_tokens 4 1 "a b c d e f g" = Some n
    /\ (1 <= n)%Z
    /\ (Z.of_nat (Examples.word_tokens "a b c d e f g") <= n * (4 - 1))%Z
    /\ (n = 1%Z
        \/ ((n - 1) * (4 - 1)
            < Z.of_nat (Examples.word_tokens "a b c d e f g"))%Z).
Proof.
  apply (estimate_is_least_covering_count Examples.word_tokens 4 1
           "a b c d e f g").
  - reflexivity.
  - discriminate.
Defined.

End ChunkingMore.

(** ** Citations *)

Module CitationMore.

Import TextUtils CitationManager CitationSpec StringSpec StringFacts.

(** *** [sorted(set(...))] *)

Lemma insert_uniq_in x l y :
  In y (Py.insert_uniq x l) <-> y = x \/ In y l.
Proof.
  induction l as [|z l IH]; cbn; [intuition|].
  destruct (Z.ltb_spec x z); cbn; [intuition|].
  destruct (Z.eqb_spec x z); cbn; [subst; intuition|].
  rewrite IH. intuition.
Qed.

Lemma sorted_set_in l y : In y (Py.sorted_set l) <-> In y l.
Proof.
  induction l as [|x l IH]; cbn; [reflexivity|].
  rewrite insert_uniq_in, IH. intuition.
Qed.

Lemma insert_uniq_sorted x l :
  Sorted.StronglySorted Z.lt l ->
  Sorted.StronglySorted Z.lt (Py.insert_uniq x l).
Proof.
  induction 1 as [|z l Hl IH Hz]; cbn; [repeat constructor|].
  destruct (Z.ltb_spec x z).
  - constructor; [now constructor|].
    constructor; [assumption|].
    eapply Forall_impl; [|exact Hz]. cbn. intros; lia.
  - destruct (Z.eqb_spec x z); [now constructor|].
    constructor; [assumption|].
    rewrite Forall_forall. intros y Hy. apply insert_uniq_in in Hy.
    destruct Hy as [->|Hy]; [lia|].
    rewrite Forall_forall in Hz. now apply Hz.
Qed.

Lemma sorted_set_sorted l : Sorted.StronglySorted Z.lt (Py.sorted_set l).
Proof.
  induction l as [|x l IH]; cbn; [constructor | now apply insert_uniq_sorted].
Qed.

(** *** Marker numbers *)

Lemma digits_value_nonneg (m : string) : (0 <= Py.digits_value m)%Z.
Proof.
  unfold Py.digits_value.
  assert (H : forall l acc,
             (0 <= acc)%Z ->
             (0 <= fold_left
                     (fun acc c =>
                        (10 * acc + Z.of_nat (nat_of_ascii c - 48))%Z)
                     l acc)%Z).
  { induction l as [|c l IH]; intros acc Hacc; cbn [fold_left];
      [assumption|].
    apply IH. lia. }
  apply H. lia.
Qed.

Lemma ints_of_nonneg (matches : list string) :
  forall nums,
    ints_of matches = Some nums -> Forall (fun n => (0 <= n)%Z) nums.
Proof.
  induction matches as [|m rest IH]; intros nums; cbn [ints_of].
  - intros [= <-]. constructor.
  - unfold Py.int_of_digits.
    destruct (Py.int_max_str_digits <? String.length m); [discriminate|].
    destruct (ints_of rest) as [ns|]; [|discriminate].
    intros [= <-]. constructor; [apply digits_value_nonneg | now apply IH].
Qed.

Lemma markers_nonneg (text : string) (nums : list Z) :
  extract_citations_from_text text = Some nums ->
  Forall (fun n => (0 <= n)%Z) nums.
Proof. apply ints_of_nonneg. Qed.

(** The conversion of the markers fails exactly when one of them has more
    digits than [int] accepts. *)
Lemma ints_of_none (matches : list string) :
  ints_of matches = None
  <-> exists m, In m matches /\ Py.int_max_str_digits < String.length m.
Proof.
  induction matches as [|m rest IH]; cbn [ints_of].
  - split; [discriminate | intros (m & [] & _)].
  - unfold Py.int_of_digits.
    destruct (Nat.ltb_spec Py.int_max_str_digits (String.length m))
      as [Hlong|Hshort].
    + split; [|reflexivity]. intros _. exists m. split; [now left | exact Hlong].
    + destruct (ints_of rest) as [ns|].
      * split; [discriminate|]. intros (m' & [<-|Hin] & Hlong); [lia|].
        assert (Hnone : Some ns = None) by (apply IH; now exists m').
        discriminate.
      * split; [|reflexivity]. intros _.
        destruct (proj1 IH eq_refl) as (m' & Hin & Hlong).
        exists m'. split; [now right | exact Hlong].
Qed.

(** *** The loop *)

Lemma index_in {A : Type} (l : list A) (i : Z) (x : A) :
  Py.index l i = Some x -> In x l.
Proof.
  unfold Py.index.
  destruct (_ && _); [apply nth_error_In|].
  destruct (_ && _); [apply nth_error_In | discriminate].
Qed.

Lemma citations_loop_from_context answer_text chunks_used nums :
  forall acc out,
    Forall (fun c => exists r, In r chunks_used
                               /\ c = make_citation answer_text r) acc ->
    citations_loop answer_text chunks_used nums acc = Some out ->
    Forall (fun c => exists r, In r chunks_used
                               /\ c = make_citation answer_text r) out.
Proof.
  induction nums as [|n nums IH]; intros acc out Hacc Hrun;
    cbn [citations_loop] in Hrun.
  - now injection Hrun as <-.
  - destruct (n - 1 <? Z.of_nat (List.length chunks_used))%Z; [|eauto].
    destruct (Py.index chunks_used (n - 1)) as [r|] eqn:Hidx;
      [|discriminate].
    refine (IH _ _ _ Hrun).
    apply Forall_app. split; [assumption|].
    constructor; [|constructor]. exists r. split; [|reflexivity].
    eapply index_in, Hidx.
Qed.

Lemma citations_loop_resolves answer_text chunks_used nums :
  Forall (fun n => (1 <= n)%Z) nums ->
  forall acc,
    citations_loop answer_text chunks_used nums acc
    = Some (acc ++ flat_map (resolve answer_text chunks_used) nums).
Proof.
  induction 1 as [|n nums Hn _ IH]; intros acc; cbn [citations_loop flat_map].
  - now rewrite app_nil_r.
  - unfold resolve at 1. destruct (Z.leb_spec 1 n); [|lia].
    destruct (Z.ltb_spec (n - 1) (Z.of_nat (List.length chunks_used)))
      as [Hin|Hout].
    + unfold Py.index.
      destruct (Z.leb_spec 0 (n - 1)); [|lia].
      destruct (Z.ltb_spec (n - 1) (Z.of_nat (List.length chunks_used)));
        [|lia].
      cbn [andb].
      destruct (nth_error chunks_used (Z.to_nat (n - 1))) as [r|] eqn:Hr.
      * rewrite IH, <- app_assoc. reflexivity.
      * apply nth_error_None in Hr. lia.
    + assert (Hnone : nth_error chunks_used (Z.to_nat (n - 1)) = None)
        by (apply nth_error_None; lia).
      rewrite Hnone. cbn [app]. apply IH.
Qed.

(** X15: every citation returned by [extract_citations] is the citation
    of a hit of the context; with an empty context there is none. *)
Theorem citations_come_from_context :
  forall (answer_text : string) (chunks_used : list RetrievalResult),
    Forall (fun c => exists r, In r chunks_used
                               /\ c = make_citation answer_text r)
      (extract_citations answer_text chunks_used)
    /\ (chunks_used = [] -> extract_citations answer_text chunks_used = []).
Proof.
  intros answer_text chunks_used.
  assert (Hall : Forall (fun c => exists r, In r chunks_used
                                            /\ c = make_citation answer_text r)
                   (extract_citations answer_text chunks_used)).
  { unfold extract_citations, extract_citations_try.
    destruct (extract_citations_from_text answer_text) as [nums|];
      [|constructor].
    destruct (citations_loop _ _ _ []) as [out|] eqn:Hrun; [|constructor].
    eapply citations_loop_from_context; [|exact Hrun]. constructor. }
  split; [exact Hall|].
  intros ->. destruct (extract_citations answer_text []) as [|c l];
    [reflexivity|].
  inversion Hall as [|? ? (r & [] & _) _].
Qed.

(** X16: a marker of more than 4300 digits makes [int] raise, and then
    [extract_citations] returns no citation at all; this is the only way
    the reading of the markers fails.  When the markers are read and none
    has the number 0, the citations are, for the distinct marker numbers
    in ascending order, the citation of the hit at position [N - 1] for
    each [N] between 1 and the number of hits; the other numbers give
    nothing. *)
Theorem citations_follow_markers_in_order :
  forall (answer_text : string) (chunks_used : list RetrievalResult),
    (extract_citations_from_text answer_text = None
     <-> exists m, In m (findall_source answer_text 0)
                   /\ Py.int_max_str_digits < String.length m)
    /\ (extract_citations_from_text answer_text = None ->
        extract_citations answer_text chunks_used = [])
    /\ (forall markers,
          extract_citations_from_text answer_text = Some markers ->
          ~ In 0%Z markers ->
          exists numbers,
            Sorted.StronglySorted Z.lt numbers
            /\ (forall n, In n numbers <-> In n markers)
            /\ extract_citations answer_text chunks_used
               = flat_map (resolve answer_text chunks_used) numbers).
Proof.
  intros answer_text chunks_used.
  split; [apply ints_of_none|]. split.
  - intros Hnone. unfold extract_citations, extract_citations_try.
    now rewrite Hnone.
  - intros markers Hsome Hzero.
    exists (Py.sorted_set markers).
    split; [apply sorted_set_sorted|]. split; [apply sorted_set_in|].
    unfold extract_citations, extract_citations_try. rewrite Hsome.
    rewrite citations_loop_resolves; [reflexivity|].
    rewrite Forall_forall. intros n Hn.
    apply (proj1 (sorted_set_in _ _)) in Hn.
    pose proof (markers_nonneg answer_text markers Hsome) as Hpos.
    rewrite Forall_forall in Hpos. specialize (Hpos n Hn).
    assert (n <> 0%Z) by (intros ->; contradiction). lia.
Qed.

Lemma citations_follow_markers_in_order_witness :
  extract_citations_from_text
    "B [Source 2], A [Source 1], again [Source 2], [Source 9]."
  = Some [2; 1; 2; 9]%Z
  /\ exists numbers,
       Sorted.StronglySorted Z.lt numbers
       /\ (forall n, In n numbers <-> In n [2; 1; 2; 9]%Z)
       /\ extract_citations
            "B [Source 2], A [Source 1], again [Source 2], [Source 9]."
            [Examples.hit_07; Examples.hit_09]
          = flat_map
              (resolve
                 "B [Source 2], A [Source 1], again [Source 2], [Source 9]."
                 [Examples.hit_07; Examples.hit_09])
              numbers.
Proof.
  split; [vm_compute; reflexivity|].
  destruct (citations_follow_markers_in_order
              "B [Source 2], A [Source 1], again [Source 2], [Source 9]."
              [Examples.hit_07; Examples.hit_09]) as (_ & _ & Hread).
  apply (Hread [2; 1; 2; 9]%Z).
  - vm_compute. reflexivity.
  - intros [H|[H|[H|[H|[]]]]]; discriminate.
Defined.

(** A marker of 4301 digits beside a valid one: nothing is cited. *)
Example overlong_marker_voids_every_citation :
  let answer_text :=
    ("Cats [Source 1] and [Source " ++ Examples.ones 4301 ++ "].")%string in
  findall_source answer_text 0 = ["1"%string; Examples.ones 4301]
  /\ extract_citations_from_text answer_text = None
  /\ extract_citations answer_text [Examples.hit_07] = [].
Proof. repeat split; vm_compute; reflexivity. Qed.

(** *** Source labels and markers *)

Lemma digits_go_digits fuel :
  forall n acc,
    all_chars Py.isdigit acc = true ->
    all_chars Py.isdigit (Py.digits_go (S fuel) n acc) = true
    /\ Py.digits_go (S fuel) n acc <> EmptyString.
Proof.
  induction fuel as [|fuel IH]; intros n acc Hacc.
  - cbn [Py.digits_go].
    assert (Hd : Py.isdigit (ascii_of_nat (48 + n mod 10)) = true).
    { unfold Py.isdigit. rewrite nat_ascii_embedding.
      - pose proof (Nat.mod_upper_bound n 10 ltac:(lia)).
        apply andb_true_intro. split; apply Nat.leb_le; lia.
      - pose proof (Nat.mod_upper_bound n 10 ltac:(lia)). lia. }
    destruct (n / 10 =? 0); cbn [all_chars]; rewrite Hd, Hacc;
      split; (reflexivity || discriminate).
  - change (Py.digits_go (S (S fuel)) n acc)
      with (let acc' := String (ascii_of_nat (48 + n mod 10)) acc in
            if n / 10 =? 0 then acc'
            else Py.digits_go (S fuel) (n / 10) acc').
    cbv zeta.
    assert (Hd : Py.isdigit (ascii_of_nat (48 + n mod 10)) = true).
    { unfold Py.isdigit. rewrite nat_ascii_embedding.
      - pose proof (Nat.mod_upper_bound n 10 ltac:(lia)).
        apply andb_true_intro. split; apply Nat.leb_le; lia.
      - pose proof (Nat.mod_upper_bound n 10 ltac:(lia)). lia. }
    destruct (n / 10 =? 0).
    + cbn [all_chars]. rewrite Hd, Hacc. split; [reflexivity | discriminate].
    + apply IH. cbn [all_chars]. now rewrite Hd, Hacc.
Qed.

Lemma int_of_digits_go fuel :
  forall n acc,
    n < fuel ->
    exists ds,
      Py.digits_go fuel n acc = (ds ++ acc)%string
      /\ forall x,
           fold_left
             (fun a c => (10 * a + Z.of_nat (nat_of_ascii c - 48))%Z)
             (list_ascii_of_string ds) x
           = (x * 10 ^ Z.of_nat (String.length ds) + Z.of_nat n)%Z.
Proof.
  induction fuel as [|fuel IH]; intros n acc Hn; [lia|].
  cbn [Py.digits_go].
  assert (Hlt : n mod 10 < 10) by (apply Nat.mod_upper_bound; lia).
  assert (Hc : nat_of_ascii (ascii_of_nat (48 + n mod 10)) - 48 = n mod 10).
  { rewrite nat_ascii_embedding by lia. lia. }
  destruct (Nat.eqb_spec (n / 10) 0) as [Hz|Hnz].
  - exists (String (ascii_of_nat (48 + n mod 10)) EmptyString).
    split; [reflexivity|]. intros x. cbn [list_ascii_of_string fold_left].
    rewrite Hc. cbn [String.length].
    pose proof (Nat.div_mod_eq n 10) as H. change (Z.of_nat 1) with 1%Z.
    rewrite Hz, Nat.mul_0_r, Nat.add_0_l in H. rewrite <- H.
    rewrite Z.pow_1_r. ring.
  - destruct (IH (n / 10)
                (String (ascii_of_nat (48 + n mod 10)) acc)) as (ds & Hds & Hval).
    { assert (Hn0 : 0 < n) by (destruct n; [now cbn in Hnz | lia]).
      pose proof (Nat.div_lt n 10 Hn0 ltac:(lia)). lia. }
    exists (ds ++ String (ascii_of_nat (48 + n mod 10)) EmptyString)%string.
    split.
    + rewrite Hds, sapp_assoc. reflexivity.
    + intros x.
      assert (Hlist :
                list_ascii_of_string
                  (ds ++ String (ascii_of_nat (48 + n mod 10)) EmptyString)
                = list_ascii_of_string ds
                  ++ [ascii_of_nat (48 + n mod 10)]).
      { clear. generalize (ascii_of_nat (48 + n mod 10)). intros a.
        induction ds as [|c ds IHd]; cbn; [reflexivity|].
        now rewrite IHd. }
      rewrite Hlist, fold_left_app, Hval. cbn [fold_left]. rewrite Hc.
      rewrite string_length_app. cbn [String.length].
      rewrite Nat.add_1_r, Nat2Z.inj_succ, Z.pow_succ_r by lia.
      pose proof (Nat.div_mod_eq n 10) as H.
      apply (f_equal Z.of_nat) in H.
      rewrite Nat2Z.inj_add, Nat2Z.inj_mul in H.
      rewrite H. change (Z.of_nat 10) with 10%Z. ring.
Qed.

Lemma digits_value_str_of_nat (n : nat) :
  Py.digits_value (Py.str_of_nat n) = Z.of_nat n.
Proof.
  unfold Py.str_of_nat, Py.digits_value.
  destruct (int_of_digits_go (S n) n EmptyString) as (ds & Hds & Hval);
    [lia|].
  rewrite Hds, sapp_empty_r, Hval. lia.
Qed.

(** A number below [10^(k+1)] is written with at most [k + 1] digits. *)
Lemma digits_go_length (k : nat) :
  forall fuel n acc,
    (Z.of_nat n < 10 ^ Z.of_nat (S k))%Z ->
    String.length (Py.digits_go fuel n acc) <= S k + String.length acc.
Proof.
  induction k as [|k IH]; intros fuel n acc Hn;
    (destruct fuel as [|fuel]; [cbn [Py.digits_go]; lia|]);
    cbn [Py.digits_go];
    destruct (Nat.eqb_spec (n / 10) 0) as [Hz|Hnz];
    try (cbn [String.length]; lia).
  - exfalso. apply Hnz. apply Nat.div_small.
    change (10 ^ Z.of_nat 1)%Z with 10%Z in Hn. lia.
  - specialize (IH fuel (n / 10)
                  (String (ascii_of_nat (48 + n mod 10)) acc)).
    cbn [String.length] in IH.
    assert (Hdiv : (Z.of_nat (n / 10) < 10 ^ Z.of_nat (S k))%Z).
    { rewrite Nat2Z.inj_div. change (Z.of_nat 10) with 10%Z.
      apply Z.div_lt_upper_bound; [lia|].
      rewrite (Nat2Z.inj_succ (S k)), Z.pow_succ_r in Hn by lia.
      exact Hn. }
    specialize (IH Hdiv). lia.
Qed.

(** Round trip: [int(str(n)) = n], for [n] of at most 4300 digits. *)
Lemma int_of_str_of_nat (n : nat) :
  (Z.of_nat n < 10 ^ Z.of_nat Py.int_max_str_digits)%Z ->
  Py.int_of_digits (Py.str_of_nat n) = Some (Z.of_nat n).
Proof.
  intros Hn. unfold Py.int_of_digits.
  pose proof (digits_go_length 4299 (S n) n EmptyString Hn) as Hlen.
  fold (Py.str_of_nat n) in Hlen.
  change (S 4299) with Py.int_max_str_digits in Hlen.
  cbn [String.length] in Hlen.
  destruct (Nat.ltb_spec Py.int_max_str_digits
              (String.length (Py.str_of_nat n))); [lia|].
  now rewrite digits_value_str_of_nat.
Qed.

Lemma take_digits_all (ds : string) (c : ascii) (rest : string) :
  all_chars Py.isdigit ds = true ->
  Py.isdigit c = false ->
  take_digits (ds ++ String c rest) = (ds, String c rest).
Proof.
  intros Hds Hc. induction ds as [|d ds IH]; cbn in *.
  - now rewrite Hc.
  - apply andb_prop in Hds. destruct Hds as [Hd Hds].
    now rewrite Hd, IH.
Qed.

Lemma findall_source_skips (s : string) (k : nat) :
  String.length s <= k -> findall_source s k = [].
Proof.
  revert k. induction s as [|c s IH]; intros k Hk; [reflexivity|].
  cbn in Hk. destruct k as [|k]; [lia|]. cbn. apply IH. lia.
Qed.

Lemma marker_of_label (i : nat) :
  (Z.of_nat i + 1 < 10 ^ Z.of_nat Py.int_max_str_digits)%Z ->
  extract_citations_from_text (source_label i) = Some [(Z.of_nat i + 1)%Z].
Proof.
  intros Hsmall.
  unfold extract_citations_from_text, source_label, Py.str_of_Z.
  destruct (Z.ltb_spec (Z.of_nat i + 1) 0); [lia|].
  replace (Z.to_nat (Z.of_nat i + 1)) with (S i) by lia.
  destruct (digits_go_digits (S i) (S i) EmptyString eq_refl)
    as [Hdigits Hne].
  fold (Py.str_of_nat (S i)) in Hdigits, Hne.
  assert (Hmatch :
            match_source ("[Source " ++ Py.str_of_nat (S i) ++ "]")
            = Some (Py.str_of_nat (S i),
                    8 + String.length (Py.str_of_nat (S i)) + 1)).
  { unfold match_source. cbn [strip_prefix append Ascii.eqb Bool.eqb].
    rewrite take_digits_all by (assumption || reflexivity).
    destruct (Py.str_of_nat (S i)); [congruence | reflexivity]. }
  change ("[Source " ++ Py.str_of_nat (S i) ++ "]")%string
    with (String "[" ("Source " ++ Py.str_of_nat (S i) ++ "]"))%string
    in Hmatch |- *.
  cbn [findall_source]. rewrite Hmatch.
  rewrite findall_source_skips.
  - cbn [ints_of]. rewrite int_of_str_of_nat by lia.
    do 2 f_equal. lia.
  - cbn [append String.length]. rewrite string_length_app. cbn. lia.
Qed.

(** X17: the label that the context gives to the hit at position [i],
    [[Source i+1]], is the marker that [extract_citations] resolves to
    that same hit, for every position whose number [i + 1] has no more
    than the 4300 digits that [int] accepts. *)
Theorem source_label_resolves_to_its_hit :
  forall (chunks_used : list RetrievalResult) (i : nat)
         (result : RetrievalResult),
    nth_error chunks_used i = Some result ->
    (Z.of_nat i + 1 < 10 ^ Z.of_nat Py.int_max_str_digits)%Z ->
    (exists rest,
        ContextSpec.whole_block i result
        = (source_label i ++ rest)%string)
    /\ extract_citations_from_text (source_label i)
       = Some [(Z.of_nat i + 1)%Z]
    /\ extract_citations (source_label i) chunks_used
       = [make_citation (source_label i) result].
Proof.
  intros chunks_used i result Hnth Hsmall. split; [|split].
  - unfold ContextSpec.whole_block, Prompts.format_chunk_for_context,
      source_label. cbv zeta.
    eexists. rewrite !sapp_assoc. reflexivity.
  - now apply marker_of_label.
  - unfold extract_citations, extract_citations_try.
    rewrite marker_of_label by assumption.
    cbn [Py.sorted_set fold_right Py.insert_uniq citations_loop].
    assert (Hlt : i < List.length chunks_used)
      by (apply nth_error_Some; congruence).
    replace (Z.of_nat i + 1 - 1)%Z with (Z.of_nat i) by lia.
    destruct (Z.ltb_spec (Z.of_nat i) (Z.of_nat (List.length chunks_used)));
      [|lia].
    unfold Py.index.
    destruct (Z.leb_spec 0 (Z.of_nat i)); [|lia].
    destruct (Z.ltb_spec (Z.of_nat i) (Z.of_nat (List.length chunks_used)));
      [|lia].
    cbn [andb]. rewrite Nat2Z.id, Hnth. reflexivity.
Qed.

Lemma source_label_resolves_to_its_hit_witness :
  (exists rest,
      ContextSpec.whole_block 1 Examples.hit_09
      = (source_label 1 ++ rest)%string)
  /\ extract_citations_from_text (source_label 1)
     = Some [(Z.of_nat 1 + 1)%Z]
  /\ extract_citations (source_label 1) [Examples.hit_07; Examples.hit_09]
     = [make_citation (source_label 1) Examples.hit_09].
Proof.
  apply (source_label_resolves_to_its_hit
           [Examples.hit_07; Examples.hit_09] 1 Examples.hit_09).
  - reflexivity.
  - vm_compute. reflexivity.
Defined.

End CitationMore.

(** ** Diversity selection: what [select] returns in general *)

Module MMRMore.

Import MMRSelector MMRProps.

Local Open Scope Q_scope.

Lemma argmax_score_maximal l :
  forall pre best b,
    nth_error pre best = Some b ->
    Forall (fun r => score r <= score b) pre ->
    exists bj,
      nth_error (pre ++ l) (argmax_score l (List.length pre) best (score b))
      = Some bj
      /\ Forall (fun r => score r <= score bj) (pre ++ l).
Proof.
  induction l as [|r l IH]; intros pre best b Hb Hall; cbn [argmax_score].
  - exists b. rewrite app_nil_r. auto.
  - replace (pre ++ r :: l) with ((pre ++ [r]) ++ l)
      by now rewrite <- app_assoc.
    replace (S (List.length pre)) with (List.length (pre ++ [r]))
      by (rewrite length_app; cbn; lia).
    destruct (Qle_bool (score r) (score b)) eqn:Hle.
    + apply IH.
      * rewrite nth_error_app1; [assumption|].
        apply nth_error_Some. congruence.
      * apply Forall_app. split; [assumption|].
        constructor; [now apply Qle_bool_iff | constructor].
    + assert (Hlt : score b < score r).
      { apply Qnot_le_lt. intros H. apply Qle_bool_iff in H. congruence. }
      rewrite length_app. cbn [List.length]. rewrite Nat.add_1_r.
      replace (S (List.length pre)) with (List.length (pre ++ [r]))
        by (rewrite length_app; cbn; lia).
      apply IH.
      * rewrite nth_error_app2 by lia. now rewrite Nat.sub_diag.
      * apply Forall_app. split.
        -- eapply Forall_impl; [|exact Hall]. cbn. intros a Ha.
           apply Qlt_le_weak in Hlt. eapply Qle_trans; eassumption.
        -- constructor; [apply Qle_refl | constructor].
Qed.

Lemma max_by_score_maximal r rest :
  exists best,
    nth_error (r :: rest) (max_by_score (r :: rest)) = Some best
    /\ Forall (fun x => score x <= score best) (r :: rest).
Proof.
  unfold max_by_score.
  apply (argmax_score_maximal rest [r] 0 r); [reflexivity|].
  constructor; [apply Qle_refl | constructor].
Qed.

(** X18: [select] always returns, never by its exception fallback, hits
    of its input.  With no more hits than [top_k] it returns the input
    unchanged; with more hits it returns a single hit, one of maximal
    score, if [top_k] is positive and nothing otherwise. *)
Theorem select_returns_input_or_best_hit :
  forall (cosine_similarity : list Q -> list Q -> option Q)
         (lambda_param : Q) (results : list RetrievalResult) (top_k : Z),
    exists selected,
      select cosine_similarity lambda_param results top_k = Returned selected
      /\ (forall r, In r selected -> In r results)
      /\ ((Z.of_nat (List.length results) <= top_k)%Z -> selected = results)
      /\ ((top_k < Z.of_nat (List.length results))%Z ->
          if (0 <? top_k)%Z
          then exists best,
                 selected = [best]
                 /\ Forall (fun r => score r <= score best) results
          else selected = []).
Proof.
  intros cosine_similarity lambda_param results top_k.
  destruct (Z.leb_spec (Z.of_nat (List.length results)) top_k) as [Hle|Hgt].
  - exists results. unfold select.
    destruct results as [|r rest]; cbn [Py.truthy negb].
    + repeat split; (auto || lia).
    + destruct (Z.leb_spec (Z.of_nat (List.length (r :: rest))) top_k);
        [|lia].
      repeat split; (auto || lia).
  - rewrite (select_more_hits_than_top_k cosine_similarity lambda_param
               results top_k Hgt).
    destruct (Z.ltb_spec 0 top_k) as [Hpos|Hneg].
    + destruct results as [|r rest]; [cbn in Hgt; lia|].
      destruct (max_by_score_maximal r rest) as (best & Hbest & Hmax).
      rewrite Hbest. exists [best].
      split; [reflexivity|]. split.
      * intros x [<-|[]]. eapply nth_error_In, Hbest.
      * split; [lia|]. intros _. now exists best.
    + exists []. repeat split; (auto || lia || (intros ? [])).
Qed.

End MMRMore.

(** ** Ranked lists *)

Module RankingFacts.

Import RankingSpec.

Section Sorting.

Context {A : Type}.
Variable key : A -> Q.

Local Open Scope Q_scope.

Lemma insert_desc_descending x l :
  descending (map key l) -> descending (map key (Py.insert_desc key x l)).
Proof.
  unfold descending. induction l as [|y l IH]; cbn; intros Hs.
  - repeat constructor.
  - inversion Hs as [|? ? Hl Hy]; subst.
    destruct (Qle_bool (key y) (key x)) eqn:Hle; cbn.
    + apply Qle_bool_iff in Hle. constructor; [assumption|].
      constructor; [assumption|].
      eapply Forall_impl; [|exact Hy]. cbn. intros a Ha.
      eapply Qle_trans; eassumption.
    + assert (Hlt : key x < key y).
      { apply Qnot_le_lt. intros H. apply Qle_bool_iff in H. congruence. }
      constructor; [auto|].
      rewrite Forall_forall. intros q Hq. apply in_map_iff in Hq.
      destruct Hq as (z & <- & Hz).
      eapply Permutation_in in Hz; [|apply PyFacts.insert_desc_perm].
      destruct Hz as [<-|Hz]; [now apply Qlt_le_weak|].
      rewrite Forall_forall in Hy. apply Hy. now apply in_map.
Qed.

(** [sorted(..., reverse=True)] leaves the keys in non-increasing
    order. *)
Lemma sorted_desc_descending l : descending (map key (Py.sorted_desc key l)).
Proof.
  induction l as [|x l IH]; cbn; [constructor|].
  now apply insert_desc_descending.
Qed.

End Sorting.

Lemma descending_firstn n scores :
  descending scores -> descending (firstn n scores).
Proof.
  unfold descending. intros Hs. revert n.
  induction Hs as [|q l Hl IH Hq]; intros [|n]; cbn; try constructor.
  - apply IH.
  - rewrite Forall_forall in *. intros x Hx. apply Hq.
    eapply KeywordProps.in_firstn, Hx.
Qed.

Lemma descending_slice_to scores k :
  descending scores -> descending (Py.slice_to scores k).
Proof.
  unfold Py.slice_to. destruct (0 <=? k)%Z; apply descending_firstn.
Qed.

Lemma descending_filter f scores :
  descending scores -> descending (filter f scores).
Proof.
  unfold descending. induction 1 as [|q l Hl IH Hq]; cbn; [constructor|].
  destruct (f q); [|assumption].
  constructor; [assumption|].
  rewrite Forall_forall in *. intros x Hx. apply filter_In in Hx.
  now apply Hq.
Qed.

Lemma map_slice_to {A B : Type} (f : A -> B) (l : list A) (k : Z) :
  map f (Py.slice_to l k) = Py.slice_to (map f l) k.
Proof.
  unfold Py.slice_to. rewrite length_map.
  destruct (0 <=? k)%Z; symmetry; apply firstn_map.
Qed.

Lemma slice_to_length {A : Type} (l : list A) (k : Z) :
  (0 <= k)%Z -> (Z.of_nat (List.length (Py.slice_to l k)) <= k)%Z.
Proof.
  intros Hk. unfold Py.slice_to. destruct (Z.leb_spec 0 k); [|lia].
  pose proof (firstn_le_length (Z.to_nat k) l).
  rewrite length_firstn. lia.
Qed.

End RankingFacts.

(** ** Hybrid retrieval: ranking, provenance and the failing ranks *)

Module HybridMore.

Import HybridRetriever HybridSpec RankingSpec PyFacts.

Section Loops.

Variable rrf_k : Z.

(** Whatever the loops store in [chunk_map] is one of the hits they were
    given. *)
Lemma semantic_loop_keeps (P : RetrievalResult -> Prop) results :
  Forall P results ->
  forall rank cs cm cs' cm',
    (forall c res, Py.dict_find cm c = Some res -> P res) ->
    semantic_loop rrf_k results rank cs cm = Some (cs', cm') ->
    forall c res, Py.dict_find cm' c = Some res -> P res.
Proof.
  induction 1 as [|result rest Hr _ IH]; intros rank cs cm cs' cm' Hcm Hrun;
    cbn [semantic_loop] in Hrun.
  - now injection Hrun as <- <-.
  - destruct (rrf_score rrf_k rank) as [s|]; [|discriminate].
    refine (IH _ _ _ _ _ _ Hrun).
    intros c res. rewrite dict_find_set.
    destruct (String.eqb _ c); [now intros [= <-] | apply Hcm].
Qed.

Lemma keyword_loop_keeps (P : RetrievalResult -> Prop) results :
  Forall P results ->
  forall rank cs cm cs' cm',
    (forall c res, Py.dict_find cm c = Some res -> P res) ->
    keyword_loop rrf_k results rank cs cm = Some (cs', cm') ->
    forall c res, Py.dict_find cm' c = Some res -> P res.
Proof.
  induction 1 as [|result rest Hr _ IH]; intros rank cs cm cs' cm' Hcm Hrun;
    cbn [keyword_loop] in Hrun.
  - now injection Hrun as <- <-.
  - destruct (rrf_score rrf_k rank) as [s|]; [|discriminate].
    destruct (Py.dict_find cs _) as [old|].
    + exact (IH _ _ _ _ _ Hcm Hrun).
    + refine (IH _ _ _ _ _ _ Hrun).
      intros c res. rewrite dict_find_set.
      destruct (String.eqb _ c); [now intros [= <-] | apply Hcm].
Qed.

Lemma final_loop_results (P : RetrievalResult -> Prop) cm items :
  (forall c res, Py.dict_find cm c = Some res -> P res) ->
  forall results,
    final_loop cm items = Some results ->
    map score results = map snd items
    /\ Forall (fun r => method r = "hybrid"
                        /\ exists h, P h /\ chunk r = chunk h) results.
Proof.
  intros Hcm. induction items as [|[c s] items IH]; intros results Hrun;
    cbn [final_loop] in Hrun.
  - injection Hrun as <-. split; [reflexivity | constructor].
  - destruct (Py.dict_find cm c) as [res|] eqn:Hres; [|discriminate].
    destruct (final_loop cm items) as [rs|]; [|discriminate].
    injection Hrun as <-. destruct (IH rs eq_refl) as [Hs Hall].
    split; [cbn; now rewrite Hs|].
    constructor; [|assumption]. cbn. split; [reflexivity|].
    exists res. split; [eapply Hcm, Hres | reflexivity].
Qed.

(** The fused list is ranked by score, tagged "hybrid", and made of the
    chunks of the given hits. *)
Lemma fusion_ranked semantic_results keyword_results fused :
  _reciprocal_rank_fusion rrf_k semantic_results keyword_results
  = Some fused ->
  descending (map score fused)
  /\ Forall (fun r => method r = "hybrid"
                      /\ exists h,
                           In h (semantic_results ++ keyword_results)
                           /\ chunk r = chunk h) fused.
Proof.
  unfold _reciprocal_rank_fusion. intros Hrun.
  destruct (semantic_loop rrf_k semantic_results 0 [] [])
    as [[cs1 cm1]|] eqn:Hrun1; [|discriminate].
  destruct (keyword_loop rrf_k keyword_results 0 cs1 cm1)
    as [[cs2 cm2]|] eqn:Hrun2; [|discriminate].
  set (P := fun h => In h (semantic_results ++ keyword_results)).
  assert (Hcm2 : forall c res, Py.dict_find cm2 c = Some res -> P res).
  { eapply (keyword_loop_keeps P); [| |exact Hrun2].
    - rewrite Forall_forall. intros h Hh. apply in_or_app. now right.
    - eapply (semantic_loop_keeps P); [| |exact Hrun1].
      + rewrite Forall_forall. intros h Hh. apply in_or_app. now left.
      + discriminate. }
  destruct (final_loop_results P cm2 _ Hcm2 fused Hrun) as [Hs Hall].
  split; [|exact Hall].
  rewrite Hs. apply RankingFacts.sorted_desc_descending.
Qed.

(** The ranks whose score cannot be computed: the denominator is zero or
    does not convert to a float. *)
Lemma rrf_score_none rank :
  rrf_score rrf_k rank = None
  <-> (rrf_k + Z.of_nat rank + 1 = 0)%Z
      \/ (Py.float_overflow <= Z.abs (rrf_k + Z.of_nat rank + 1))%Z.
Proof.
  unfold rrf_score.
  destruct (Z.leb_spec Py.float_overflow
              (Z.abs (rrf_k + Z.of_nat rank + 1))) as [Hbig|Hsmall].
  - split; [now right | reflexivity].
  - destruct (Z.eqb_spec (rrf_k + Z.of_nat rank + 1) 0) as [Hz|Hnz].
    + split; [now left | reflexivity].
    + split; [discriminate | lia].
Qed.

(** Each loop either meets such a rank and raises, or meets none and
    returns dictionaries that agree on their keys. *)
Lemma semantic_loop_outcome results :
  forall rank cs cm,
    well_keyed cs cm ->
    ((exists j, j < List.length results
                /\ rrf_score rrf_k (rank + j) = None)
     /\ semantic_loop rrf_k results rank cs cm = None)
    \/ ((forall j, j < List.length results ->
                   rrf_score rrf_k (rank + j) <> None)
        /\ exists cs' cm',
             semantic_loop rrf_k results rank cs cm = Some (cs', cm')
             /\ well_keyed cs' cm').
Proof.
  induction results as [|result rest IH]; intros rank cs cm Hwk;
    cbn [semantic_loop List.length].
  - right. split; [intros j Hj; lia | now exists cs, cm].
  - destruct (rrf_score rrf_k rank) as [s|] eqn:Hs.
    + destruct (IH (S rank) (Py.dict_set cs (id (chunk result)) s)
                  (Py.dict_set cm (id (chunk result)) result))
        as [[(j & Hj & Hnone) Hrun]|[Hall Hrun]].
      * now apply HybridProps.well_keyed_set.
      * left. split; [|exact Hrun]. exists (S j).
        split; [lia|]. now rewrite Nat.add_succ_r.
      * right. split; [|exact Hrun]. intros [|j] Hj.
        -- rewrite Nat.add_0_r. congruence.
        -- rewrite Nat.add_succ_r. apply Hall. lia.
    + left. split; [|reflexivity]. exists 0.
      split; [lia | now rewrite Nat.add_0_r].
Qed.

Lemma keyword_loop_outcome results :
  forall rank cs cm,
    well_keyed cs cm ->
    ((exists j, j < List.length results
                /\ rrf_score rrf_k (rank + j) = None)
     /\ keyword_loop rrf_k results rank cs cm = None)
    \/ ((forall j, j < List.length results ->
                   rrf_score rrf_k (rank + j) <> None)
        /\ exists cs' cm',
             keyword_loop rrf_k results rank cs cm = Some (cs', cm')
             /\ well_keyed cs' cm').
Proof.
  induction results as [|result rest IH]; intros rank cs cm Hwk;
    cbn [keyword_loop List.length].
  - right. split; [intros j Hj; lia | now exists cs, cm].
  - destruct (rrf_score rrf_k rank) as [s|] eqn:Hs.
    + assert (Hstep :
                forall cs1 cm1,
                  well_keyed cs1 cm1 ->
                  ((exists j, j < S (List.length rest)
                              /\ rrf_score rrf_k (rank + j) = None)
                   /\ keyword_loop rrf_k rest (S rank) cs1 cm1 = None)
                  \/ ((forall j, j < S (List.length rest) ->
                                 rrf_score rrf_k (rank + j) <> None)
                      /\ exists cs' cm',
                           keyword_loop rrf_k rest (S rank) cs1 cm1
                           = Some (cs', cm')
                           /\ well_keyed cs' cm')).
      { intros cs1 cm1 Hwk1.
        destruct (IH (S rank) cs1 cm1 Hwk1)
          as [[(j & Hj & Hnone) Hrun]|[Hall Hrun]].
        - left. split; [|exact Hrun]. exists (S j).
          split; [lia|]. now rewrite Nat.add_succ_r.
        - right. split; [|exact Hrun]. intros [|j] Hj.
          + rewrite Nat.add_0_r. congruence.
          + rewrite Nat.add_succ_r. apply Hall. lia. }
      destruct (Py.dict_find cs (id (chunk result))) as [old|] eqn:Hold.
      * apply Hstep.
        apply HybridProps.well_keyed_update; [congruence | assumption].
      * apply Hstep. now apply HybridProps.well_keyed_set.
    + left. split; [|reflexivity]. exists 0.
      split; [lia | now rewrite Nat.add_0_r].
Qed.

End Loops.

(** X19: fusion fails exactly when, for the rank of a hit of one of the
    two lists, the denominator [rrf_k + rank + 1] is zero
    ([ZeroDivisionError]) or too large in absolute value to be converted
    to a float ([OverflowError]); in every other case it returns a list
    (the look-ups of its last loop never fail, also when a chunk is
    repeated). *)
Theorem fusion_fails_exactly_at_an_unusable_denominator :
  forall (rrf_k : Z) (semantic_results keyword_results : list RetrievalResult),
    _reciprocal_rank_fusion rrf_k semantic_results keyword_results = None
    <-> exists rank,
          (rank < List.length semantic_results
           \/ rank < List.length keyword_results)
          /\ ((rrf_k + Z.of_nat rank + 1 = 0)%Z
              \/ (Py.float_overflow
                  <= Z.abs (rrf_k + Z.of_nat rank + 1))%Z).
Proof.
  intros rrf_k sem kw. unfold _reciprocal_rank_fusion.
  assert (Hwk0 : well_keyed [] []).
  { repeat split; [constructor | discriminate | auto]. }
  destruct (semantic_loop_outcome rrf_k sem 0 [] [] Hwk0)
    as [[(j & Hj & Hnone) ->]|[Hsem (cs1 & cm1 & -> & Hwk1)]].
  { split; [|reflexivity]. intros _. exists j.
    split; [now left | now apply rrf_score_none]. }
  destruct (keyword_loop_outcome rrf_k kw 0 cs1 cm1 Hwk1)
    as [[(j & Hj & Hnone) ->]|[Hkw (cs2 & cm2 & -> & Hwk2)]].
  { split; [|reflexivity]. intros _. exists j.
    split; [now right | now apply rrf_score_none]. }
  split.
  - intros Hnone. exfalso.
    destruct Hwk2 as (Hnd2 & Hid2 & Hsub2).
    destruct (HybridProps.final_loop_items cm2 (Py.sorted_desc snd cs2))
      as (fused & Hrun3 & _); [|congruence].
    intros c Hc.
    assert (Hin : In c (map fst cs2)).
    { eapply Permutation_in;
        [apply Permutation_map, sorted_desc_perm | exact Hc]. }
    apply dict_find_keys, Hsub2 in Hin.
    destruct (Py.dict_find cm2 c) as [res|] eqn:Hres; [|congruence].
    exists res. split; [reflexivity | now apply Hid2].
  - intros (rank & Hrank & Hbad). exfalso.
    apply rrf_score_none in Hbad.
    destruct Hrank as [Hrank|Hrank].
    + now apply (Hsem rank Hrank).
    + now apply (Hkw rank Hrank).
Qed.

Lemma fusion_fails_exactly_at_an_unusable_denominator_witness :
  _reciprocal_rank_fusion (-2) [Examples.hit_07; Examples.hit_09] [] = None
  /\ _reciprocal_rank_fusion (2 ^ 1024) [Examples.hit_07] [] = None
  /\ _reciprocal_rank_fusion (-2) [Examples.hit_07] [] <> None.
Proof.
  split; [|split].
  - apply (fusion_fails_exactly_at_an_unusable_denominator (-2)
             [Examples.hit_07; Examples.hit_09] []).
    exists 1. split; [left; cbn; lia | left; reflexivity].
  - apply (fusion_fails_exactly_at_an_unusable_denominator (2 ^ 1024)
             [Examples.hit_07] []).
    exists 0. split; [left; cbn; lia | right; vm_compute; discriminate].
  - intros Hnone.
    apply (fusion_fails_exactly_at_an_unusable_denominator (-2)
             [Examples.hit_07] []) in Hnone.
    destruct Hnone as (rank & [Hrank|Hrank] & [Hzero|Hbig]);
      cbn in Hrank; try lia.
    revert Hbig. replace rank with 0 by lia. vm_compute. auto.
Defined.

(** X20: whatever hybrid [retrieve] returns is ranked by non-increasing
    fused score, every hit is tagged "hybrid" and carries the chunk of a
    hit that one of the two retrievers returned for [top_k * 2], and for
    [top_k >= 0] there are at most [top_k] hits. *)
Theorem hybrid_hits_ranked_tagged_and_bounded :
  forall (rrf_k : Z)
         (semantic keyword : string -> Z -> option UUID
                             -> option (list RetrievalResult))
         (query : string) (top_k : Z) (upload : option UUID)
         (hits : list RetrievalResult),
    retrieve rrf_k semantic keyword query top_k upload = Some hits ->
    descending (map score hits)
    /\ Forall (fun r => method r = "hybrid") hits
    /\ (forall r, In r hits ->
          exists found h,
            (semantic query (top_k * 2)%Z upload = Some found
             \/ keyword query (top_k * 2)%Z upload = Some found)
            /\ In h found /\ chunk r = chunk h)
    /\ ((0 <= top_k)%Z -> (Z.of_nat (List.length hits) <= top_k)%Z).
Proof.
  intros rrf_k semantic keyword query top_k upload hits. unfold retrieve.
  destruct (semantic query (top_k * 2)%Z upload) as [sem|] eqn:Hsem;
    [|discriminate].
  destruct (keyword query (top_k * 2)%Z upload) as [kw|] eqn:Hkw;
    [|discriminate].
  destruct (_reciprocal_rank_fusion rrf_k sem kw) as [fused|] eqn:Hfused;
    [|discriminate].
  intros [= <-]. destruct (fusion_ranked rrf_k sem kw fused Hfused)
    as [Hdesc Hall].
  rewrite Forall_forall in Hall.
  split; [|split; [|split]].
  - rewrite RankingFacts.map_slice_to.
    now apply RankingFacts.descending_slice_to.
  - rewrite Forall_forall. intros r Hr.
    apply KeywordProps.in_slice_to in Hr. now apply Hall.
  - intros r Hr. apply KeywordProps.in_slice_to in Hr.
    destruct (Hall r Hr) as (_ & h & Hh & Hchunk).
    apply in_app_or in Hh. destruct Hh as [Hh|Hh].
    + exists sem, h. auto.
    + exists kw, h. auto.
  - apply RankingFacts.slice_to_length.
Qed.

Lemma hybrid_hits_ranked_tagged_and_bounded_witness :
  let semantic := fun (_ : string) (_ : Z) (_ : option UUID) =>
                    Some [Examples.hit_07; Examples.hit_09] in
  let keyword := fun (_ : string) (_ : Z) (_ : option UUID) =>
                   Some [Examples.hit_09; Examples.hit_08] in
  exists hits,
    retrieve 60 semantic keyword "zebra" 2 None = Some hits
    /\ map (fun r => id (chunk r)) hits = ["c2"; "c1"]
    /\ descending (map score hits)
    /\ Forall (fun r => method r = "hybrid") hits
    /\ (Z.of_nat (List.length hits) <= 2)%Z.
Proof.
  cbv zeta. eexists. split; [vm_compute; reflexivity|].
  split; [reflexivity|].
  destruct (hybrid_hits_ranked_tagged_and_bounded 60
              (fun _ _ _ => Some [Examples.hit_07; Examples.hit_09])
              (fun _ _ _ => Some [Examples.hit_09; Examples.hit_08])
              "zebra" 2 None _ eq_refl) as (Hd & Hm & _ & Hl).
  split; [exact Hd|]. split; [exact Hm|]. apply Hl. lia.
Defined.

End HybridMore.

(** ** Keyword retrieval: what a returned list looks like *)

Module KeywordMore.

Import KeywordRetriever RankingSpec.

Lemma candidates_filtered db upload c :
  In c (candidates db upload) ->
  In c db /\ forall u, upload = Some u -> upload_id (document c) = u.
Proof.
  unfold candidates. destruct upload as [u|].
  - intros Hin. apply filter_In in Hin. destruct Hin as [Hin Heq].
    split; [assumption|]. intros u' [= <-]. now apply String.eqb_eq.
  - intros Hin. split; [assumption | discriminate].
Qed.

Section Loop.

Variable chunks : list Chunk.
Variable scores : list Q.

(** With every index a position of [chunks], the loop returns, in the
    order of the indices, one hit for every index of positive score. *)
Lemma results_loop_returns indices :
  (forall idx, In idx indices -> idx < List.length chunks) ->
  forall results,
    exists out,
      results_loop chunks scores indices results = Some (results ++ out)
      /\ map score out
         = filter (fun s => negb (Qle_bool s 0))
             (map (fun i => nth i scores 0%Q) indices)
      /\ Forall (fun r => method r = "keyword" /\ In (chunk r) chunks) out.
Proof.
  induction indices as [|idx rest IH]; intros Hall results;
    cbn [results_loop map filter].
  - exists []. rewrite app_nil_r. repeat split. constructor.
  - assert (Hrest : forall i, In i rest -> i < List.length chunks)
      by (intros i Hi; apply Hall; now right).
    destruct (Qle_bool (nth idx scores 0%Q) 0); cbn [negb].
    + apply IH, Hrest.
    + destruct (nth_error chunks idx) as [c|] eqn:Hc.
      * destruct (IH Hrest (results ++ [mkResult c (nth idx scores 0%Q)
                                          "keyword"]))
          as (out & Hrun & Hs & Hm).
        exists (mkResult c (nth idx scores 0%Q) "keyword" :: out).
        rewrite Hrun, <- app_assoc. split; [reflexivity|].
        split; [cbn; now rewrite Hs|].
        constructor; [|assumption]. cbn. split; [reflexivity|].
        eapply nth_error_In, Hc.
      * apply nth_error_None in Hc.
        specialize (Hall idx (or_introl eq_refl)). lia.
Qed.

End Loop.

(** X21: when the scorer gives no more scores than there are candidate
    chunks ([BM25Okapi.get_scores] gives exactly one per chunk), keyword
    [retrieve] returns a list: its hits are ranked by non-increasing
    score, tagged "keyword", each the chunk of a row of the table that
    belongs to the requested upload when one is given, and for
    [top_k >= 0] there are at most [top_k] of them. *)
Theorem keyword_hits_ranked_filtered_and_bounded :
  forall (get_scores : list (list string) -> list string -> list Q)
         (db : list Chunk) (query : string) (top_k : Z)
         (upload : option UUID),
    List.length
      (get_scores (corpus_of (candidates db upload)) (Py.split query))
    <= List.length (candidates db upload) ->
    exists results,
      retrieve get_scores db query top_k upload = Some results
      /\ descending (map score results)
      /\ Forall (fun r =>
                   method r = "keyword"
                   /\ In (chunk r) db
                   /\ forall u, upload = Some u ->
                                upload_id (document (chunk r)) = u) results
      /\ ((0 <= top_k)%Z -> (Z.of_nat (List.length results) <= top_k)%Z).
Proof.
  intros get_scores db query top_k upload Hlen. unfold retrieve.
  set (scores := get_scores (corpus_of (candidates db upload))
                   (Py.split query)) in *.
  destruct (candidates db upload) as [|c0 cs] eqn:Hcands.
  - exists []. repeat split; try constructor. cbn. lia.
  - rewrite <- Hcands in *.
    destruct (results_loop_returns (candidates db upload) scores
                (top_indices scores top_k)) with (results := @nil RetrievalResult)
      as (out & Hrun & Hs & Hm).
    { intros idx Hidx. apply KeywordProps.top_indices_in_range in Hidx.
      lia. }
    exists out. split; [exact Hrun|]. split; [|split].
    + rewrite Hs. apply RankingFacts.descending_filter.
      unfold top_indices. rewrite RankingFacts.map_slice_to.
      apply RankingFacts.descending_slice_to.
      apply (RankingFacts.sorted_desc_descending
               (fun i => nth i scores 0%Q)).
    + eapply Forall_impl; [|exact Hm]. cbn. intros r [Hmeth Hin].
      split; [assumption|]. now apply candidates_filtered.
    + intros Hk. rewrite <- (length_map score), Hs.
      pose proof (filter_length_le
                    (fun s => negb (Qle_bool s 0))
                    (map (fun i => nth i scores 0%Q)
                       (top_indices scores top_k))) as Hf.
      rewrite length_map in Hf.
      pose proof (RankingFacts.slice_to_length
                    (Py.sorted_desc (fun i => nth i scores 0%Q)
                       (seq 0 (List.length scores))) top_k Hk) as Hsl.
      unfold top_indices in *. lia.
Qed.

Lemma keyword_hits_ranked_filtered_and_bounded_witness :
  let db := [chunk Examples.hit_07; chunk Examples.hit_09] in
  exists results,
    retrieve Examples.overlap_scores db "Dogs bark" 10 None = Some results
    /\ descending (map score results)
    /\ Forall (fun r =>
                 method r = "keyword"
                 /\ In (chunk r) db
                 /\ forall u, None = Some u ->
                              upload_id (document (chunk r)) = u) results
    /\ ((0 <= 10)%Z -> (Z.of_nat (List.length results) <= 10)%Z).
Proof.
  apply (keyword_hits_ranked_filtered_and_bounded Examples.overlap_scores
           [chunk Examples.hit_07; chunk Examples.hit_09]
           "Dogs bark" 10 None).
  vm_compute. lia.
Defined.

End KeywordMore.

(** ** Query processing: the response and the query log *)

Module QueryMore.

Import QueryService.

Lemma slice_to_shorter {A : Type} (l : list A) (k : Z) :
  List.length (Py.slice_to l k) <= List.length l.
Proof.
  unfold Py.slice_to. destruct (0 <=? k)%Z; rewrite length_firstn; lia.
Qed.

(** X22: in a response that [process_query] returns, every citation
    points at one of the used chunks and carries its relevance score, the
    metadata count [chunks_used] is the number of used chunks, it does not
    exceed [chunks_retrieved] nor, for [top_k >= 0], [top_k], and the
    response echoes the query under the identifier drawn for it. *)
Theorem response_cites_only_used_chunks :
  forall (settings : Settings) (self : Service) (clock : Clock)
         (request : QueryRequest) (w w' : World) (response : QueryResponse),
    process_query settings self clock request w = (Returned response, w') ->
    Forall (fun c =>
              exists u, In u (used_chunks response)
                        /\ chunk_id u = cit_chunk_id c
                        /\ relevance_score u = cit_relevance_score c)
      (citations response)
    /\ chunks_used (resp_metadata response)
       = Z.of_nat (List.length (used_chunks response))
    /\ (chunks_used (resp_metadata response)
        <= chunks_retrieved (resp_metadata response))%Z
    /\ ((0 <= top_k request)%Z ->
        (chunks_used (resp_metadata response) <= top_k request)%Z)
    /\ resp_query response = query request
    /\ resp_query_id response = clk_query_id clock.
Proof.
  intros settings self clock request w w' response. unfold process_query.
  destruct (retriever self _ _ _) as [retrieved|]; [|discriminate].
  destruct retrieved as [|r0 retrieved]; cbn [Py.truthy negb].
  - intros [= <- <-]. cbn. repeat split; (constructor || lia).
  - destruct (llm_generate self _ _) as [llm_answer|]; [|discriminate].
    intros [= <- _].
    cbn -[Py.slice_to CitationManager.extract_citations Z.of_nat].
    set (selected := Py.slice_to (r0 :: retrieved) (top_k request)).
    split; [|split; [|split; [|split; [|split]]]]; try reflexivity.
    + unfold CitationManager.extract_citations,
        CitationManager.extract_citations_try.
      destruct (TextUtils.extract_citations_from_text (text llm_answer))
        as [nums|]; [|constructor].
      destruct (CitationManager.citations_loop _ _ _ [])
        as [out|] eqn:Hrun; [|constructor].
      apply CitationMore.citations_loop_from_context in Hrun;
        [|constructor].
      eapply Forall_impl; [|exact Hrun]. cbn.
      intros c (r & Hr & ->).
      exists (mkChunkUsed (id (chunk r)) (score r) (method r)).
      split; [|split; reflexivity].
      now apply (in_map (fun result =>
                           mkChunkUsed (id (chunk result)) (score result)
                                       (method result))).
    + now rewrite length_map.
    + pose proof (slice_to_shorter (r0 :: retrieved) (top_k request)) as Hs.
      fold selected in Hs. cbn [List.length] in Hs.
      rewrite Zpos_P_of_succ_nat. lia.
    + apply RankingFacts.slice_to_length.
Qed.

Lemma response_cites_only_used_chunks_witness :
  let settings := mkSettings "google" (1 # 10) 6000 (1 # 2) in
  let self :=
    init settings
      (fun _ _ _ => Some [Examples.hit_07; Examples.hit_09; Examples.hit_08])
      (fun _ _ => Some (mkLLMResponse "Dogs bark [Source 2]." 7 "m"))
      "gemini-pro" true in
  let request := mkRequest "What do dogs do?" None 2 (1 # 2) None in
  exists response w',
    process_query settings self (mkClock "q1" 3 4 8 0) request (mkWorld [] [])
    = (Returned response, w')
    /\ map cit_chunk_id (citations response) = ["c2"]
    /\ map chunk_id (used_chunks response) = ["c1"; "c2"]
    /\ Forall (fun c =>
                 exists u, In u (used_chunks response)
                           /\ chunk_id u = cit_chunk_id c
                           /\ relevance_score u = cit_relevance_score c)
         (citations response)
    /\ (chunks_used (resp_metadata response) <= 2)%Z.
Proof.
  cbv zeta. eexists. eexists.
  split; [vm_compute; reflexivity|].
  split; [reflexivity|]. split; [reflexivity|].
  match goal with
  | |- Forall _ (citations ?resp) /\ _ =>
      destruct (response_cites_only_used_chunks
                  (mkSettings "google" (1 # 10) 6000 (1 # 2))
                  (init (mkSettings "google" (1 # 10) 6000 (1 # 2))
                     (fun _ _ _ =>
                        Some [Examples.hit_07; Examples.hit_09;
                              Examples.hit_08])
                     (fun _ _ =>
                        Some (mkLLMResponse "Dogs bark [Source 2]." 7 "m"))
                     "gemini-pro" true)
                  (mkClock "q1" 3 4 8 0)
                  (mkRequest "What do dogs do?" None 2 (1 # 2) None)
                  (mkWorld [] []) _ resp ltac:(vm_compute; reflexivity))
        as (Hc & _ & _ & Hk & _)
  end.
  split; [exact Hc|]. apply Hk. cbn. lia.
Defined.

(** X23: whether the commit of the query log succeeds changes neither
    the response nor the calls made to the answer generator.  When it
    fails nothing is logged; when it succeeds a returned response with
    retrieved hits adds exactly one row, holding the request, the answer,
    the identifiers of the used chunks and the total time, and a response
    without retrieved hits adds none.  A query that raises logs
    nothing. *)
Theorem query_log_records_each_answered_query :
  forall (settings : Settings)
         (retrieve : string -> Z -> option UUID
                     -> option (list RetrievalResult))
         (generate : string -> Q -> option LLMResponse)
         (model_name : string) (selector_lambda : Q)
         (clock : Clock) (request : QueryRequest) (w : World),
    let committed :=
      process_query settings
        (mkService retrieve generate model_name selector_lambda true)
        clock request w in
    let rolled_back :=
      process_query settings
        (mkService retrieve generate model_name selector_lambda false)
        clock request w in
    fst committed = fst rolled_back
    /\ generate_calls (snd committed) = generate_calls (snd rolled_back)
    /\ queries (snd rolled_back) = queries w
    /\ (forall response,
          fst committed = Returned response ->
          queries (snd committed)
          = if (chunks_retrieved (resp_metadata response) =? 0)%Z
            then queries w
            else queries w
                 ++ [mkRow (resp_query_id response) (query request)
                       (req_upload_id request) (top_k request)
                       (mmr_lambda request) (answer response)
                       (map chunk_id (used_chunks response))
                       (total_time_ms (resp_metadata response))
                       (llm_provider settings)])
    /\ (fst committed = Raised -> queries (snd committed) = queries w).
Proof.
  intros settings retrieve generate model_name selector_lambda clock request
    w committed rolled_back.
  subst committed rolled_back. unfold process_query, _log_query.
  cbn [retriever llm_generate llm_model_name db_ok].
  destruct (retrieve _ _ _) as [retrieved|].
  - destruct retrieved as [|r0 retrieved]; cbn [Py.truthy negb].
    + cbn. repeat split; try reflexivity.
      intros response [= <-]. reflexivity.
    + destruct (generate _ _) as [llm_answer|].
      * cbn -[Py.slice_to CitationManager.extract_citations
              _prepare_context Prompts.format_system_prompt Z.of_nat].
        repeat split; try reflexivity; [|discriminate].
        intros response [= <-].
        cbn -[Py.slice_to CitationManager.extract_citations
              _prepare_context Prompts.format_system_prompt Z.of_nat].
        destruct (Z.eqb_spec (Z.of_nat (List.length (r0 :: retrieved))) 0)
          as [H0|_]; [cbn in H0; lia | reflexivity].
      * cbn -[Py.slice_to _prepare_context Prompts.format_system_prompt].
        repeat split; try reflexivity. discriminate.
  - cbn. repeat split; try reflexivity. discriminate.
Qed.

End QueryMore.

(** ** Sentence splitting of the chunker *)

Module SentenceMore.

Import Chunking SentenceSpec StringSpec StringFacts.

(** *** Text with its whitespace removed *)

Lemma join_empty_cons (x : string) (l : list string) :
  Py.join EmptyString (x :: l) = (x ++ Py.join EmptyString l)%string.
Proof.
  unfold Py.join. destruct l as [|y l]; cbn [String.concat].
  - now rewrite sapp_empty_r.
  - reflexivity.
Qed.

Lemma squeeze_app (a b : string) :
  squeeze (a ++ b) = (squeeze a ++ squeeze b)%string.
Proof.
  unfold squeeze. induction a as [|c a IH]; cbn; [reflexivity|].
  destruct (Py.isspace c); cbn; now rewrite IH.
Qed.

Lemma squeeze_lstrip (s : string) : squeeze (Py.lstrip s) = squeeze s.
Proof.
  unfold squeeze. induction s as [|c s IH]; cbn; [reflexivity|].
  destruct (Py.isspace c) eqn:Hc; cbn; [exact IH | now rewrite Hc].
Qed.

Lemma squeeze_rev (s : string) :
  squeeze (Py.rev_string s EmptyString)
  = Py.rev_string (squeeze s) EmptyString.
Proof.
  induction s as [|c s IH]; [reflexivity|].
  cbn [Py.rev_string]. rewrite (rev_string_acc s (String c EmptyString)).
  rewrite squeeze_app, IH.
  change (squeeze (String c EmptyString))
    with (if negb (Py.isspace c) then String c EmptyString else EmptyString).
  change (squeeze (String c s))
    with (if negb (Py.isspace c) then String c (squeeze s) else squeeze s).
  destruct (Py.isspace c); cbn [negb].
  - now rewrite sapp_empty_r.
  - cbn [Py.rev_string].
    now rewrite (rev_string_acc (squeeze s) (String c EmptyString)).
Qed.

Lemma squeeze_strip (s : string) : squeeze (Py.strip s) = squeeze s.
Proof.
  unfold Py.strip, Py.rstrip.
  rewrite squeeze_rev, squeeze_lstrip, squeeze_rev, squeeze_lstrip.
  apply rev_string_involutive.
Qed.

Lemma squeeze_empty_spaces (s : string) :
  squeeze s = EmptyString <-> all_chars Py.isspace s = true.
Proof.
  unfold squeeze. induction s as [|c s IH]; cbn; [tauto|].
  destruct (Py.isspace c); cbn; [exact IH|].
  split; discriminate.
Qed.

Lemma spaces_lstrip (s : string) :
  all_chars Py.isspace s = true -> Py.lstrip s = EmptyString.
Proof.
  induction s as [|c s IH]; cbn; [reflexivity|].
  destruct (Py.isspace c); [exact IH | discriminate].
Qed.

Lemma blank_spaces (s : string) :
  blank s <-> all_chars Py.isspace s = true.
Proof.
  unfold blank. rewrite is_empty_true. split.
  - intros H. apply squeeze_empty_spaces.
    rewrite <- squeeze_strip, H. reflexivity.
  - intros H. unfold Py.strip. now rewrite (spaces_lstrip s H).
Qed.

Lemma squeeze_strip_nonblank (l : list string) :
  squeeze (Py.join EmptyString (Py.strip_nonblank l))
  = squeeze (Py.join EmptyString l).
Proof.
  induction l as [|x l IH]; [reflexivity|].
  cbn [Py.strip_nonblank]. rewrite (join_empty_cons x l), squeeze_app.
  destruct (Py.is_empty (Py.strip x)) eqn:Hx.
  - apply blank_spaces, squeeze_empty_spaces in Hx.
    now rewrite Hx, IH.
  - now rewrite join_empty_cons, squeeze_app, squeeze_strip, IH.
Qed.

Lemma strip_nonblank_spaces (l : list string) :
  Forall (fun s => all_chars Py.isspace s = true) l ->
  Py.strip_nonblank l = [].
Proof.
  induction 1 as [|x l Hx _ IH]; cbn; [reflexivity|].
  apply blank_spaces in Hx. unfold blank in Hx. now rewrite Hx.
Qed.

Lemma split_on_go_spaces sep (s : string) :
  forall cur,
    all_chars Py.isspace s = true -> all_chars Py.isspace cur = true ->
    Forall (fun p => all_chars Py.isspace p = true)
      (Py.split_on_go sep s cur).
Proof.
  induction s as [|c s IH]; intros cur Hs Hcur; cbn in *.
  - now repeat constructor.
  - apply andb_prop in Hs. destruct Hs as [Hc Hs].
    destruct (Ascii.eqb c sep).
    + constructor; [assumption | now apply IH].
    + apply IH; [assumption|].
      unfold Py.snoc. rewrite all_chars_app, Hcur. cbn. now rewrite Hc.
Qed.

(** *** The scan of [re.split] *)

Lemma boundary_run before (s : string) (n : nat) :
  boundary before s = Some n -> n = space_run s /\ 0 < n.
Proof.
  unfold boundary. destruct (lookbehind_ok before); [|discriminate].
  destruct (space_run s) as [|k]; [discriminate|].
  destruct (Py.lstrip s) as [|c t]; [discriminate|].
  destruct (Py.isupper_az c); [|discriminate].
  intros [= <-]. split; [reflexivity | lia].
Qed.

(** The pieces are the text without the boundaries, which are
    whitespace. *)
Lemma re_split_squeeze (s : string) :
  forall before skip cur,
    skip <= space_run s ->
    squeeze (Py.join EmptyString (re_split s before skip cur))
    = (squeeze cur ++ squeeze s)%string.
Proof.
  induction s as [|c s IH]; intros before skip cur Hskip;
    cbn [re_split].
  - unfold Py.join. cbn. now rewrite sapp_empty_r.
  - assert (Hsq : Py.isspace c = true ->
                  squeeze (String c s) = squeeze s).
    { intros Hc. unfold squeeze. cbn. now rewrite Hc. }
    destruct skip as [|k].
    + destruct (boundary before (String c s)) as [[|k]|] eqn:Hb.
      * apply boundary_run in Hb. lia.
      * apply boundary_run in Hb. destruct Hb as [Hrun _].
        cbn [space_run] in Hrun.
        destruct (Py.isspace c) eqn:Hc; [|discriminate].
        rewrite join_empty_cons, squeeze_app, IH by lia.
        now rewrite Hsq.
      * rewrite IH by lia. unfold Py.snoc.
        rewrite squeeze_app, sapp_assoc, <- squeeze_app. reflexivity.
    + cbn [space_run] in Hskip.
      destruct (Py.isspace c) eqn:Hc; [|lia].
      rewrite IH by lia. now rewrite Hsq.
Qed.

Lemma re_split_no_terminator (s : string) :
  forall before cur,
    all_chars (fun c => negb (is_terminator c)) s = true ->
    match before with
    | [] => True
    | c :: _ => is_terminator c = false
    end ->
    re_split s before 0 cur = [(cur ++ s)%string].
Proof.
  induction s as [|c s IH]; intros before cur Hs Hbefore; cbn [re_split].
  - now rewrite sapp_empty_r.
  - cbn in Hs. apply andb_prop in Hs. destruct Hs as [Hc Hs].
    assert (Hb : boundary before (String c s) = None).
    { unfold boundary, lookbehind_ok.
      destruct before as [|c1 rest]; [reflexivity|].
      now rewrite Hbefore. }
    rewrite Hb, IH; [|assumption|].
    + unfold Py.snoc. now rewrite sapp_assoc.
    + now apply negb_true_iff.
Qed.

(** What [split_by_sentences] returns, by cases on the text. *)
Lemma split_by_sentences_cases (text : string) :
  (blank text /\ split_by_sentences text = [text])
  \/ (~ blank text
      /\ split_by_sentences text
         = Py.strip_nonblank (re_split text [] 0 EmptyString)
      /\ split_by_sentences text <> []).
Proof.
  unfold split_by_sentences.
  destruct (Py.strip_nonblank (re_split text [] 0 EmptyString))
    as [|x l] eqn:Hre; cbn [Py.truthy negb].
  - assert (Hblank : all_chars Py.isspace text = true).
    { apply squeeze_empty_spaces.
      pose proof (re_split_squeeze text [] 0 EmptyString (Nat.le_0_l _))
        as Hsq.
      rewrite <- squeeze_strip_nonblank, Hre in Hsq.
      symmetry. exact Hsq. }
    left. split; [now apply blank_spaces|].
    rewrite strip_nonblank_spaces; [reflexivity|].
    now apply split_on_go_spaces.
  - right. split; [|split; [reflexivity | discriminate]].
    intros Hblank. apply blank_spaces, squeeze_empty_spaces in Hblank.
    pose proof (re_split_squeeze text [] 0 EmptyString (Nat.le_0_l _))
      as Hsq.
    rewrite <- squeeze_strip_nonblank, Hre, Hblank in Hsq.
    rewrite join_empty_cons, squeeze_app in Hsq. cbn [append] in Hsq.
    pose proof (strip_nonblank_stripped (re_split text [] 0 EmptyString))
      as Hall.
    rewrite Hre in Hall. inversion Hall as [|? ? [Hne Hstrip] _]; subst.
    assert (Hx : squeeze x = EmptyString)
      by (destruct (squeeze x); [reflexivity | discriminate]).
    apply squeeze_empty_spaces, blank_spaces in Hx. unfold blank in Hx.
    rewrite Hstrip in Hx. apply is_empty_true in Hx. contradiction.
Qed.

(** X24: [split_by_sentences] never returns an empty list.  For a text
    with a character that is not whitespace it returns the pieces of the
    regular-expression split, stripped, the blank ones left out, so every
    sentence is non-empty and has no whitespace at either end; a text of
    whitespace only (or empty) is returned as its own single sentence.
    The split on newlines is never what is returned. *)
Theorem sentences_are_stripped_pieces_or_the_blank_text :
  forall text : string,
    split_by_sentences text <> []
    /\ (blank text -> split_by_sentences text = [text])
    /\ (~ blank text ->
        split_by_sentences text
        = Py.strip_nonblank (re_split text [] 0 EmptyString)
        /\ Forall (fun s => s <> EmptyString /\ Py.strip s = s)
             (split_by_sentences text)).
Proof.
  intros text.
  destruct (split_by_sentences_cases text)
    as [[Hblank Heq]|(Hnot & Heq & Hne)].
  - split; [rewrite Heq; discriminate|].
    split; [auto | contradiction].
  - split; [exact Hne|]. split; [contradiction|].
    intros _. split; [exact Heq|].
    rewrite Heq. apply strip_nonblank_stripped.
Qed.

(** X25: the sentences, put end to end, hold exactly the characters of
    the text that are not whitespace, in the order of the text: splitting
    loses and adds nothing but whitespace. *)
Theorem sentences_keep_every_visible_character :
  forall text : string,
    squeeze (Py.join EmptyString (split_by_sentences text)) = squeeze text.
Proof.
  intros text.
  destruct (split_by_sentences_cases text)
    as [[Hblank ->]|(Hnot & -> & Hne)].
  - unfold Py.join. cbn. reflexivity.
  - rewrite squeeze_strip_nonblank.
    now rewrite (re_split_squeeze text [] 0 EmptyString (Nat.le_0_l _)).
Qed.

(** X26: a text without any of [.], [?], [!] is one sentence, also when
    it spans several lines: the stripped text, or the text itself when it
    is blank. *)
Theorem text_without_terminator_is_one_sentence :
  forall text : string,
    all_chars (fun c => negb (is_terminator c)) text = true ->
    split_by_sentences text
    = [if Py.is_empty (Py.strip text) then text else Py.strip text].
Proof.
  intros text Hterm.
  destruct (split_by_sentences_cases text)
    as [[Hblank Heq]|(Hnot & Heq & Hne)].
  - rewrite Heq. unfold blank in Hblank. now rewrite Hblank.
  - rewrite Heq, re_split_no_terminator by (exact Hterm || exact I).
    cbn [append Py.strip_nonblank]. unfold blank in Hnot.
    destruct (Py.is_empty (Py.strip text)); [contradiction | reflexivity].
Qed.

Lemma text_without_terminator_is_one_sentence_witness :
  split_by_sentences (" first line" ++ Prompts.nl ++ "Second line ")
  = [("first line" ++ Prompts.nl ++ "Second line")%string].
Proof.
  apply (text_without_terminator_is_one_sentence
           (" first line" ++ Prompts.nl ++ "Second line ")).
  vm_compute. reflexivity.
Defined.

(** X27: [chunk_text], with the sentences of [split_by_sentences],
    returns no chunk exactly for a blank text, and for any text never more
    chunks than the text has sentences. *)
Theorem chunk_text_is_empty_only_for_blank_text :
  forall (count_tokens : string -> nat)
         (chunk_size chunk_overlap min_chunk_size : Z)
         (document_id : UUID) (text : string) (page_number : option Z)
         (metadata : Metadata),
    let chunks :=
      chunk_text count_tokens chunk_size chunk_overlap min_chunk_size
        split_by_sentences document_id text page_number metadata in
    (chunks = [] <-> blank text)
    /\ List.length chunks <= List.length (split_by_sentences text).
Proof.
  intros count_tokens chunk_size chunk_overlap min_chunk_size document_id
    text page_number metadata chunks. subst chunks. unfold chunk_text.
  destruct (Py.is_empty text || Py.is_empty (Py.strip text)) eqn:Hblank.
  - split; [|cbn; lia]. split; [|reflexivity]. intros _.
    apply orb_prop in Hblank. destruct Hblank as [He|Hs]; [|exact Hs].
    apply is_empty_true in He. now subst.
  - apply orb_false_elim in Hblank. destruct Hblank as [_ Hs].
    assert (Hnot : ~ blank text) by (unfold blank; congruence).
    destruct (split_by_sentences_cases text)
      as [[Hb _]|(_ & _ & Hne)]; [contradiction|].
    match goal with
    | |- context [create_chunks_with_overlap ?ct ?cs ?co ?mcs ?d ?md ?ss] =>
        destruct (ChunkingMore.create_chunks_counted ct cs co mcs d md ss)
          as [Hlen Hsome]
    end.
    split; [|exact Hlen].
    split; [intros Hnil; now apply Hsome in Hnil | contradiction].
Qed.

End SentenceMore.

(** ** Where a citation snippet comes from *)

Module SnippetMore.

Import TextUtils.

Lemma best_sentence_loop_origin answer_words sentences :
  forall best max_overlap,
    best_sentence_loop answer_words sentences best max_overlap = best
    \/ exists piece,
         In piece sentences
         /\ best_sentence_loop answer_words sentences best max_overlap
            = Py.strip piece.
Proof.
  induction sentences as [|sentence rest IH]; intros best max_overlap;
    cbn [best_sentence_loop]; [now left|].
  destruct (Py.is_empty (Py.strip sentence)).
  - destruct (IH best max_overlap) as [H|(piece & Hin & H)]; [now left|].
    right. exists piece. split; [now right | exact H].
  - destruct (max_overlap <? _).
    + right.
      destruct (IH (Py.strip sentence)
                  (Py.inter_size answer_words
                     (Py.dedup (Py.split (Py.lower (Py.strip sentence))))))
        as [H|(piece & Hin & H)].
      * exists sentence. split; [now left | exact H].
      * exists piece. split; [now right | exact H].
    + destruct (IH best max_overlap) as [H|(piece & Hin & H)]; [now left|].
      right. exists piece. split; [now right | exact H].
Qed.

Lemma split_on_go_first sep (s : string) :
  forall cur, exists first rest, Py.split_on_go sep s cur = first :: rest.
Proof.
  induction s as [|c s IH]; intros cur; cbn.
  - now exists cur, [].
  - destruct (Ascii.eqb c sep); [now eexists; eexists | apply IH].
Qed.

(** X28: the snippet of a citation is always taken from one of the pieces
    of the chunk's own content between dots: it is that piece stripped,
    or, when the stripped piece is longer than [snippet_length], its first
    [snippet_length] characters followed by three dots. *)
Theorem snippet_is_a_piece_of_the_chunk :
  forall (chunk_content answer_text : string) (snippet_length : nat),
    exists piece,
      In piece (Py.split_on "." chunk_content)
      /\ extract_relevant_snippet chunk_content answer_text snippet_length
         = if snippet_length <? String.length (Py.strip piece)
           then (Py.str_take snippet_length (Py.strip piece) ++ "...")%string
           else Py.strip piece.
Proof.
  intros chunk_content answer_text snippet_length.
  unfold extract_relevant_snippet.
  set (answer_words := Py.dedup (Py.split (Py.lower answer_text))).
  unfold Py.split_on.
  destruct (split_on_go_first "." chunk_content EmptyString)
    as (first & rest & Hsplit).
  rewrite Hsplit.
  destruct (best_sentence_loop_origin answer_words (first :: rest)
              EmptyString 0) as [Hbest|(piece & Hin & Hbest)];
    rewrite Hbest.
  - exists first. split; [now left | reflexivity].
  - destruct (Py.is_empty (Py.strip piece)) eqn:Hempty.
    + exists first. split; [now left | reflexivity].
    + exists piece. split; [exact Hin | reflexivity].
Qed.

End SnippetMore.
